(** * Personal finance ledger (project_updated.cpp): domain layer

    A shallow embedding of the ledger's data layer: the date parser, the
    transaction store, the budget map, the report computations and the
    users.txt codec, and of what drives it: the text input, the list of
    transactions, authentication and the loop of [main]; followed by the
    properties established about them.

    Conventions.
    - [std::string] is a list of 8-bit characters ([str]).
    - [int] is a [Z] inside [INT_MIN, INT_MAX]; the increment of the id
      counter writes the two's-complement wrap-around out ([wrap32]).
    - [float] is IEEE-754 binary32, computed with the parameterised
      operations of [SpecFloat] at precision 24 and exponent bound 128
      (round to nearest, ties to even); a NaN keeps its sign bit;
      [double] is binary64.
    - where the C++ standard leaves the result to the platform it is
      that of x86-64 Linux with glibc: a NaN operand is the result of
      an operation, the NaN of an invalid operation has the sign bit
      set, and [strtof] detects tininess after rounding.
    - users.txt is its content as a reader finds it, [None] when it
      cannot be opened; whether it can be opened for writing is given
      for each save.
    - [std::map<string,float>] is an association list kept strictly
      sorted by key, which is the order its iterators visit.
    - an exception leaving a function is the [Throw] case of [result]. *)

From Stdlib Require Import ZArith List Sorted Ascii String Bool Lia.
From Stdlib Require Import Floats.SpecFloat.
Import ListNotations.

Local Open Scope Z_scope.
Local Open Scope list_scope.

(* ================================================================== *)
(** ** Strings and characters *)

Definition str := list ascii.

(** String literals of the source. *)
Definition lit (s : string) : str := list_ascii_of_string s.

Definition code (c : ascii) : Z := Z.of_N (N_of_ascii c).

Definition chr (n : Z) : ascii := ascii_of_N (Z.to_N n).

Definition ch_pipe : ascii := "|"%char.
Definition ch_dash : ascii := "-"%char.
Definition ch_plus : ascii := "+"%char.
Definition ch_colon : ascii := ":"%char.
Definition ch_comma : ascii := ","%char.
Definition ch_dot : ascii := "."%char.
Definition ch_nl : ascii := chr 10.
Definition ch_nul : ascii := chr 0.

Fixpoint str_eqb (a b : str) : bool :=
  match a, b with
  | [], [] => true
  | x :: a', y :: b' => Ascii.eqb x y && str_eqb a' b'
  | _, _ => false
  end.

(** [std::string::compare]: lexicographic on the unsigned character
    codes, a proper prefix being smaller. *)
Fixpoint str_compare (a b : str) : comparison :=
  match a, b with
  | [], [] => Eq
  | [], _ :: _ => Lt
  | _ :: _, [] => Gt
  | x :: a', y :: b' =>
      match Z.compare (code x) (code y) with
      | Eq => str_compare a' b'
      | c => c
      end
  end.

Definition str_ltb (a b : str) : bool :=
  match str_compare a b with Lt => true | _ => false end.

(** [s.rfind(p, 0) == 0]: [s] starts with [p]. *)
Fixpoint starts_with (p s : str) : bool :=
  match p, s with
  | [], _ => true
  | x :: p', y :: s' => Ascii.eqb x y && starts_with p' s'
  | _ :: _, [] => false
  end.

(** [s.substr(n)]. *)
Definition substr_from (n : nat) (s : str) : str := skipn n s.

(** [s.find(c)]: position of the first occurrence. *)
Fixpoint find_char (c : ascii) (s : str) : option nat :=
  match s with
  | [] => None
  | x :: r => if Ascii.eqb x c then Some O
              else option_map S (find_char c r)
  end.

(** [isspace] in the "C" locale. *)
Definition isspace (c : ascii) : bool :=
  (code c =? 32) || ((9 <=? code c) && (code c <=? 13)).

Definition isdigit (c : ascii) : bool :=
  (48 <=? code c) && (code c <=? 57).

(** [toupper] in the "C" locale. *)
Definition toupper (c : ascii) : ascii :=
  if (97 <=? code c) && (code c <=? 122) then chr (code c - 32) else c.

Definition digit_val (c : ascii) : Z := code c - 48.
Definition digit_char (d : Z) : ascii := chr (48 + d).

(* ================================================================== *)
(** ** Exceptions *)

Inductive exn : Type := invalid_argument | out_of_range.

Inductive result (A : Type) : Type :=
| Ok (a : A)
| Throw (e : exn).
Arguments Ok {A} a.
Arguments Throw {A} e.

Definition bind {A B} (r : result A) (k : A -> result B) : result B :=
  match r with
  | Ok a => k a
  | Throw e => Throw e
  end.

Notation "'do' x <- r ; k" := (bind r (fun x => k))
  (at level 10, x name, r at level 100, k at level 200).

(* ================================================================== *)
(** ** The [int] type and its text forms *)

Definition INT_MIN : Z := -2147483648.
Definition INT_MAX : Z := 2147483647.

Definition in_int (z : Z) : bool := (INT_MIN <=? z) && (z <=? INT_MAX).

Definition wrap32 (z : Z) : Z := (z + 2147483648) mod 4294967296 - 2147483648.

Fixpoint skipws (s : str) : str :=
  match s with
  | c :: r => if isspace c then skipws r else s
  | [] => []
  end.

(** The longest prefix of characters satisfying [p], and what follows. *)
Fixpoint span (p : ascii -> bool) (s : str) : str * str :=
  match s with
  | c :: r =>
      if p c then let (ds, rest) := span p r in (c :: ds, rest)
      else ([], s)
  | [] => ([], [])
  end.

Definition digits_value (ds : str) : Z :=
  fold_left (fun acc c => acc * 10 + digit_val c) ds 0.

(** An optional sign. *)
Definition scan_sign (s : str) : bool * str :=
  match s with
  | c :: r => if Ascii.eqb c ch_dash then (true, r)
              else if Ascii.eqb c ch_plus then (false, r)
              else (false, s)
  | [] => (false, [])
  end.

(** The integer syntax shared by [strtol] (base 10) and by the stream
    extraction of an [int]: optional sign, then at least one digit; the
    digits are consumed greedily.  No digit: [None]. *)
Definition scan_int (s : str) : option (Z * str) :=
  let (neg, s1) := scan_sign s in
  match span isdigit s1 with
  | ([], _) => None
  | (ds, rest) => Some (if neg then - digits_value ds else digits_value ds, rest)
  end.

(** [ss >> n] for an [int n]: leading white space is skipped; the
    extraction fails when no digit is found or the value does not fit an
    [int].  The stream is represented by the characters not yet read; a
    stream at its end fails every later extraction, as one whose eofbit
    is set does. *)
Definition extract_int (ss : str) : option (Z * str) :=
  match scan_int (skipws ss) with
  | Some (v, rest) => if in_int v then Some (v, rest) else None
  | None => None
  end.

(** [ss >> c] for a [char c]: skips white space, reads one character. *)
Definition extract_char (ss : str) : option (ascii * str) :=
  match skipws ss with
  | c :: rest => Some (c, rest)
  | [] => None
  end.

(** [std::stoi]: [strtol] in base 10; [invalid_argument] when nothing
    was converted, [out_of_range] when the value does not fit an [int]. *)
Definition stoi (s : str) : result Z :=
  match scan_int (skipws s) with
  | None => Throw invalid_argument
  | Some (v, _) => if in_int v then Ok v else Throw out_of_range
  end.

(** Decimal digits of a non-negative number, most significant first. *)
Fixpoint nat_digits (fuel : nat) (n : Z) (acc : str) : str :=
  match fuel with
  | O => acc
  | S f =>
      let acc' := digit_char (n mod 10) :: acc in
      if n / 10 =? 0 then acc' else nat_digits f (n / 10) acc'
  end.

Definition digits_fuel (n : Z) : nat := S (Z.to_nat (Z.log2 n)).

(** [std::to_string(int)] and [os << int]. *)
Definition to_string (n : Z) : str :=
  if n <? 0 then ch_dash :: nat_digits (digits_fuel (- n)) (- n) []
  else nat_digits (digits_fuel n) n [].

(* ================================================================== *)
(** ** Date parser *)

(** [parse_date]: [ss >> year >> dash && dash == '-' && ss >> month >>
    dash && dash == '-' && ss >> day]. *)
Definition parse_date (date_str : str) : option (Z * Z * Z) :=
  match extract_int date_str with
  | None => None
  | Some (year, s1) =>
  match extract_char s1 with
  | None => None
  | Some (dash1, s2) =>
  if negb (Ascii.eqb dash1 ch_dash) then None else
  match extract_int s2 with
  | None => None
  | Some (month, s3) =>
  match extract_char s3 with
  | None => None
  | Some (dash2, s4) =>
  if negb (Ascii.eqb dash2 ch_dash) then None else
  match extract_int s4 with
  | None => None
  | Some (day, _) => Some (year, month, day)
  end end end end end.

(* ================================================================== *)
(** ** The [float] type: IEEE-754 binary32 *)

(** A binary32 value: the numbers of [spec_float], and a NaN with its
    sign bit, which [spec_float] does not keep and the streams write. *)
Inductive float : Type :=
| F754_zero (s : bool)
| F754_infinity (s : bool)
| F754_nan (s : bool)
| F754_finite (s : bool) (m : positive) (e : Z).

Definition to_spec (x : float) : spec_float :=
  match x with
  | F754_zero s => S754_zero s
  | F754_infinity s => S754_infinity s
  | F754_nan _ => S754_nan
  | F754_finite s m e => S754_finite s m e
  end.

(** The result of an operation of [SpecFloat]; the NaN an invalid
    operation gives has the sign bit set. *)
Definition of_spec (x : spec_float) : float :=
  match x with
  | S754_zero s => F754_zero s
  | S754_infinity s => F754_infinity s
  | S754_nan => F754_nan true
  | S754_finite s m e => F754_finite s m e
  end.

(** An arithmetic operation: a NaN operand is the result, the first one
    when both are NaN. *)
Definition binary_op (op : spec_float -> spec_float -> spec_float)
    (a b : float) : float :=
  match a, b with
  | F754_nan _, _ => a
  | _, F754_nan _ => b
  | _, _ => of_spec (op (to_spec a) (to_spec b))
  end.

Definition fzero : float := F754_zero false.
Definition fadd (a b : float) : float := binary_op (SFadd 24 128) a b.
Definition fsub (a b : float) : float := binary_op (SFsub 24 128) a b.
Definition fdiv (a b : float) : float := binary_op (SFdiv 24 128) a b.

(** [a < b] on floats (false when either side is a NaN). *)
Definition flt (a b : float) : bool := SFltb (to_spec a) (to_spec b).

(** The exact widening of a [float] to a [double]. *)
Definition to_double (x : float) : spec_float :=
  match x with
  | F754_finite s m e => binary_round 53 1024 s m e
  | _ => to_spec x
  end.

(** The [double] literal [0.9]: the binary64 number nearest to 9/10. *)
Definition double_0_9 : spec_float :=
  S754_finite false 8106479329266893 (-53).

(** [(float) z] for an integer constant. *)
Definition float_of_Z (z : Z) : float :=
  of_spec (binary_normalize 24 128 z 0 false).

(** A finite positive float [m * 2^e] as a fraction. *)
Definition ratio2 (m e : Z) : Z * Z :=
  if 0 <=? e then (m * 2 ^ e, 1) else (m, 2 ^ (- e)).

Definition ratio10 (m e : Z) : Z * Z :=
  if 0 <=? e then (m * 10 ^ e, 1) else (m, 10 ^ (- e)).

Definition ratio_eqb (a b : Z * Z) : bool :=
  fst a * snd b =? fst b * snd a.

Definition ratio_ltb (a b : Z * Z) : bool :=
  fst a * snd b <? fst b * snd a.

(** The magnitude of a float as a fraction ([0] for the others). *)
Definition float_ratio (x : float) : Z * Z :=
  match x with
  | F754_finite _ m e => ratio2 (Zpos m) e
  | _ => (0, 1)
  end.

(* ------------------------------------------------------------------ *)
(** *** [std::stof] *)

Definition ishex (c : ascii) : bool :=
  isdigit c || ((65 <=? code (toupper c)) && (code (toupper c) <=? 70)).

Definition hex_val (c : ascii) : Z :=
  if isdigit c then digit_val c else code (toupper c) - 55.

Definition hex_value (ds : str) : Z :=
  fold_left (fun acc c => acc * 16 + hex_val c) ds 0.

(** [p] is a prefix of [s] up to the case of letters. *)
Fixpoint starts_with_ci (p s : str) : bool :=
  match p, s with
  | [], _ => true
  | x :: p', y :: s' => Ascii.eqb (toupper x) (toupper y) && starts_with_ci p' s'
  | _ :: _, [] => false
  end.

(** An optional exponent part: the marker ([e] or [p], either case), an
    optional sign and at least one decimal digit.  Without a digit the
    marker is not part of the number and the exponent is [0]. *)
Definition scan_exponent (marker : ascii) (s : str) : Z :=
  match s with
  | c :: r =>
      if Ascii.eqb (toupper c) marker then
        let (neg, r1) := scan_sign r in
        match span isdigit r1 with
        | ([], _) => 0
        | (ds, _) => if neg then - digits_value ds else digits_value ds
        end
      else 0
  | [] => 0
  end.

(** A digit sequence optionally containing the radix character:
    the digits before it, the digits after it, and the rest. *)
Definition scan_mantissa (p : ascii -> bool) (s : str) : str * str * str :=
  let (ip, r) := span p s in
  match r with
  | c :: r1 =>
      if Ascii.eqb c ch_dot then let (fp, r2) := span p r1 in (ip, fp, r2)
      else (ip, [], r)
  | [] => (ip, [], [])
  end.

(** The magnitude [exact] is tiny: rounded to 24 bits without a bound
    on the exponent it is still below [2^-126], the least normal
    number.  The 24-bit numbers below [2^-126] end at
    [2^-126 - 2^-150]; the tie half way up to [2^-126] goes to the even
    one, which is [2^-126]. *)
Definition tiny (exact : Z * Z) : bool :=
  ratio_ltb exact (2 ^ 25 - 1, 2 ^ 151).

(** What [strtof] reports besides the value: [ERANGE] on overflow, and
    on an inexact result that is tiny (as on x86-64, where tininess is
    detected after rounding). *)
Definition range_checked (exact : Z * Z) (r : float) : result float :=
  match r with
  | F754_infinity _ => Throw out_of_range
  | _ =>
      if tiny exact && negb (ratio_eqb (float_ratio r) exact)
      then Throw out_of_range else Ok r
  end.

(** Correct rounding of [d * 10^e10] to binary32. *)
Definition round_decimal (neg : bool) (d e10 : Z) : float :=
  if d =? 0 then F754_zero neg
  else if 0 <=? e10
  then of_spec (binary_normalize 24 128 (cond_Zopp neg (d * 10 ^ e10)) 0 neg)
  else of_spec (SFdiv 24 128 (S754_finite neg (Z.to_pos d) 0)
                             (S754_finite false (Z.to_pos (10 ^ (- e10))) 0)).

(** Correct rounding of [h * 2^e2] to binary32. *)
Definition round_binary (neg : bool) (h e2 : Z) : float :=
  of_spec (binary_normalize 24 128 (cond_Zopp neg h) e2 neg).

Definition stof_decimal (neg : bool) (s : str) : result float :=
  let '(ip, fp, rest) := scan_mantissa isdigit s in
  match ip ++ fp with
  | [] => Throw invalid_argument
  | ds =>
      let d := digits_value ds in
      let e10 := scan_exponent "E"%char rest - Z.of_nat (List.length fp) in
      if d =? 0 then Ok (F754_zero neg)
      else range_checked (ratio10 d e10) (round_decimal neg d e10)
  end.

Definition stof_hex (neg : bool) (s : str) : option (result float) :=
  let '(ip, fp, rest) := scan_mantissa ishex s in
  match ip ++ fp with
  | [] => None
  | ds =>
      let h := hex_value ds in
      let e2 := scan_exponent "P"%char rest - 4 * Z.of_nat (List.length fp) in
      Some (if h =? 0 then Ok (F754_zero neg)
            else range_checked (ratio2 h e2) (round_binary neg h e2))
  end.

(** [std::stof]: [strtof], then [invalid_argument] when nothing was
    converted and [out_of_range] when [strtof] reported [ERANGE].
    [strtof] skips white space, reads an optional sign and then the
    longest of: INF or NAN in any case, a hexadecimal number after 0x,
    a decimal number; what follows is ignored. *)
Definition stof (s : str) : result float :=
  let (neg, s1) := scan_sign (skipws s) in
  if starts_with_ci (lit "INF") s1 then Ok (F754_infinity neg)
  else if starts_with_ci (lit "NAN") s1 then Ok (F754_nan neg)
  else if starts_with_ci (lit "0X") s1 then
    match stof_hex neg (skipn 2 s1) with
    | Some r => r
    | None => Ok (F754_zero neg)
    end
  else stof_decimal neg s1.

(* ------------------------------------------------------------------ *)
(** *** [os << float] *)

(** [n/d >= 10^k]. *)
Definition ge_pow10 (n d k : Z) : bool :=
  negb (ratio_ltb (n, d) (ratio10 1 k)).

(** The decimal exponent of [n/d]: the largest [x] with [10^x <= n/d],
    searched upwards from [x].  The search of [print_g6], from -50 with
    fuel 100, covers every binary32 value (1.4e-45 to 3.4e38). *)
Fixpoint dec_exponent (fuel : nat) (n d x : Z) : Z :=
  match fuel with
  | O => x
  | S f => if ge_pow10 n d (x + 1) then dec_exponent f n d (x + 1) else x
  end.

(** [n/d] rounded to the nearest integer, ties to even. *)
Definition round_half_even (n d : Z) : Z :=
  let q := n / d in
  let r := n mod d in
  match Z.compare (2 * r) d with
  | Lt => q
  | Gt => q + 1
  | Eq => if Z.even q then q else q + 1
  end.

Fixpoint drop_zeros (s : str) : str :=
  match s with
  | c :: r => if Ascii.eqb c "0"%char then drop_zeros r else s
  | [] => []
  end.

Definition strip_zeros (s : str) : str := rev (drop_zeros (rev s)).

Definition with_fraction (ip fp : str) : str :=
  match strip_zeros fp with
  | [] => ip
  | fp' => ip ++ ch_dot :: fp'
  end.

Definition exponent_digits (x : Z) : str :=
  (if x <? 0 then ch_dash else ch_plus)
    :: (if Z.abs x <? 10 then "0"%char :: to_string (Z.abs x)
        else to_string (Z.abs x)).

(** The [%g] conversion with precision 6 of a positive fraction. *)
Definition print_g6 (n d : Z) : str :=
  let x0 := dec_exponent 100 n d (-50) in
  let s := ratio10 1 (5 - x0) in
  let q0 := round_half_even (n * fst s) (d * snd s) in
  let x := if q0 =? 1000000 then x0 + 1 else x0 in
  let q := if q0 =? 1000000 then 100000 else q0 in
  let ds := nat_digits 6 q [] in
  if (-4 <=? x) && (x <? 6) then
    if 0 <=? x
    then with_fraction (firstn (Z.to_nat (x + 1)) ds) (skipn (Z.to_nat (x + 1)) ds)
    else with_fraction (lit "0") (repeat "0"%char (Z.to_nat (- x - 1)) ++ ds)
  else
    with_fraction (firstn 1 ds) (skipn 1 ds) ++ "e"%char :: exponent_digits x.

Definition sign_text (neg : bool) : str := if neg then [ch_dash] else [].

(** [os << x] for a [float x] with the stream's default format
    (general notation, precision 6: the [%g] conversion of the value
    with six significant digits). *)
Definition print_float (x : float) : str :=
  match x with
  | F754_nan s => sign_text s ++ lit "nan"
  | F754_infinity s => sign_text s ++ lit "inf"
  | F754_zero s => sign_text s ++ lit "0"
  | F754_finite s m e =>
      let (n, d) := ratio2 (Zpos m) e in sign_text s ++ print_g6 n d
  end.

(* ================================================================== *)
(** ** [std::map<string, float>] *)

Definition smap := list (str * float).

(** The reference [m[k]] used to replace the value by [f] of it; an
    absent key is first inserted with the value-initialised [0.0f]. *)
Fixpoint map_update (k : str) (f : float -> float) (m : smap) : smap :=
  match m with
  | [] => [(k, f fzero)]
  | (k', v) :: r =>
      match str_compare k k' with
      | Lt => (k, f fzero) :: m
      | Eq => (k', f v) :: r
      | Gt => (k', v) :: map_update k f r
      end
  end.

Fixpoint map_find (k : str) (m : smap) : option float :=
  match m with
  | [] => None
  | (k', v) :: r =>
      match str_compare k k' with
      | Lt => None
      | Eq => Some v
      | Gt => map_find k r
      end
  end.

Definition map_get (k : str) (m : smap) : float :=
  match map_find k m with Some v => v | None => fzero end.

(** [m[k] += a]. *)
Definition map_add (k : str) (a : float) (m : smap) : smap :=
  map_update k (fun v => fadd v a) m.

(** [m[k] = a]. *)
Definition map_set (k : str) (a : float) (m : smap) : smap :=
  map_update k (fun _ => a) m.

(** Reading [m[k]]: the value, and the map with [k] now present. *)
Definition map_at (k : str) (m : smap) : float * smap :=
  (map_get k m, map_update k (fun v => v) m).

(* ================================================================== *)
(** ** Data model *)

Record Transaction : Type := mkTransaction {
  date : str;
  category : str;
  description : str;
  amount : float;
  type : ascii;
  id : Z
}.

Record UserProfile : Type := mkUserProfile {
  username : str;
  password : str;
  transactions : list Transaction;
  budgetPerCategory : smap;
  next_transaction_id : Z
}.

(** [UserProfile()]. *)
Definition new_profile : UserProfile :=
  mkUserProfile [] [] [] [] 1.

(** [UserProfile{username_input, password_input}]. *)
Definition fresh_profile (u p : str) : UserProfile :=
  mkUserProfile u p [] [] 1.

Definition is_empty (s : str) : bool :=
  match s with [] => true | _ => false end.

Definition is_I (c : ascii) : bool := Ascii.eqb c "I"%char.
Definition is_E (c : ascii) : bool := Ascii.eqb c "E"%char.

(* ================================================================== *)
(** ** Transaction store *)

(** [std::find_if]: the position of the first element satisfying [p]. *)
Fixpoint find_if {A} (p : A -> bool) (l : list A) : option nat :=
  match l with
  | [] => None
  | x :: r => if p x then Some O else option_map S (find_if p r)
  end.

(** Assignment through a reference to the element at position [i]. *)
Fixpoint update_at {A} (i : nat) (f : A -> A) (l : list A) : list A :=
  match l, i with
  | [], _ => []
  | x :: r, O => f x :: r
  | x :: r, S j => x :: update_at j f r
  end.

(** [v.erase(it)]. *)
Fixpoint erase_at {A} (i : nat) (l : list A) : list A :=
  match l, i with
  | [], _ => []
  | _ :: r, O => r
  | x :: r, S j => x :: erase_at j r
  end.

(** [user.transactions.push_back({..., user.next_transaction_id++})]. *)
Definition push_transaction (user : UserProfile)
    (d c desc : str) (a : float) (t : ascii) : UserProfile :=
  mkUserProfile user.(username) user.(password)
    (user.(transactions) ++
       [mkTransaction d c desc a t user.(next_transaction_id)])
    user.(budgetPerCategory)
    (wrap32 (user.(next_transaction_id) + 1)).

(** [add_transaction_ui], as a function of the five texts the input
    boxes return (an empty text is a cancelled box). *)
Definition add_transaction_ui (user : UserProfile)
    (date_in category_in description_in amount_str type_str : str)
  : UserProfile :=
  if is_empty date_in then user else
  if is_empty category_in then user else
  if is_empty description_in then user else
  if is_empty amount_str then user else
  match stof amount_str with
  | Throw _ => user
  | Ok amount_in =>
      match type_str with
      | [] => user
      | c :: _ =>
          if negb (is_I (toupper c)) && negb (is_E (toupper c)) then user
          else push_transaction user date_in category_in description_in
                                amount_in (toupper c)
      end
  end.

(** The button chosen on the edit/delete screen; [Edit] carries the
    five texts typed into the edit boxes. *)
Inductive button : Type :=
| Edit (new_date new_category new_description new_amount_str new_type_str : str)
| Delete
| Cancel.

(** The edit branch, applied to the transaction found. *)
Definition edit_transaction
    (new_date new_category new_description new_amount_str new_type_str : str)
    (t : Transaction) : Transaction :=
  let d := if is_empty new_date then t.(date) else new_date in
  let c := if is_empty new_category then t.(category) else new_category in
  let ds := if is_empty new_description then t.(description) else new_description in
  let a := if is_empty new_amount_str then t.(amount)
           else match stof new_amount_str with
                | Ok v => v
                | Throw _ => t.(amount)
                end in
  let ty := match new_type_str with
            | [] => t.(type)
            | x :: _ => if is_I (toupper x) || is_E (toupper x)
                        then toupper x else t.(type)
            end in
  mkTransaction d c ds a ty t.(id).

Definition with_transactions (user : UserProfile) (l : list Transaction)
  : UserProfile :=
  mkUserProfile user.(username) user.(password) l
    user.(budgetPerCategory) user.(next_transaction_id).

(** [edit_delete_transaction_ui], as a function of the id text and of
    the button chosen. *)
Definition edit_delete_transaction_ui (user : UserProfile)
    (id_str : str) (b : button) : UserProfile :=
  if is_empty id_str then user else
  match stoi id_str with
  | Throw _ => user
  | Ok id_to_find =>
      match find_if (fun t => t.(id) =? id_to_find) user.(transactions) with
      | None => user
      | Some it =>
          match b with
          | Edit nd nc ndesc na nt =>
              with_transactions user
                (update_at it (edit_transaction nd nc ndesc na nt)
                           user.(transactions))
          | Delete => with_transactions user (erase_at it user.(transactions))
          | Cancel => user
          end
      end
  end.

(** [set_budget_ui]. *)
Definition set_budget_ui (user : UserProfile) (category_in amount_str : str)
  : UserProfile :=
  if is_empty category_in then user else
  if is_empty amount_str then user else
  match stof amount_str with
  | Throw _ => user
  | Ok a =>
      mkUserProfile user.(username) user.(password) user.(transactions)
        (map_set category_in a user.(budgetPerCategory))
        user.(next_transaction_id)
  end.

(* ================================================================== *)
(** ** Reports *)

(** [calculateExpensesByCategory]. *)
Definition calculateExpensesByCategory (l : list Transaction) : smap :=
  fold_left
    (fun expenses t =>
       if is_E t.(type) then map_add t.(category) t.(amount) expenses
       else expenses)
    l [].

(** [draw_summary]: total income, total expense and net. *)
Definition summary_step (acc : float * float) (t : Transaction) : float * float :=
  let (totalIncome, totalExpense) := acc in
  if is_I t.(type) then (fadd totalIncome t.(amount), totalExpense)
  else if is_E t.(type) then (totalIncome, fadd totalExpense t.(amount))
  else acc.

Definition draw_summary (l : list Transaction) : float * float * float :=
  let (totalIncome, totalExpense) := fold_left summary_step l (fzero, fzero) in
  (totalIncome, totalExpense, fsub totalIncome totalExpense).

Inductive color : Type := COLOR_BLACK | COLOR_RED | COLOR_ORANGE.

Record budget_row : Type := mkBudgetRow {
  row_category : str;
  row_budget : float;
  row_spent : float;
  row_color : color
}.

(** The colour of a budget line: red when [spent > budget], orange when
    [budget > 0 && spent / budget >= 0.9], black otherwise.  The
    quotient is a [float], widened for the comparison with the [double]
    literal. *)
Definition budget_color (spent budget : float) : color :=
  if flt budget spent then COLOR_RED
  else if flt (float_of_Z 0) budget
          && SFleb double_0_9 (to_double (fdiv spent budget))
       then COLOR_ORANGE
       else COLOR_BLACK.

(** The loop of [drawBudgetReport] over the budget map. *)
Fixpoint budget_loop (budgets : smap) (expenses : smap)
  : list budget_row * bool :=
  match budgets with
  | [] => ([], false)
  | (cat, budget) :: rest =>
      let (spent, expenses') := map_at cat expenses in
      let (rows, exceeded) := budget_loop rest expenses' in
      (mkBudgetRow cat budget spent (budget_color spent budget) :: rows,
       flt budget spent || exceeded)
  end.

(** [drawBudgetReport]: the lines drawn and [budget_exceeded_any_category]. *)
Definition drawBudgetReport (user : UserProfile) : list budget_row * bool :=
  budget_loop user.(budgetPerCategory)
              (calculateExpensesByCategory user.(transactions)).

(** The month key of the time series. *)
Definition month_key (year month : Z) : str :=
  to_string year ++ lit "-" ++ (if month <? 10 then lit "0" else []) ++ to_string month.

Definition year_key (year : Z) : str := to_string year.

Record series : Type := mkSeries {
  monthly_income : smap;
  monthly_expense : smap;
  yearly_income : smap;
  yearly_expense : smap
}.

Definition series_step (acc : series) (t : Transaction) : series :=
  match parse_date t.(date) with
  | Some (year, month, _) =>
      if is_I t.(type) then
        mkSeries (map_add (month_key year month) t.(amount) acc.(monthly_income))
                 acc.(monthly_expense)
                 (map_add (year_key year) t.(amount) acc.(yearly_income))
                 acc.(yearly_expense)
      else
        mkSeries acc.(monthly_income)
                 (map_add (month_key year month) t.(amount) acc.(monthly_expense))
                 acc.(yearly_income)
                 (map_add (year_key year) t.(amount) acc.(yearly_expense))
  | None => acc
  end.

Definition series_of (l : list Transaction) : series :=
  fold_left series_step l (mkSeries [] [] [] []).

(** [operator<] on [pair<string, float>]. *)
Definition pair_ltb (a b : str * float) : bool :=
  str_ltb (fst a) (fst b)
  || (negb (str_ltb (fst b) (fst a)) && flt (snd a) (snd b)).

Fixpoint sort_insert (x : str * float) (l : list (str * float)) :=
  match l with
  | [] => [x]
  | y :: r => if pair_ltb y x then y :: sort_insert x r else x :: l
  end.

(** [std::sort] with [operator<]; the elements sorted here have pairwise
    different keys, so their sorted order is unique. *)
Definition sort (l : list (str * float)) : list (str * float) :=
  fold_right sort_insert [] l.

Record series_row : Type := mkSeriesRow {
  period : str;
  income : float;
  expense : float;
  net : float
}.

(** One summary of [draw_time_series_report]: a line for each entry of
    the sorted income vector, with the expense read from the map. *)
Fixpoint series_rows (sorted_income : list (str * float)) (expenses : smap)
  : list series_row :=
  match sorted_income with
  | [] => []
  | (key, inc) :: rest =>
      let (exp, expenses') := map_at key expenses in
      mkSeriesRow key inc exp (fsub inc exp) :: series_rows rest expenses'
  end.

(** [draw_time_series_report]: the monthly and the yearly lines. *)
Definition draw_time_series_report (user : UserProfile)
  : list series_row * list series_row :=
  let s := series_of user.(transactions) in
  (series_rows (sort s.(monthly_income)) s.(monthly_expense),
   series_rows (sort s.(yearly_income)) s.(yearly_expense)).

(* ================================================================== *)
(** ** Persistence: users.txt *)

Definition save_budget (e : str * float) : str :=
  fst e ++ lit ":" ++ print_float (snd e) ++ lit ",".

Definition save_transaction (t : Transaction) : str :=
  lit "TRANS|" ++ to_string t.(id) ++ lit "|" ++ t.(date) ++ lit "|"
    ++ t.(category) ++ lit "|" ++ t.(description) ++ lit "|"
    ++ print_float t.(amount) ++ lit "|" ++ [t.(type)] ++ [ch_nl].

Definition save_user (user : UserProfile) : str :=
  lit "USER|" ++ user.(username) ++ lit "|" ++ user.(password) ++ [ch_nl]
    ++ lit "NEXT_ID|" ++ to_string user.(next_transaction_id) ++ [ch_nl]
    ++ lit "BUDGETS|" ++ List.concat (map save_budget user.(budgetPerCategory))
    ++ [ch_nl]
    ++ List.concat (map save_transaction user.(transactions))
    ++ lit "ENDUSER" ++ [ch_nl].

(** [saveToFile]: the text written to users.txt once it is open. *)
Definition saveToFile (users : list UserProfile) : str :=
  List.concat (map save_user users).

(** The characters up to the first [delim], and those after it. *)
Fixpoint break_at (delim : ascii) (s : str) : str * str :=
  match s with
  | [] => ([], [])
  | c :: r =>
      if Ascii.eqb c delim then ([], r)
      else let (t, rest) := break_at delim r in (c :: t, rest)
  end.

(** [getline(is, token, delim)] on a stream holding [ss]: the token
    when the call succeeds, and the stream afterwards.  The call fails
    when nothing is left to extract; the delimiter is extracted and
    dropped.  A failed stream is one with nothing left. *)
Definition getline (ss : str) (delim : ascii) : option str * str :=
  match ss with
  | [] => (None, [])
  | _ => let (t, rest) := break_at delim ss in (Some t, rest)
  end.

(** [while (getline(is, token, delim)) parts.push_back(token);] *)
Fixpoint getline_loop (fuel : nat) (ss : str) (delim : ascii) : list str :=
  match fuel with
  | O => []
  | S f =>
      match getline ss delim with
      | (Some t, rest) => t :: getline_loop f rest delim
      | (None, _) => []
      end
  end.

Definition split (s : str) (delim : ascii) : list str :=
  getline_loop (S (List.length s)) s delim.

(** The loader's state: the vector [users] and [currentUser], a pointer
    to one of its elements, kept as that element's position. *)
Definition load_state : Type := list UserProfile * option nat.

Definition on_current (st : load_state) (f : UserProfile -> UserProfile)
  : load_state :=
  match snd st with
  | Some i => (update_at i f (fst st), snd st)
  | None => st
  end.

Definition set_credentials (u p : str) (user : UserProfile) : UserProfile :=
  mkUserProfile u p user.(transactions) user.(budgetPerCategory)
    user.(next_transaction_id).

Definition set_next_id (n : Z) (user : UserProfile) : UserProfile :=
  mkUserProfile user.(username) user.(password) user.(transactions)
    user.(budgetPerCategory) n.

Definition set_budgets (m : smap) (user : UserProfile) : UserProfile :=
  mkUserProfile user.(username) user.(password) user.(transactions)
    m user.(next_transaction_id).

Definition add_loaded (t : Transaction) (user : UserProfile) : UserProfile :=
  with_transactions user (user.(transactions) ++ [t]).

Definition or_default (o : option str) (d : str) : str :=
  match o with Some s => s | None => d end.

(** The [USER|] branch. *)
Definition load_user_line (users : list UserProfile) (line : str) : load_state :=
  let users1 := users ++ [new_profile] in
  let cur := List.length users in
  let (_, ss1) := getline line ch_pipe in
  let (u, ss2) := getline ss1 ch_pipe in
  let (p, _) := getline ss2 ch_pipe in
  (update_at cur
     (fun user => set_credentials (or_default u user.(username))
                                  (or_default p user.(password)) user)
     users1,
   Some cur).

(** One entry of a [BUDGETS|] line. *)
Definition load_budget_part (m : smap) (part : str) : result smap :=
  if is_empty part then Ok m else
  match find_char ch_colon part with
  | Some pos =>
      do val <- stof (substr_from (S pos) part);
      Ok (map_set (firstn pos part) val m)
  | None => Ok m
  end.

Fixpoint load_budget_parts (m : smap) (parts : list str) : result smap :=
  match parts with
  | [] => Ok m
  | part :: rest =>
      do m1 <- load_budget_part m part; load_budget_parts m1 rest
  end.

(** The [TRANS|] branch, once the line is split. *)
Definition load_trans_parts (parts : list str) : result (option Transaction) :=
  if Nat.eqb (List.length parts) 7 then
    do id_in <- stoi (nth 1 parts []);
    do amount_in <- stof (nth 5 parts []);
    Ok (Some (mkTransaction (nth 2 parts []) (nth 3 parts []) (nth 4 parts [])
                            amount_in (hd ch_nul (nth 6 parts [])) id_in))
  else Ok None.

Definition has_current (st : load_state) : bool :=
  match snd st with Some _ => true | None => false end.

Definition current_budgets (st : load_state) : smap :=
  match snd st with
  | Some i => (nth i (fst st) new_profile).(budgetPerCategory)
  | None => []
  end.

(** The body of the loader's loop for one line. *)
Definition load_line (st : load_state) (line : str) : result load_state :=
  if starts_with (lit "USER|") line then
    Ok (load_user_line (fst st) line)
  else if starts_with (lit "NEXT_ID|") line && has_current st then
    do n <- stoi (substr_from 8 line);
    Ok (on_current st (set_next_id n))
  else if starts_with (lit "BUDGETS|") line && has_current st then
    do m <- load_budget_parts (current_budgets st)
                              (split (substr_from 8 line) ch_comma);
    Ok (on_current st (set_budgets m))
  else if starts_with (lit "TRANS|") line && has_current st then
    do t <- load_trans_parts (split line ch_pipe);
    match t with
    | Some t' => Ok (on_current st (add_loaded t'))
    | None => Ok st
    end
  else if str_eqb line (lit "ENDUSER") then
    Ok (fst st, None)
  else Ok st.

Fixpoint load_lines (st : load_state) (lines : list str) : result load_state :=
  match lines with
  | [] => Ok st
  | line :: rest => do st1 <- load_line st line; load_lines st1 rest
  end.

(** The loop of [loadFromFile] over an open file holding [text]. *)
Definition load_text (text : str) : result (list UserProfile) :=
  do st <- load_lines ([], None) (split text ch_nl);
  Ok (fst st).

(** [loadFromFile]: [file] is the content of users.txt, [None] when it
    cannot be opened, in which case [users] is left as it is. *)
Definition loadFromFile (file : option str) (users : list UserProfile)
  : result (list UserProfile) :=
  match file with
  | None => Ok users
  | Some text => load_text text
  end.

(* ================================================================== *)
(** ** Definitions used to state the properties *)

(** *** Runs of the transaction store *)

Inductive store_op : Type :=
| OpAdd (date_in category_in description_in amount_str type_str : str)
| OpDelete (id_str : str).

Definition apply_op (user : UserProfile) (op : store_op) : UserProfile :=
  match op with
  | OpAdd d c ds a t => add_transaction_ui user d c ds a t
  | OpDelete i => edit_delete_transaction_ui user i Delete
  end.

Definition run_ops (user : UserProfile) (ops : list store_op) : UserProfile :=
  fold_left apply_op ops user.

(** The ids of the transactions a step appended. *)
Definition appended_ids (before after : UserProfile) : list Z :=
  map id (skipn (List.length before.(transactions)) after.(transactions)).

(** The ids assigned by the adds of a run, in the order of assignment. *)
Fixpoint issued_ids (user : UserProfile) (ops : list store_op) : list Z :=
  match ops with
  | [] => []
  | op :: rest =>
      match op with
      | OpAdd _ _ _ _ _ => appended_ids user (apply_op user op)
      | OpDelete _ => []
      end ++ issued_ids (apply_op user op) rest
  end.

Definition count_adds (ops : list store_op) : nat :=
  List.length (filter (fun op => match op with OpAdd _ _ _ _ _ => true
                                           | OpDelete _ => false end) ops).

(** *** Shapes of date texts *)

Definition blank (w : str) : Prop := forallb isspace w = true.

Definition all_digits (ds : str) : Prop := forallb isdigit ds = true.

(** The next character, if any, is not a digit. *)
Definition no_digit_ahead (r : str) : Prop :=
  match r with
  | c :: _ => isdigit c = false
  | [] => True
  end.

(** The next character, if any, is not white space. *)
Definition no_space_ahead (r : str) : Prop :=
  match r with
  | c :: _ => isspace c = false
  | [] => True
  end.

(** An optional sign followed by at least one digit. *)
Definition int_text (t : str) : Prop :=
  exists sg ds, t = sg ++ ds /\ (sg = [] \/ sg = [ch_dash] \/ sg = [ch_plus])
                /\ ds <> [] /\ all_digits ds.

(** The strict shape: the whole text is [<int>-<int>-<int>]. *)
Definition int_dash_int_dash_int (s : str) : Prop :=
  exists a b c, int_text a /\ int_text b /\ int_text c
                /\ s = a ++ [ch_dash] ++ b ++ [ch_dash] ++ c.

Definition sign_value (sg : str) (n : Z) : Z :=
  if str_eqb sg [ch_dash] then - n else n.

(** An [int] token with its value: an optional sign, at least one
    digit, and a value that fits an [int]. *)
Definition int_token (t : str) (v : Z) : Prop :=
  exists sg ds, t = sg ++ ds /\ (sg = [] \/ sg = [ch_dash] \/ sg = [ch_plus])
                /\ ds <> [] /\ all_digits ds
                /\ v = sign_value sg (digits_value ds)
                /\ INT_MIN <= v <= INT_MAX.

(** The shape the stream extractions accept: three [int] tokens with a
    ['-'] after the first and after the second, white space allowed
    before every token and separator, anything allowed after the third
    token (but no further digit, which would belong to it). *)
Definition lenient_date_form (s : str) (y m d : Z) : Prop :=
  exists w1 t1 w2 w3 t2 w4 w5 t3 rest,
    s = w1 ++ t1 ++ w2 ++ [ch_dash] ++ w3 ++ t2 ++ w4 ++ [ch_dash]
           ++ w5 ++ t3 ++ rest
    /\ blank w1 /\ blank w2 /\ blank w3 /\ blank w4 /\ blank w5
    /\ int_token t1 y /\ int_token t2 m /\ int_token t3 d
    /\ no_digit_ahead rest.

(** *** Registries the text format can hold *)

Definition lacks (c : ascii) (s : str) : bool :=
  forallb (fun x => negb (Ascii.eqb x c)) s.

(** A text that fits one field of a ['|']-separated line. *)
Definition field_ok (s : str) : bool := lacks ch_pipe s && lacks ch_nl s.

(** A category that fits one entry of a [BUDGETS|] line. *)
Definition budget_key_ok (s : str) : bool :=
  lacks ch_colon s && lacks ch_comma s && lacks ch_nl s.

Definition float_eqb (a b : float) : bool :=
  match a, b with
  | F754_zero s1, F754_zero s2 => Bool.eqb s1 s2
  | F754_infinity s1, F754_infinity s2 => Bool.eqb s1 s2
  | F754_nan s1, F754_nan s2 => Bool.eqb s1 s2
  | F754_finite s1 m1 e1, F754_finite s2 m2 e2 =>
      Bool.eqb s1 s2 && Pos.eqb m1 m2 && Z.eqb e1 e2
  | _, _ => false
  end.

(** An amount that survives being written with six significant digits
    and read back. *)
Definition float_ok (a : float) : bool :=
  match stof (print_float a) with
  | Ok b => float_eqb a b
  | Throw _ => false
  end.

Definition transaction_ok (t : Transaction) : bool :=
  field_ok t.(date) && field_ok t.(category) && field_ok t.(description)
  && float_ok t.(amount)
  && negb (Ascii.eqb t.(type) ch_pipe) && negb (Ascii.eqb t.(type) ch_nl)
  && in_int t.(id).

Definition budget_ok (e : str * float) : bool :=
  budget_key_ok (fst e) && float_ok (snd e).

(** The keys of a [std::map] are strictly increasing. *)
Fixpoint map_sorted (m : smap) : bool :=
  match m with
  | [] => true
  | (k, _) :: r => forallb (fun e => str_ltb k (fst e)) r && map_sorted r
  end.

Definition profile_ok (u : UserProfile) : bool :=
  field_ok u.(username) && field_ok u.(password)
  && in_int u.(next_transaction_id)
  && map_sorted u.(budgetPerCategory)
  && forallb budget_ok u.(budgetPerCategory)
  && forallb transaction_ok u.(transactions).

Definition registry_ok (r : list UserProfile) : bool := forallb profile_ok r.

(** *** Sums of amounts *)

(** The float sum of a list, added from the left onto [z]. *)
Definition fsum_from (z : float) (l : list float) : float := fold_left fadd l z.

(** *** What a report accumulates *)

Section Accumulate.
Context {A : Type}.

(** [entry x] is the key and amount [x] contributes, if any. *)
Variable entry : A -> option (str * float).

(** The loop [for (x : l) m[key] += amount]. *)
Definition accumulate (l : list A) (m : smap) : smap :=
  fold_left (fun m x => match entry x with
                        | Some (k, a) => map_add k a m
                        | None => m
                        end) l m.

(** The amounts contributed to key [k], in the order of [l]. *)
Definition amounts_for (k : str) (l : list A) : list float :=
  flat_map (fun x => match entry x with
                     | Some (k', a) => if str_eqb k' k then [a] else []
                     | None => []
                     end) l.
End Accumulate.

(** The contribution of a transaction to the expenses by category. *)
Definition expense_entry (t : Transaction) : option (str * float) :=
  if is_E t.(type) then Some (t.(category), t.(amount)) else None.

(** The contribution of a transaction to a map of the time series:
    [income_side] selects the income maps (kind ['I']) or the expense
    maps (every other kind); [key] is the month or the year key. *)
Definition series_entry (income_side : bool) (key : Z -> Z -> str)
    (t : Transaction) : option (str * float) :=
  match parse_date t.(date) with
  | Some (year, month, _) =>
      if Bool.eqb (is_I t.(type)) income_side
      then Some (key year month, t.(amount)) else None
  | None => None
  end.

(** *** Frame of an edit *)

(** What an edit may do to a transaction: the id stays, a field whose
    box was left empty stays, and a field changes only to what its box
    supplied (an amount that parses, a kind that is I or E). *)
Definition edited_from (nd nc ndesc na nt : str) (t t' : Transaction) : Prop :=
  t'.(id) = t.(id)
  /\ (t'.(date) = if is_empty nd then t.(date) else nd)
  /\ (t'.(category) = if is_empty nc then t.(category) else nc)
  /\ (t'.(description) = if is_empty ndesc then t.(description) else ndesc)
  /\ (na = [] -> t'.(amount) = t.(amount))
  /\ (t'.(amount) = t.(amount) \/ (na <> [] /\ stof na = Ok t'.(amount)))
  /\ (nt = [] -> t'.(type) = t.(type))
  /\ (t'.(type) = t.(type)
      \/ exists x r, nt = x :: r /\ t'.(type) = toupper x
                     /\ (toupper x = "I"%char \/ toupper x = "E"%char)).

(** *** Example ledgers *)

(** A ledger with an entry of the unknown kind ['X'], as read from a
    file. *)
Definition odd_kind_file : str :=
  lit "USER|ann|pw" ++ [ch_nl]
  ++ lit "TRANS|1|2024-01-15|Salary|pay|100|I" ++ [ch_nl]
  ++ lit "TRANS|2|2024-01-20|Food|lunch|30|X" ++ [ch_nl]
  ++ lit "ENDUSER" ++ [ch_nl].

Definition odd_kind_ledger : list Transaction :=
  [mkTransaction (lit "2024-01-15") (lit "Salary") (lit "pay")
                 (float_of_Z 100) "I"%char 1;
   mkTransaction (lit "2024-01-20") (lit "Food") (lit "lunch")
                 (float_of_Z 30) "X"%char 2].


(** *** Files given line by line *)

(** The text whose lines are [ls], each ended by a newline. *)
Definition unlines (ls : list str) : str :=
  List.concat (map (fun l => l ++ [ch_nl]) ls).

(** *** Fields of a line *)

Definition count_char (c : ascii) (s : str) : nat :=
  List.length (filter (Ascii.eqb c) s).

Fixpoint ends_with (c : ascii) (s : str) : bool :=
  match s with
  | [] => false
  | [x] => Ascii.eqb x c
  | _ :: r => ends_with c r
  end.

(** The number of fields of a line after its tag: the texts that the
    ['|'] of the line delimit after the first, where a ['|'] that ends
    the line closes the last field and opens no other. *)
Definition fields_after_tag (line : str) : nat :=
  (count_char ch_pipe line - if ends_with ch_pipe line then 1 else 0)%nat.


(** The lines before it in an example file, and the text after it:
    together they are the file written for two profiles. *)
Definition lines_before : list str :=
  [lit "USER|ann|pw"; lit "NEXT_ID|4"; lit "BUDGETS|Food:20,Rent:750.5,";
   lit "TRANS|1|2024-01-15|Salary|pay|1000|I"].

Definition text_after : str :=
  unlines [lit "TRANS|2|2024-01-20|Food|lunch|18|E";
           lit "TRANS|3|2024-02-03|Food|tea|0.25|E"; lit "ENDUSER";
           lit "USER|bob|b"; lit "NEXT_ID|1"; lit "BUDGETS|"; lit "ENDUSER"].

(** *** A long run *)

(** An add whose five texts are accepted. *)
Definition one_unit_add : store_op :=
  OpAdd (lit "2024-01-01") (lit "Misc") (lit "unit") (lit "1") (lit "I").

(** [INT_MAX] such adds in a row. *)
Definition int_max_adds : list store_op := repeat one_unit_add (Z.to_nat INT_MAX).

(** *** Texts of numbers *)

(** One step of reading a decimal number. *)
Definition digits_step (acc : Z) (c : ascii) : Z := acc * 10 + digit_val c.

(** Characters of a number's text. *)
Definition numeric_char (c : ascii) : bool :=
  isdigit c || existsb (Ascii.eqb c) (lit ".e+-infa").

(** One entry of a [BUDGETS|] line, without the comma that ends it. *)
Definition budget_part (e : str * float) : str :=
  fst e ++ lit ":" ++ print_float (snd e).

(** A [TRANS|] line, without the newline that ends it. *)
Definition trans_line (t : Transaction) : str :=
  lit "TRANS|" ++ to_string t.(id) ++ lit "|" ++ t.(date) ++ lit "|"
    ++ t.(category) ++ lit "|" ++ t.(description) ++ lit "|"
    ++ print_float t.(amount) ++ lit "|" ++ [t.(type)].

(** The parts separated by [d], each followed by [d]. *)
Definition joined (d : ascii) (ls : list str) : str :=
  List.concat (map (fun l => l ++ [d]) ls).

(** The lines [saveToFile] writes for one profile. *)
Definition user_lines (u : UserProfile) : list str :=
  [lit "USER|" ++ u.(username) ++ lit "|" ++ u.(password);
   lit "NEXT_ID|" ++ to_string u.(next_transaction_id);
   lit "BUDGETS|" ++ joined ch_comma (map budget_part u.(budgetPerCategory))]
  ++ map trans_line u.(transactions) ++ [lit "ENDUSER"].

(** A profile made through the input boxes: a budget, an income and
    two expenses. *)
Definition sample_user : UserProfile :=
  add_transaction_ui
    (add_transaction_ui
       (add_transaction_ui
          (set_budget_ui
             (set_budget_ui (fresh_profile (lit "ann") (lit "pw"))
                            (lit "Rent") (lit "750.5"))
             (lit "Food") (lit "20"))
          (lit "2024-01-15") (lit "Salary") (lit "pay") (lit "1e3") (lit "i"))
       (lit "2024-01-20") (lit "Food") (lit "lunch") (lit "18") (lit "E"))
    (lit "2024-02-03") (lit "Food") (lit "tea") (lit "0.25") (lit "e").

(** A profile whose only transaction has a ['|'] in its description. *)
Definition piped_user : UserProfile :=
  add_transaction_ui (fresh_profile (lit "ann") (lit "pw"))
    (lit "2024-01-20") (lit "Food") (lit "tea|cake") (lit "4") (lit "E").

(** A file whose [NEXT_ID] line does not hold a number. *)
Definition bad_next_id_file : str :=
  lit "USER|a|b" ++ [ch_nl] ++ lit "NEXT_ID|x" ++ [ch_nl].

(** A file with a [TRANS] line whose amount is not a number. *)
Definition bad_amount_file : str :=
  lit "USER|a|b" ++ [ch_nl]
  ++ lit "TRANS|1|2024-01-20|Food|lunch|12,5|E" ++ [ch_nl]
  ++ lit "TRANS|2|2024-01-21|Food|tea|abc|E" ++ [ch_nl]
  ++ lit "ENDUSER" ++ [ch_nl].

(** A profile whose only transaction is an expense. *)
Definition expense_only_user : UserProfile :=
  add_transaction_ui (fresh_profile (lit "ann") (lit "pw"))
    (lit "2024-01-20") (lit "Food") (lit "lunch") (lit "40") (lit "E").

(** A profile that has spent 18 of a budget of 20. *)
Definition near_budget_user : UserProfile :=
  add_transaction_ui
    (set_budget_ui (fresh_profile (lit "ann") (lit "pw")) (lit "Food") (lit "20"))
    (lit "2024-01-20") (lit "Food") (lit "lunch") (lit "18") (lit "E").

(** The line of the budget report for one entry of the budget map,
    given what was spent by category. *)
Definition budget_row_of (spent_on : str -> float) (e : str * float) : budget_row :=
  mkBudgetRow (fst e) (snd e) (spent_on (fst e))
              (budget_color (spent_on (fst e)) (snd e)).

(** The amount read from the text 12345.67. *)
Definition cents_amount : float :=
  match stof (lit "12345.67") with
  | Ok a => a
  | Throw _ => fzero
  end.

(* ================================================================== *)
(** ** The rest of the program *)

(** *** [format_amount] *)

(** [%.2f] of a positive fraction. *)
Definition print_fixed2 (n d : Z) : str :=
  let q := round_half_even (n * 100) d in
  to_string (q / 100)
    ++ ch_dot :: [digit_char (q / 10 mod 10); digit_char (q mod 10)].

(** [format_amount]: [oss << fixed << setprecision(2) << amount]. *)
Definition format_amount (amount : float) : str :=
  match amount with
  | F754_nan s => sign_text s ++ lit "nan"
  | F754_infinity s => sign_text s ++ lit "inf"
  | F754_zero s => sign_text s ++ lit "0.00"
  | F754_finite s m e =>
      let (n, d) := ratio2 (Zpos m) e in sign_text s ++ print_fixed2 n d
  end.

(** *** [draw_transactions] *)

(** The text of one line of the list. *)
Definition transaction_text (t : Transaction) : str :=
  to_string t.(id) ++ lit " | " ++ t.(date) ++ lit " | " ++ t.(category)
    ++ lit " | " ++ firstn 25 t.(description)
    ++ (if Nat.ltb 25 (List.length t.(description)) then lit "..." else [])
    ++ lit " | " ++ (if is_I t.(type) then lit "Income" else lit "Expense")
    ++ lit " | $" ++ format_amount t.(amount).

(** The loop of [draw_transactions]: [y] is where the next line goes and
    [screen_height] what [screen_height()] returns.  The result is the
    lines drawn, and whether the notice of more transactions was. *)
Fixpoint draw_transactions_loop (screen_height : Z) (categoryFilter : str)
    (l : list Transaction) (y : Z) : list str * bool :=
  match l with
  | [] => ([], false)
  | t :: rest =>
      if negb (is_empty categoryFilter)
         && negb (str_eqb t.(category) categoryFilter)
      then draw_transactions_loop screen_height categoryFilter rest y
      else
        let y' := wrap32 (y + 25) in
        if screen_height - 80 <? y' then ([transaction_text t], true)
        else
          let (lines, more) :=
            draw_transactions_loop screen_height categoryFilter rest y' in
          (transaction_text t :: lines, more)
  end.

(** [draw_transactions]: the header takes [y] from 60 to 95. *)
Definition draw_transactions (screen_height : Z) (l : list Transaction)
    (categoryFilter : str) : list str * bool :=
  draw_transactions_loop screen_height categoryFilter l (60 + 25 + 10).

(** *** Authentication and the main loop *)

(** The globals [g_users] and [g_current_user] (a pointer to an element
    of [g_users], kept as its position), and the content of users.txt
    as a reader finds it ([None] when it cannot be opened). *)
Record app_state : Type := mkApp {
  g_users : list UserProfile;
  g_current_user : option nat;
  users_txt : option str
}.

(** [saveToFile(users)] on the file system, where [file] is the content
    of users.txt and [opens] tells whether it can be opened for
    writing.  When it can, it holds the text of [saveToFile]
    afterwards; when it cannot, a line is written to the terminal and
    the file is left as it is. *)
Definition saveToFile_io (opens : bool) (users : list UserProfile)
    (file : option str) : option str :=
  if opens then Some (saveToFile users) else file.

(** What the user does on the welcome screen: a button and the two
    texts then typed. *)
Inductive auth_action : Type :=
| LoginButton (username_input password_input : str)
| RegisterButton (username_input password_input : str)
| ExitButton.

(** [handle_user_authentication]: the state afterwards and the value
    returned; [opens] tells whether users.txt can be opened for writing
    when the new profile is saved. *)
Definition handle_user_authentication (st : app_state) (a : auth_action)
    (opens : bool) : app_state * bool :=
  match a with
  | LoginButton u p =>
      if is_empty u then (st, false) else
      if is_empty p then (st, false) else
      match find_if (fun x => str_eqb x.(username) u) st.(g_users) with
      | Some it =>
          if str_eqb (nth it st.(g_users) new_profile).(password) p
          then (mkApp st.(g_users) (Some it) st.(users_txt), true)
          else (st, false)
      | None => (st, false)
      end
  | RegisterButton u p =>
      if is_empty u then (st, false) else
      if is_empty p then (st, false) else
      match find_if (fun x => str_eqb x.(username) u) st.(g_users) with
      | Some _ => (st, false)
      | None =>
          let users := st.(g_users) ++ [fresh_profile u p] in
          (mkApp users (Some (List.length st.(g_users)))
                 (saveToFile_io opens users st.(users_txt)), true)
      end
  | ExitButton => (st, false)
  end.

(** What the user does on the menu: a button and the texts then typed. *)
Inductive menu_action : Type :=
| AddTransaction (date_in category_in description_in amount_str type_str : str)
| ViewAll
| EditDelete (id_str : str) (b : button)
| ShowSummary
| BudgetReport
| SetBudget (category_in amount_str : str)
| TimeSeriesReport
| Logout
| ExitApp
| NoButton.

(** One turn of the loop of [main]: on the welcome screen an
    [auth_action], on the menu a [menu_action]. *)
Inductive turn : Type :=
| OnWelcome (a : auth_action)
| OnMenu (m : menu_action).

(** One pass of the loop of [main]: what the user does, and whether
    users.txt can be opened for writing should the pass save. *)
Definition pass : Type := (turn * bool)%type.

(** Turns during which users.txt can be written. *)
Definition writable (turns : list turn) : list pass :=
  map (fun t => (t, true)) turns.

(** [saveToFile(g_users)]. *)
Definition save_users (opens : bool) (st : app_state) : app_state :=
  mkApp st.(g_users) st.(g_current_user)
        (saveToFile_io opens st.(g_users) st.(users_txt)).

Definition on_user (st : app_state) (i : nat) (f : UserProfile -> UserProfile)
  : app_state :=
  mkApp (update_at i f st.(g_users)) st.(g_current_user) st.(users_txt).

(** The body of the loop: the state afterwards, and whether the loop
    goes on ([false] after a [break]).  A turn for the other screen
    than the one shown clicks nothing and changes nothing. *)
Definition main_turn (st : app_state) (p : pass) : app_state * bool :=
  let (t, opens) := p in
  match st.(g_current_user) with
  | None =>
      match t with
      | OnWelcome a => handle_user_authentication st a opens
      | OnMenu _ => (st, true)
      end
  | Some i =>
      match t with
      | OnMenu (AddTransaction d c ds a ty) =>
          (save_users opens
             (on_user st i (fun u => add_transaction_ui u d c ds a ty)), true)
      | OnMenu (EditDelete s b) =>
          (save_users opens
             (on_user st i (fun u => edit_delete_transaction_ui u s b)), true)
      | OnMenu (SetBudget c a) =>
          (save_users opens (on_user st i (fun u => set_budget_ui u c a)), true)
      | OnMenu Logout => (mkApp st.(g_users) None st.(users_txt), true)
      | OnMenu ExitApp => (st, false)
      | _ => (st, true)
      end
  end.

(** The loop of [main] over the passes taken; it ends at a [break], or
    when the passes end (the window is closed). *)
Fixpoint main_loop (st : app_state) (passes : list pass) : app_state :=
  match passes with
  | [] => st
  | p :: rest =>
      let (st1, go_on) := main_turn st p in
      if go_on then main_loop st1 rest else st1
  end.

(** [main]: load users.txt, run the loop, save; [opens_at_exit] tells
    whether users.txt can be opened for writing at this last save. *)
Definition main (file : option str) (passes : list pass) (opens_at_exit : bool)
  : result app_state :=
  do users <- loadFromFile file [];
  Ok (save_users opens_at_exit (main_loop (mkApp users None file) passes)).

(** *** What the lines of a time-series summary are *)

(** [rows] are the lines for the ledger [l] under the period key
    [key]: strictly increasing periods; a line for each period that has
    an income entry and for no other; in each line the float sums of
    the period's income and other entries, and their difference. *)
Definition lines_of_periods (key : Z -> Z -> str) (l : list Transaction)
    (rows : list series_row) : Prop :=
  StronglySorted (fun a b => str_ltb a b = true) (map period rows)
  /\ (forall row, In row rows ->
        let earned := amounts_for (series_entry true key) row.(period) l in
        let spent := amounts_for (series_entry false key) row.(period) l in
        earned <> []
        /\ row.(income) = fsum_from fzero earned
        /\ row.(expense) = fsum_from fzero spent
        /\ row.(net) = fsub row.(income) row.(expense))
  /\ (forall k, amounts_for (series_entry true key) k l <> [] ->
        exists row, In row rows /\ row.(period) = k).

(** *** The page of [draw_transactions] *)

(** The number of lines that fit under the header of a window of height
    [h]: the lines are 25 apart from 95 on, and the last one drawn is
    the first to leave less than 80 under it. *)
Definition page_size (screen_height : Z) : nat :=
  Z.to_nat (Z.max 1 ((screen_height - 175) / 25 + 1)).

(** What the category filter lets through. *)
Definition passes_filter (categoryFilter : str) (t : Transaction) : bool :=
  is_empty categoryFilter || str_eqb t.(category) categoryFilter.

(** *** What a session keeps true *)

(** A transaction as the input boxes let one be entered: no empty text,
    and a kind that is [I] or [E]. *)
Definition transaction_entered (t : Transaction) : bool :=
  negb (is_empty t.(date)) && negb (is_empty t.(category))
  && negb (is_empty t.(description)) && (is_I t.(type) || is_E t.(type)).

Definition profile_entered (u : UserProfile) : bool :=
  negb (is_empty u.(username)) && negb (is_empty u.(password))
  && forallb transaction_entered u.(transactions)
  && forallb (fun e => negb (is_empty (fst e))) u.(budgetPerCategory)
  && map_sorted u.(budgetPerCategory).

Definition session_ok (st : app_state) : Prop :=
  NoDup (map username st.(g_users))
  /\ forallb profile_entered st.(g_users) = true
  /\ (forall i, st.(g_current_user) = Some i -> (i < List.length st.(g_users))%nat).

(** The ids of a profile are pairwise different and lie from 1 up to
    the counter. *)
Definition ids_ok (u : UserProfile) : Prop :=
  NoDup (map id u.(transactions))
  /\ 1 <= u.(next_transaction_id)
  /\ forall t, In t u.(transactions) -> 1 <= t.(id) < u.(next_transaction_id).

Definition credentials (u : UserProfile) : str * str :=
  (u.(username), u.(password)).

Definition is_logout (m : menu_action) : bool :=
  match m with Logout => true | _ => false end.

(** The three operations of the menu that change a profile. *)
Inductive menu_change : (UserProfile -> UserProfile) -> Prop :=
| change_add d c ds a ty :
    menu_change (fun u => add_transaction_ui u d c ds a ty)
| change_edit_delete s b :
    menu_change (fun u => edit_delete_transaction_ui u s b)
| change_set_budget c a :
    menu_change (fun u => set_budget_ui u c a).

(** *** Lines of users.txt *)

Definition is_user_line (line : str) : bool := starts_with (lit "USER|") line.

(** *** The budget report *)

Definition is_red (c : color) : bool :=
  match c with COLOR_RED => true | _ => false end.

(** *** [get_text_input] *)








(** *** Tactics *)

(** Case analysis on every integer comparison of the goal; what is left
    is closed by computation or by linear arithmetic. *)
Ltac compare_cases :=
  repeat match goal with
         | |- context [Z.compare ?a ?b] => destruct (Z.compare_spec a b)
         end;
  try reflexivity; exfalso; lia.

(* ================================================================== *)
(** * Properties *)

(** ** Characters and strings *)

Lemma ascii_eqb_eq (a b : ascii) : Ascii.eqb a b = true <-> a = b.
Proof. apply Ascii.eqb_eq. Qed.

Lemma ascii_eqb_neq (a b : ascii) : Ascii.eqb a b = false <-> a <> b.
Proof. apply Ascii.eqb_neq. Qed.

Lemma code_inj (a b : ascii) : code a = code b -> a = b.
Proof.
  unfold code. intros H. apply N2Z.inj in H.
  rewrite <- (ascii_N_embedding a), <- (ascii_N_embedding b). now rewrite H.
Qed.

Lemma str_eqb_eq (a b : str) : str_eqb a b = true <-> a = b.
Proof.
  revert b. induction a as [|x a IH]; intros [|y b]; simpl; split; intros H;
    try reflexivity; try discriminate.
  - apply andb_true_iff in H as [H1 H2]. apply ascii_eqb_eq in H1.
    apply IH in H2. now subst.
  - injection H as -> ->. rewrite Ascii.eqb_refl. simpl. now apply IH.
Qed.

Lemma str_eqb_refl (a : str) : str_eqb a a = true.
Proof. now apply str_eqb_eq. Qed.

Lemma str_compare_eq (a b : str) : str_compare a b = Eq <-> a = b.
Proof.
  revert b. induction a as [|x a IH]; intros [|y b]; simpl; split; intros H;
    try reflexivity; try discriminate.
  - destruct (Z.compare_spec (code x) (code y)) as [E|E|E]; try discriminate.
    apply code_inj in E. apply IH in H. now subst.
  - injection H as -> ->. rewrite Z.compare_refl. now apply IH.
Qed.

Lemma str_compare_refl (a : str) : str_compare a a = Eq.
Proof. now apply str_compare_eq. Qed.

Lemma str_compare_lt_trans (a b c : str) :
  str_compare a b = Lt -> str_compare b c = Lt -> str_compare a c = Lt.
Proof.
  revert b c. induction a as [|x a IH]; intros [|y b] [|z c]; simpl;
    try discriminate; try reflexivity.
  destruct (Z.compare_spec (code x) (code y)) as [E1|E1|E1]; try discriminate;
  destruct (Z.compare_spec (code y) (code z)) as [E2|E2|E2]; try discriminate;
  intros H1 H2.
  - rewrite E1, E2, Z.compare_refl. eauto.
  - rewrite E1. apply Z.compare_lt_iff in E2. now rewrite E2.
  - rewrite <- E2. apply Z.compare_lt_iff in E1. now rewrite E1.
  - assert (E : code x < code z) by lia. apply Z.compare_lt_iff in E. now rewrite E.
Qed.

Lemma str_compare_antisym (a b : str) :
  str_compare b a = CompOpp (str_compare a b).
Proof.
  revert b. induction a as [|x a IH]; intros [|y b]; simpl; try reflexivity.
  rewrite (Z.compare_antisym (code x) (code y)).
  destruct (code x ?= code y); simpl; auto.
Qed.

(** ** The map *)

Lemma map_find_update_same (k : str) (f : float -> float) (m : smap) :
  map_find k (map_update k f m) = Some (f (map_get k m)).
Proof.
  unfold map_get. induction m as [|[k' v] r IH]; simpl.
  - now rewrite str_compare_refl.
  - destruct (str_compare k k') eqn:E; simpl.
    + now rewrite E.
    + now rewrite str_compare_refl.
    + now rewrite E.
Qed.

Lemma map_find_update_other (k k2 : str) (f : float -> float) (m : smap) :
  k2 <> k -> map_find k2 (map_update k f m) = map_find k2 m.
Proof.
  intros N. induction m as [|[k' v] r IH]; simpl.
  - destruct (str_compare k2 k) eqn:E; auto. now apply str_compare_eq in E.
  - destruct (str_compare k k') eqn:E; simpl.
    + apply str_compare_eq in E. subst k'.
      destruct (str_compare k2 k) eqn:E2; auto. now apply str_compare_eq in E2.
    + destruct (str_compare k2 k) eqn:E2.
      * now apply str_compare_eq in E2.
      * now rewrite (str_compare_lt_trans _ _ _ E2 E).
      * reflexivity.
    + destruct (str_compare k2 k'); auto.
Qed.

Lemma map_get_update_same k f m : map_get k (map_update k f m) = f (map_get k m).
Proof. unfold map_get at 1. now rewrite map_find_update_same. Qed.

Lemma map_get_update_other k k2 f m :
  k2 <> k -> map_get k2 (map_update k f m) = map_get k2 m.
Proof. intros N. unfold map_get. now rewrite map_find_update_other. Qed.

Section AccumulateFacts.
Context {A : Type}.
Variable entry : A -> option (str * float).

Lemma map_get_accumulate (k : str) (l : list A) (m : smap) :
  map_get k (accumulate entry l m)
  = fsum_from (map_get k m) (amounts_for entry k l).
Proof.
  unfold accumulate, fsum_from. revert m.
  induction l as [|x l IH]; intros m; simpl; [reflexivity|].
  rewrite IH. destruct (entry x) as [[k' a]|]; [|reflexivity].
  destruct (str_eqb k' k) eqn:E.
  - apply str_eqb_eq in E. subst k'. simpl. unfold map_add.
    now rewrite map_get_update_same.
  - simpl. unfold map_add. rewrite map_get_update_other; [reflexivity|].
    intros ->. now rewrite str_eqb_refl in E.
Qed.
End AccumulateFacts.

Lemma calculateExpensesByCategory_accumulate (l : list Transaction) :
  calculateExpensesByCategory l = accumulate expense_entry l [].
Proof.
  unfold calculateExpensesByCategory, accumulate. generalize (@nil (str * float)).
  induction l as [|t l IH]; intros m; simpl; [reflexivity|].
  rewrite IH. unfold expense_entry. now destruct (is_E (type t)).
Qed.

(** ** Reports *)

Lemma series_of_maps (l : list Transaction) (s : series) :
  let r := fold_left series_step l s in
  monthly_income r = accumulate (series_entry true month_key) l (monthly_income s)
  /\ monthly_expense r = accumulate (series_entry false month_key) l (monthly_expense s)
  /\ yearly_income r = accumulate (series_entry true (fun y _ => year_key y)) l (yearly_income s)
  /\ yearly_expense r = accumulate (series_entry false (fun y _ => year_key y)) l (yearly_expense s).
Proof.
  revert s. induction l as [|t l IH]; intros s; simpl; [auto|].
  destruct (IH (series_step s t)) as (H1 & H2 & H3 & H4).
  rewrite H1, H2, H3, H4. unfold accumulate at 5 6 7 8. simpl.
  unfold series_step, series_entry.
  destruct (parse_date (date t)) as [[[y m] d]|]; [|auto].
  destruct (is_I (type t)); simpl; auto.
Qed.

Lemma summary_totals (l : list Transaction) (inc exp : float) :
  fold_left summary_step l (inc, exp)
  = (fsum_from inc (map amount (filter (fun t => is_I t.(type)) l)),
     fsum_from exp (map amount (filter (fun t => is_E t.(type)) l))).
Proof.
  unfold fsum_from. revert inc exp.
  induction l as [|t l IH]; intros inc exp; simpl; [reflexivity|].
  destruct (is_I (type t)) eqn:EI.
  - assert (EE : is_E (type t) = false).
    { unfold is_I, is_E in *. apply ascii_eqb_eq in EI. now rewrite EI. }
    rewrite EE. simpl. apply IH.
  - destruct (is_E (type t)); simpl; apply IH.
Qed.

(** C9. The time series adds every dated transaction whose kind is not
    ['I'] to the expense maps, the summary adds only kind ['E'] to the
    expense total and leaves other kinds out of both totals; on a ledger
    loaded with a kind ['X'] entry the two reports disagree about it. *)
Theorem time_series_and_summary_classify_differently :
  (forall (l : list Transaction) (k : str),
      map_get k (monthly_expense (series_of l))
      = fsum_from fzero (amounts_for (series_entry false month_key) k l)
      /\ map_get k (yearly_expense (series_of l))
         = fsum_from fzero
             (amounts_for (series_entry false (fun y _ => year_key y)) k l))
  /\ (forall (l : list Transaction),
         draw_summary l
         = (let i := fsum_from fzero (map amount (filter (fun t => is_I t.(type)) l)) in
            let e := fsum_from fzero (map amount (filter (fun t => is_E t.(type)) l)) in
            (i, e, fsub i e)))
  /\ (forall u, loadFromFile (Some odd_kind_file) u
                = Ok [mkUserProfile (lit "ann") (lit "pw") odd_kind_ledger [] 1])
  /\ (forall name pw b n,
         fst (draw_time_series_report (mkUserProfile name pw odd_kind_ledger b n))
         = [mkSeriesRow (lit "2024-01") (float_of_Z 100) (float_of_Z 30)
                        (float_of_Z 70)])
  /\ draw_summary odd_kind_ledger = (float_of_Z 100, float_of_Z 0, float_of_Z 100).
Proof.
  split; [|split; [|split; [|split]]].
  - intros l k. unfold series_of.
    destruct (series_of_maps l (mkSeries [] [] [] [])) as (_ & H2 & _ & H4).
    cbv zeta in H2, H4. rewrite H2, H4. simpl.
    rewrite !map_get_accumulate. auto.
  - intros l. unfold draw_summary. rewrite summary_totals. reflexivity.
  - intros u. vm_compute. reflexivity.
  - intros. vm_compute. reflexivity.
  - vm_compute. reflexivity.
Qed.

(** ** Editing a transaction *)

Lemma update_at_map_id {A B} (g : A -> B) (f : A -> A) (i : nat) (l : list A) :
  (forall x, g (f x) = g x) -> map g (update_at i f l) = map g l.
Proof.
  intros H. revert i. induction l as [|x l IH]; intros [|i]; simpl;
    rewrite ?H, ?IH; reflexivity.
Qed.

Lemma update_at_nth_error {A} (f : A -> A) (i j : nat) (l : list A) :
  nth_error (update_at i f l) j
  = if Nat.eqb i j then option_map f (nth_error l j) else nth_error l j.
Proof.
  revert i j. induction l as [|x l IH]; intros [|i] [|j]; simpl; auto.
  - now destruct (Nat.eqb _ _).
Qed.

Lemma find_if_nth_error {A} (p : A -> bool) (l : list A) (i : nat) :
  find_if p l = Some i ->
  exists x, nth_error l i = Some x /\ p x = true
            /\ forall j y, (j < i)%nat -> nth_error l j = Some y -> p y = false.
Proof.
  revert i. induction l as [|x l IH]; intros i; simpl; [discriminate|].
  destruct (p x) eqn:E.
  - intros [= <-]. exists x. repeat split; auto. intros j y Hj. lia.
  - destruct (find_if p l) as [k|]; simpl; [|discriminate].
    intros [= <-]. destruct (IH k eq_refl) as (y & H1 & H2 & H3).
    exists y. repeat split; auto. intros [|j] z Hj; simpl.
    + now intros [= <-].
    + apply H3. lia.
Qed.

Lemma edit_transaction_edited (nd nc ndesc na nt : str) (t : Transaction) :
  edited_from nd nc ndesc na nt t (edit_transaction nd nc ndesc na nt t).
Proof.
  unfold edited_from, edit_transaction. simpl.
  repeat split; auto.
  - now intros ->.
  - destruct na as [|c na']; simpl; [now left|].
    destruct (stof (c :: na')) as [v|e] eqn:E; [right|now left].
    split; [discriminate|reflexivity].
  - now intros ->.
  - destruct nt as [|x r]; [now left|].
    destruct (is_I (toupper x)) eqn:EI; simpl.
    + right. exists x, r. repeat split. left. now apply ascii_eqb_eq.
    + destruct (is_E (toupper x)) eqn:EE; [|now left].
      right. exists x, r. repeat split. right. now apply ascii_eqb_eq.
Qed.

(** C8. Editing a transaction chosen by its id keeps the ids of the
    store, in their order, and everything of the profile besides the
    transactions; every transaction is either untouched or the one
    found, whose id stays, whose fields with an empty box stay, and
    whose other fields change only to a supplied valid value. *)
Theorem edit_keeps_id_and_unsupplied_fields :
  forall (user : UserProfile) (id_str nd nc ndesc na nt : str),
    let user' := edit_delete_transaction_ui user id_str (Edit nd nc ndesc na nt) in
    map id user'.(transactions) = map id user.(transactions)
    /\ List.length user'.(transactions) = List.length user.(transactions)
    /\ user'.(username) = user.(username)
    /\ user'.(password) = user.(password)
    /\ user'.(budgetPerCategory) = user.(budgetPerCategory)
    /\ user'.(next_transaction_id) = user.(next_transaction_id)
    /\ forall i t, nth_error user.(transactions) i = Some t ->
         exists t', nth_error user'.(transactions) i = Some t'
                    /\ (t' = t
                        \/ (stoi id_str = Ok t.(id)
                            /\ edited_from nd nc ndesc na nt t t')).
Proof.
  intros user id_str nd nc ndesc na nt user'.
  assert (Hmap : map id (transactions user') = map id (transactions user)
                 /\ username user' = username user
                 /\ password user' = password user
                 /\ budgetPerCategory user' = budgetPerCategory user
                 /\ next_transaction_id user' = next_transaction_id user
                 /\ forall i t, nth_error user.(transactions) i = Some t ->
         exists t', nth_error user'.(transactions) i = Some t'
                    /\ (t' = t
                        \/ (stoi id_str = Ok t.(id)
                            /\ edited_from nd nc ndesc na nt t t'))).
  { subst user'. unfold edit_delete_transaction_ui.
    destruct (is_empty id_str); [repeat split; eauto|].
    destruct (stoi id_str) as [id_to_find|e] eqn:Es; [|repeat split; eauto].
    destruct (find_if _ _) as [it|] eqn:Ef; [|repeat split; eauto].
    simpl. repeat split; auto.
    - apply update_at_map_id. reflexivity.
    - intros i t Hi. rewrite update_at_nth_error.
      destruct (Nat.eqb it i) eqn:Ei; [|eauto].
      apply Nat.eqb_eq in Ei. subst i. rewrite Hi. simpl.
      eexists. split; [reflexivity|]. right.
      apply find_if_nth_error in Ef as (x & Hx & Hp & _).
      rewrite Hi in Hx. injection Hx as <-. apply Z.eqb_eq in Hp.
      split; [now rewrite Hp|apply edit_transaction_edited]. }
  destruct Hmap as (H1 & H2 & H3 & H4 & H5 & H6).
  repeat split; auto.
  rewrite <- (length_map id), H1. apply length_map.
Qed.

(** ** Splitting with [getline] *)

Lemma break_at_length (d : ascii) (s : str) :
  (List.length (snd (break_at d s)) <= Nat.pred (List.length s))%nat.
Proof.
  induction s as [|c r IH]; simpl; [lia|].
  destruct (Ascii.eqb c d); simpl; [lia|].
  destruct (break_at d r); simpl in *. lia.
Qed.

Lemma getline_loop_S (d : ascii) (f : nat) (s : str) :
  getline_loop (S f) s d
  = match s with
    | [] => []
    | _ => fst (break_at d s) :: getline_loop f (snd (break_at d s)) d
    end.
Proof.
  destruct s as [|c r]; [reflexivity|].
  cbn [getline_loop getline]. now destruct (break_at d (c :: r)).
Qed.

Lemma getline_loop_fuel (d : ascii) (n m : nat) (s : str) :
  (List.length s < n)%nat -> (List.length s < m)%nat ->
  getline_loop n s d = getline_loop m s d.
Proof.
  revert m s. induction n as [|n IH]; intros [|m] s Hn Hm; try lia.
  rewrite !getline_loop_S. destruct s as [|c r]; [reflexivity|].
  pose proof (break_at_length d (c :: r)) as Hl.
  f_equal. apply IH; simpl in *; lia.
Qed.

Lemma break_at_app (d : ascii) (t r : str) :
  lacks d t = true -> break_at d (t ++ d :: r) = (t, r).
Proof.
  induction t as [|c t IH]; simpl.
  - now rewrite Ascii.eqb_refl.
  - intros H. apply andb_true_iff in H as [H1 H2].
    apply negb_true_iff in H1. rewrite H1, IH by assumption. reflexivity.
Qed.

Lemma break_at_lacks (d : ascii) (t : str) :
  lacks d t = true -> break_at d t = (t, []).
Proof.
  induction t as [|c t IH]; simpl; [reflexivity|].
  intros H. apply andb_true_iff in H as [H1 H2].
  apply negb_true_iff in H1. rewrite H1, IH by assumption. reflexivity.
Qed.

Lemma split_nil (d : ascii) : split [] d = [].
Proof. reflexivity. Qed.

Lemma split_cons (d : ascii) (t r : str) :
  lacks d t = true -> split (t ++ d :: r) d = t :: split r d.
Proof.
  intros H. unfold split. rewrite getline_loop_S.
  destruct (t ++ d :: r) as [|c s] eqn:E.
  { now destruct t. }
  rewrite <- E, break_at_app by assumption. simpl fst; simpl snd. f_equal.
  apply getline_loop_fuel; rewrite ?length_app; simpl; lia.
Qed.

Lemma split_last (d : ascii) (t : str) :
  lacks d t = true -> t <> [] -> split t d = [t].
Proof.
  intros H N. unfold split. rewrite getline_loop_S.
  destruct t as [|c s]; [congruence|].
  rewrite break_at_lacks by assumption. simpl fst; simpl snd.
  now destruct (List.length (c :: s)).
Qed.

Lemma split_unlines (ls : list str) (rest : str) :
  forallb (lacks ch_nl) ls = true ->
  split (unlines ls ++ rest) ch_nl = ls ++ split rest ch_nl.
Proof.
  induction ls as [|l ls IH]; simpl; [reflexivity|].
  intros H. apply andb_true_iff in H as [H1 H2].
  unfold unlines in *. simpl. rewrite <- !app_assoc. simpl.
  rewrite split_cons by assumption. now rewrite IH.
Qed.

(** ** Loading *)

Lemma load_lines_app (st : load_state) (l1 l2 : list str) :
  load_lines st (l1 ++ l2) = do st1 <- load_lines st l1; load_lines st1 l2.
Proof.
  revert st. induction l1 as [|l l1 IH]; intros st; simpl; [reflexivity|].
  destruct (load_line st l) as [st1|e]; simpl; auto.
Qed.



(** ** The id counter *)

Lemma wrap32_small (z : Z) : INT_MIN <= z <= INT_MAX -> wrap32 z = z.
Proof.
  unfold INT_MIN, INT_MAX, wrap32. intros H.
  rewrite Z.mod_small by lia. lia.
Qed.

Lemma wrap32_add (a b : Z) : wrap32 (wrap32 a + b) = wrap32 (a + b).
Proof.
  unfold wrap32.
  replace ((a + 2147483648) mod 4294967296 - 2147483648 + b + 2147483648)
    with ((a + 2147483648) mod 4294967296 + b) by lia.
  rewrite Zplus_mod_idemp_l. f_equal. f_equal. lia.
Qed.

(** A step of [add_transaction_ui] either leaves the profile or pushes
    one transaction carrying the counter. *)
Lemma add_transaction_ui_cases (user : UserProfile) (d c ds a t : str) :
  add_transaction_ui user d c ds a t = user
  \/ exists v k, add_transaction_ui user d c ds a t
                 = push_transaction user d c ds v k.
Proof.
  unfold add_transaction_ui.
  destruct (is_empty d); [now left|].
  destruct (is_empty c); [now left|].
  destruct (is_empty ds); [now left|].
  destruct (is_empty a); [now left|].
  destruct (stof a) as [v|e]; [|now left].
  destruct t as [|x r]; [now left|].
  destruct (negb (is_I (toupper x)) && negb (is_E (toupper x))); [now left|].
  right. eauto.
Qed.

Lemma appended_ids_same (user : UserProfile) : appended_ids user user = [].
Proof. unfold appended_ids. now rewrite skipn_all. Qed.

Lemma appended_ids_push (user : UserProfile) (d c ds : str) (v : float) (k : ascii) :
  appended_ids user (push_transaction user d c ds v k)
  = [user.(next_transaction_id)].
Proof.
  unfold appended_ids, push_transaction. simpl.
  rewrite skipn_app, skipn_all, Nat.sub_diag. reflexivity.
Qed.

Lemma erase_at_In {A} (i : nat) (l : list A) (x : A) :
  In x (erase_at i l) -> In x l.
Proof.
  revert i. induction l as [|y l IH]; intros [|i]; simpl; auto.
  intros [H|H]; eauto.
Qed.

Lemma delete_step (user : UserProfile) (s : str) :
  let user' := edit_delete_transaction_ui user s Delete in
  user'.(next_transaction_id) = user.(next_transaction_id)
  /\ forall t, In t user'.(transactions) -> In t user.(transactions).
Proof.
  unfold edit_delete_transaction_ui.
  destruct (is_empty s); [auto|].
  destruct (stoi s) as [n|e]; [|auto].
  destruct (find_if _ _) as [it|]; [|auto].
  simpl. split; [reflexivity|]. intros t. apply erase_at_In.
Qed.

(** The invariant of a run that starts with the counter at [n0] and
    with every stored id among [seen]. *)
Lemma run_ops_invariant (ops : list store_op) (user : UserProfile) (seen : list Z) :
  1 <= user.(next_transaction_id) ->
  user.(next_transaction_id) + Z.of_nat (count_adds ops) <= INT_MAX ->
  (forall t, In t user.(transactions) -> In t.(id) seen) ->
  let user' := run_ops user ops in
  let ids := issued_ids user ops in
  StronglySorted Z.lt ids
  /\ (forall i, In i ids ->
        user.(next_transaction_id) <= i < user'.(next_transaction_id))
  /\ user.(next_transaction_id) <= user'.(next_transaction_id)
  /\ (forall t, In t user'.(transactions) -> In t.(id) (seen ++ ids)).
Proof.
  revert user seen. induction ops as [|op ops IH]; intros user seen H1 Hb Hs;
    cbn [run_ops fold_left issued_ids].
  - split; [apply SSorted_nil|]. split; [intros i []|]. split; [lia|].
    intros t Ht. rewrite app_nil_r. auto.
  - fold (run_ops (apply_op user op) ops).
    destruct op as [d c ds a t|s]; cbn [apply_op].
    + destruct (add_transaction_ui_cases user d c ds a t) as [E|(v & k & E)];
        unfold count_adds in Hb; simpl in Hb; rewrite E.
      * rewrite appended_ids_same. simpl.
        apply IH; auto. unfold count_adds. lia.
      * rewrite appended_ids_push. simpl.
        assert (Hn : next_transaction_id (push_transaction user d c ds v k)
                     = next_transaction_id user + 1).
        { simpl. apply wrap32_small. unfold INT_MIN, INT_MAX in *. lia. }
        destruct (IH (push_transaction user d c ds v k)
                     (seen ++ [next_transaction_id user]))
          as (I1 & I2 & I3 & I4).
        { lia. }
        { unfold count_adds. lia. }
        { simpl. intros x Hx. apply in_app_or in Hx as [Hx|[<-|[]]].
          - apply in_or_app. left. auto.
          - apply in_or_app. right. simpl. auto. }
        rewrite Hn in *. repeat split.
        -- constructor; [assumption|]. apply Forall_forall.
           intros i Hi. apply I2 in Hi. lia.
        -- destruct H as [<-|H]; [lia|]. apply I2 in H. lia.
        -- destruct H as [<-|H]; [lia|]. apply I2 in H. lia.
        -- lia.
        -- intros x Hx. apply I4 in Hx. now rewrite <- app_assoc in Hx.
    + destruct (delete_step user s) as [Hn Hin].
      unfold count_adds in Hb; simpl in Hb.
      destruct (IH (edit_delete_transaction_ui user s Delete) seen)
        as (I1 & I2 & I3 & I4).
      { lia. }
      { unfold count_adds. lia. }
      { intros t Ht. auto. }
      rewrite Hn in *. repeat split; auto; apply I2; auto.
Qed.

(** C2 (amended). While fewer than [INT_MAX] transactions have been added to a
    fresh profile, the ids assigned by the adds of a run with
    interleaved deletes are strictly increasing, hence pairwise
    different and never reused; the counter is greater than each of
    them, and every id in the store is one of them. *)
Theorem issued_ids_increase_below_counter :
  forall (name pw : str) (ops : list store_op),
    Z.of_nat (count_adds ops) < INT_MAX ->
    let user := run_ops (fresh_profile name pw) ops in
    let ids := issued_ids (fresh_profile name pw) ops in
    StronglySorted Z.lt ids
    /\ NoDup ids
    /\ (forall i, In i ids -> 1 <= i < user.(next_transaction_id))
    /\ (forall t, In t user.(transactions) ->
          In t.(id) ids /\ t.(id) < user.(next_transaction_id)).
Proof.
  intros name pw ops Hb user ids.
  assert (H1 : 1 <= next_transaction_id (fresh_profile name pw)) by (simpl; lia).
  assert (H2 : next_transaction_id (fresh_profile name pw)
               + Z.of_nat (count_adds ops) <= INT_MAX)
    by (unfold INT_MAX in *; cbn [next_transaction_id fresh_profile]; lia).
  assert (H3 : forall t, In t (transactions (fresh_profile name pw)) ->
                         In (id t) []) by (intros t []).
  destruct (run_ops_invariant ops (fresh_profile name pw) [] H1 H2 H3)
    as (I1 & I2 & I3 & I4).
  fold user ids in I1, I2, I3, I4. simpl in I2, I3, I4.
  split; [assumption|]. split.
  { clear -I1. induction I1 as [|i l S IH F]; constructor; auto.
    intros Hin. rewrite Forall_forall in F. specialize (F _ Hin). lia. }
  split; [assumption|].
  intros t Ht. split; [now apply I4|]. now apply I2, I4.
Qed.

(** The theorem at a run of an add, the delete of its transaction and
    another add. *)
Lemma issued_ids_increase_below_counter_witness :
  let ops := [OpAdd (lit "2024-01-15") (lit "Salary") (lit "pay") (lit "100") (lit "I");
              OpDelete (lit "1");
              OpAdd (lit "2024-01-20") (lit "Food") (lit "lunch") (lit "18") (lit "e")] in
  let user := run_ops (fresh_profile (lit "ann") (lit "pw")) ops in
  let ids := issued_ids (fresh_profile (lit "ann") (lit "pw")) ops in
  StronglySorted Z.lt ids
  /\ NoDup ids
  /\ (forall i, In i ids -> 1 <= i < user.(next_transaction_id))
  /\ (forall t, In t user.(transactions) ->
        In t.(id) ids /\ t.(id) < user.(next_transaction_id)).
Proof.
  apply (issued_ids_increase_below_counter (lit "ann") (lit "pw")).
  vm_compute. reflexivity.
Defined.

(** An add that succeeds on every profile. *)
Lemma one_unit_add_pushes (user : UserProfile) :
  apply_op user one_unit_add
  = push_transaction user (lit "2024-01-01") (lit "Misc") (lit "unit")
                     (float_of_Z 1) "I"%char.
Proof.
  unfold one_unit_add, apply_op, add_transaction_ui.
  change (stof (lit "1")) with (Ok (float_of_Z 1)).
  reflexivity.
Qed.

Lemma wrap32_range (z : Z) : INT_MIN <= wrap32 z <= INT_MAX.
Proof.
  unfold INT_MIN, INT_MAX, wrap32.
  pose proof (Z.mod_pos_bound (z + 2147483648) 4294967296). lia.
Qed.

Lemma run_adds_counter (n : nat) (user : UserProfile) :
  INT_MIN <= user.(next_transaction_id) <= INT_MAX ->
  next_transaction_id (run_ops user (repeat one_unit_add n))
  = wrap32 (user.(next_transaction_id) + Z.of_nat n).
Proof.
  revert user. induction n as [|n IH]; intros user H.
  - cbn [repeat run_ops fold_left Z.of_nat]. rewrite Z.add_0_r.
    symmetry. now apply wrap32_small.
  - cbn [repeat run_ops fold_left]. rewrite one_unit_add_pushes.
    fold (run_ops (push_transaction user (lit "2024-01-01") (lit "Misc")
                     (lit "unit") (float_of_Z 1) "I"%char)
                  (repeat one_unit_add n)).
    rewrite IH by apply wrap32_range.
    cbn [push_transaction next_transaction_id].
    rewrite wrap32_add. f_equal. lia.
Qed.

Lemma run_adds_first_id (n : nat) (user : UserProfile) :
  (0 < n)%nat ->
  In user.(next_transaction_id) (issued_ids user (repeat one_unit_add n)).
Proof.
  destruct n as [|n]; [lia|]. intros _.
  cbn [repeat issued_ids]. unfold one_unit_add at 1.
  fold one_unit_add. rewrite one_unit_add_pushes, appended_ids_push.
  left. reflexivity.
Qed.

(** C2, as stated, fails on a run of [INT_MAX] adds: the counter has
    wrapped to [INT_MIN] and is below the id 1 that was assigned. *)
Lemma id_counter_wraps_after_int_max_adds :
  In 1 (issued_ids (fresh_profile [] []) int_max_adds)
  /\ next_transaction_id (run_ops (fresh_profile [] []) int_max_adds) = INT_MIN
  /\ ~ (forall i, In i (issued_ids (fresh_profile [] []) int_max_adds) ->
                  i < next_transaction_id (run_ops (fresh_profile [] []) int_max_adds)).
Proof.
  assert (H1 : In 1 (issued_ids (fresh_profile [] []) int_max_adds)).
  { apply (run_adds_first_id (Z.to_nat INT_MAX) (fresh_profile [] [])).
    change 0%nat with (Z.to_nat 0). apply Z2Nat.inj_lt; unfold INT_MAX; lia. }
  assert (H2 : next_transaction_id (run_ops (fresh_profile [] []) int_max_adds)
               = INT_MIN).
  { unfold int_max_adds. rewrite run_adds_counter.
    - rewrite Z2Nat.id by (unfold INT_MAX; lia). reflexivity.
    - unfold INT_MIN, INT_MAX. simpl. lia. }
  split; [exact H1|]. split; [exact H2|].
  intros H. specialize (H 1 H1). rewrite H2 in H. unfold INT_MIN in H. lia.
Qed.

(** ** Stream extraction *)

Lemma isdigit_not_space (c : ascii) : isdigit c = true -> isspace c = false.
Proof.
  unfold isdigit, isspace. intros H.
  apply andb_true_iff in H as [H1 H2]. apply Z.leb_le in H1, H2.
  apply orb_false_iff. split.
  - apply Z.eqb_neq. lia.
  - apply andb_false_iff. right. apply Z.leb_gt. lia.
Qed.

Lemma isdigit_not_sign (c : ascii) :
  isdigit c = true -> Ascii.eqb c ch_dash = false /\ Ascii.eqb c ch_plus = false.
Proof.
  intros H. split; apply ascii_eqb_neq; intros ->; discriminate.
Qed.

Lemma skipws_app (w r : str) :
  blank w -> no_space_ahead r -> skipws (w ++ r) = r.
Proof.
  unfold blank. induction w as [|c w IH]; simpl; intros Hw Hr.
  - destruct r as [|c r]; [reflexivity|]. simpl in *. now rewrite Hr.
  - apply andb_true_iff in Hw as [H1 H2]. rewrite H1. auto.
Qed.

Lemma skipws_inv (s : str) :
  exists w, s = w ++ skipws s /\ blank w /\ no_space_ahead (skipws s).
Proof.
  unfold blank. induction s as [|c s (w & E & Hw & Hr)]; simpl.
  - exists []. simpl. auto.
  - destruct (isspace c) eqn:Ec.
    + exists (c :: w). simpl. rewrite Ec, Hw. repeat split; auto. now f_equal.
    + exists []. simpl. auto.
Qed.

Lemma span_app (p : ascii -> bool) (ds r : str) :
  forallb p ds = true ->
  match r with c :: _ => p c = false | [] => True end ->
  span p (ds ++ r) = (ds, r).
Proof.
  induction ds as [|c ds IH]; simpl; intros Hd Hr.
  - destruct r as [|c r]; [reflexivity|]. simpl. now rewrite Hr.
  - apply andb_true_iff in Hd as [H1 H2]. rewrite H1, IH by assumption.
    reflexivity.
Qed.

Lemma span_inv (p : ascii -> bool) (s ds r : str) :
  span p s = (ds, r) ->
  s = ds ++ r /\ forallb p ds = true
  /\ match r with c :: _ => p c = false | [] => True end.
Proof.
  revert ds r. induction s as [|c s IH]; simpl; intros ds r.
  - intros [= <- <-]. auto.
  - destruct (p c) eqn:Ec.
    + destruct (span p s) as [ds' r'] eqn:E. intros [= <- <-].
      destruct (IH _ _ eq_refl) as (-> & H1 & H2). simpl. rewrite Ec. auto.
    + intros [= <- <-]. simpl. auto.
Qed.

Lemma scan_int_token (sg ds r : str) :
  (sg = [] \/ sg = [ch_dash] \/ sg = [ch_plus]) ->
  ds <> [] -> all_digits ds -> no_digit_ahead r ->
  scan_int ((sg ++ ds) ++ r) = Some (sign_value sg (digits_value ds), r).
Proof.
  intros Hs Hn Hd Hr. unfold scan_int.
  assert (Hsp : span isdigit (ds ++ r) = (ds, r)) by now apply span_app.
  destruct ds as [|c ds]; [congruence|].
  assert (Hc : isdigit c = true).
  { unfold all_digits in Hd. simpl in Hd. now apply andb_true_iff in Hd. }
  destruct (isdigit_not_sign c Hc) as [N1 N2].
  destruct Hs as [ -> | [ -> | -> ] ]; simpl app; unfold scan_sign.
  - rewrite N1, N2. change (c :: ds ++ r) with ((c :: ds) ++ r). now rewrite Hsp.
  - rewrite Ascii.eqb_refl. change (c :: ds ++ r) with ((c :: ds) ++ r).
    now rewrite Hsp.
  - change (Ascii.eqb ch_plus ch_dash) with false. rewrite Ascii.eqb_refl.
    change (c :: ds ++ r) with ((c :: ds) ++ r). now rewrite Hsp.
Qed.

Lemma scan_int_inv (s r : str) (v : Z) :
  scan_int s = Some (v, r) ->
  exists sg ds, s = (sg ++ ds) ++ r
                /\ (sg = [] \/ sg = [ch_dash] \/ sg = [ch_plus])
                /\ ds <> [] /\ all_digits ds
                /\ v = sign_value sg (digits_value ds)
                /\ no_digit_ahead r.
Proof.
  unfold scan_int. destruct (scan_sign s) as [neg s1] eqn:Es.
  destruct (span isdigit s1) as [ds rest] eqn:Ed.
  destruct ds as [|c ds]; [discriminate|]. intros [= <- <-].
  apply span_inv in Ed as (E0 & Hd & Hr). subst s1.
  unfold scan_sign in Es. destruct s as [|x s].
  - injection Es as <- E. discriminate.
  - destruct (Ascii.eqb x ch_dash) eqn:E1.
    + apply ascii_eqb_eq in E1. injection Es as <- ->. subst x.
      exists [ch_dash], (c :: ds). repeat split; auto. discriminate.
    + destruct (Ascii.eqb x ch_plus) eqn:E2.
      * apply ascii_eqb_eq in E2. injection Es as <- ->. subst x.
        exists [ch_plus], (c :: ds). repeat split; auto. discriminate.
      * injection Es as <- E H. subst x s. exists [], (c :: ds).
        repeat split; auto. discriminate.
Qed.

Lemma int_token_no_space (t r : str) (v : Z) :
  int_token t v -> no_space_ahead (t ++ r).
Proof.
  intros (sg & ds & -> & Hs & Hn & Hd & _).
  destruct ds as [|c ds]; [congruence|].
  unfold all_digits in Hd. simpl in Hd. apply andb_true_iff in Hd as [Hc _].
  destruct Hs as [ -> | [ -> | -> ] ]; simpl; auto using isdigit_not_space.
Qed.

Lemma extract_int_iff (s r : str) (v : Z) :
  extract_int s = Some (v, r)
  <-> exists w t, s = w ++ t ++ r /\ blank w /\ int_token t v /\ no_digit_ahead r.
Proof.
  unfold extract_int. split.
  - destruct (skipws_inv s) as (w & E & Hw & _).
    destruct (scan_int (skipws s)) as [[v' r']|] eqn:Es; [|discriminate].
    destruct (in_int v') eqn:Ei; [|discriminate]. intros [= <- <-].
    apply scan_int_inv in Es as (sg & ds & E2 & Hs & Hn & Hd & Hv & Hr).
    exists w, (sg ++ ds). rewrite E at 1. rewrite E2.
    repeat split; auto. exists sg, ds. repeat split; auto;
      unfold in_int in Ei; apply andb_true_iff in Ei as [I1 I2];
      apply Z.leb_le in I1, I2; assumption.
  - intros (w & t & -> & Hw & Ht & Hr).
    rewrite skipws_app; [|assumption|now apply (int_token_no_space t r v)].
    destruct Ht as (sg & ds & -> & Hs & Hn & Hd & -> & I1 & I2).
    rewrite scan_int_token by assumption.
    unfold in_int. apply Z.leb_le in I1, I2. now rewrite I1, I2.
Qed.

Lemma extract_char_iff (s r : str) (c : ascii) :
  extract_char s = Some (c, r)
  <-> exists w, s = w ++ c :: r /\ blank w /\ isspace c = false.
Proof.
  unfold extract_char. split.
  - destruct (skipws_inv s) as (w & E & Hw & Hn).
    destruct (skipws s) as [|c' r']; [discriminate|]. intros [= <- <-].
    exists w. auto.
  - intros (w & -> & Hw & Hc). now rewrite skipws_app.
Qed.

(** ** Date parser *)

Lemma parse_date_steps (s : str) (y m d : Z) :
  parse_date s = Some (y, m, d)
  <-> exists s1 s2 s3 s4 s5,
      extract_int s = Some (y, s1) /\ extract_char s1 = Some (ch_dash, s2)
      /\ extract_int s2 = Some (m, s3) /\ extract_char s3 = Some (ch_dash, s4)
      /\ extract_int s4 = Some (d, s5).
Proof.
  unfold parse_date. split.
  - destruct (extract_int s) as [[y' s1]|] eqn:H1; [|discriminate].
    destruct (extract_char s1) as [[c1 s2]|] eqn:H2; [|discriminate].
    destruct (Ascii.eqb c1 ch_dash) eqn:E1; [|discriminate]. simpl.
    destruct (extract_int s2) as [[m' s3]|] eqn:H3; [|discriminate].
    destruct (extract_char s3) as [[c2 s4]|] eqn:H4; [|discriminate].
    destruct (Ascii.eqb c2 ch_dash) eqn:E2; [|discriminate]. simpl.
    destruct (extract_int s4) as [[d' s5]|] eqn:H5; [|discriminate].
    intros [= <- <- <-]. apply ascii_eqb_eq in E1, E2. subst.
    exists s1, s2, s3, s4, s5. repeat split; assumption.
  - intros (s1 & s2 & s3 & s4 & s5 & H1 & H2 & H3 & H4 & H5).
    rewrite H1, H2, Ascii.eqb_refl. simpl.
    rewrite H3, H4, Ascii.eqb_refl. simpl. now rewrite H5.
Qed.

Lemma blank_dash_no_digit (w r : str) :
  blank w -> no_digit_ahead (w ++ ch_dash :: r).
Proof.
  unfold blank. destruct w as [|c w]; simpl; [reflexivity|].
  intros H. apply andb_true_iff in H as [H _].
  destruct (isdigit c) eqn:E; [|reflexivity].
  apply isdigit_not_space in E. congruence.
Qed.

Lemma int_text_chars (t : str) (c : ascii) :
  int_text t -> In c t -> isdigit c = true \/ c = ch_dash \/ c = ch_plus.
Proof.
  intros (sg & ds & -> & Hs & _ & Hd) Hin.
  apply in_app_or in Hin as [Hin|Hin].
  - destruct Hs as [ -> | [ -> | -> ] ]; simpl in Hin; intuition.
  - left. unfold all_digits in Hd. rewrite forallb_forall in Hd. auto.
Qed.

Lemma int_dash_int_dash_int_chars (s : str) (c : ascii) :
  int_dash_int_dash_int s -> In c s ->
  isdigit c = true \/ c = ch_dash \/ c = ch_plus.
Proof.
  intros (a & b & d & Ha & Hb & Hd & ->) Hin.
  repeat (apply in_app_or in Hin as [Hin|Hin]);
    eauto using int_text_chars.
  - destruct Hin as [<-|[]]. auto.
  - destruct Hin as [<-|[]]. auto.
Qed.

(** C7, as stated, fails on a text with characters after the day: the
    parser succeeds although the text is not [<int>-<int>-<int>]. *)
Lemma parse_date_accepts_trailing_text :
  parse_date (lit "2024-1-5abc") = Some (2024, 1, 5)
  /\ ~ int_dash_int_dash_int (lit "2024-1-5abc").
Proof.
  split; [reflexivity|]. intros H.
  destruct (int_dash_int_dash_int_chars _ "a"%char H) as [E|[E|E]];
    try discriminate.
  simpl. tauto.
Qed.

(** C7 (amended). The parser succeeds exactly on the texts that begin with
    three [int] tokens separated by ['-'], with optional white space
    before each token and separator and anything after the third token;
    it returns the three values, whatever they are as a calendar date
    (month 13 and day 40 are returned as such), and fails on every other
    text. *)
Theorem parse_date_accepts_exactly_lenient_form :
  (forall (s : str) (y m d : Z),
      parse_date s = Some (y, m, d) <-> lenient_date_form s y m d)
  /\ (forall s, parse_date s = None <-> forall y m d, ~ lenient_date_form s y m d)
  /\ parse_date (lit "2024-13-40") = Some (2024, 13, 40).
Proof.
  assert (Hiff : forall (s : str) (y m d : Z),
             parse_date s = Some (y, m, d) <-> lenient_date_form s y m d).
  { intros s y m d. rewrite parse_date_steps. unfold lenient_date_form. split.
    - intros (s1 & s2 & s3 & s4 & s5 & H1 & H2 & H3 & H4 & H5).
      apply extract_int_iff in H1 as (w1 & t1 & -> & B1 & T1 & _).
      apply extract_char_iff in H2 as (w2 & -> & B2 & _).
      apply extract_int_iff in H3 as (w3 & t2 & -> & B3 & T2 & _).
      apply extract_char_iff in H4 as (w4 & -> & B4 & _).
      apply extract_int_iff in H5 as (w5 & t3 & -> & B5 & T3 & R).
      exists w1, t1, w2, w3, t2, w4, w5, t3, s5. repeat split; auto.
    - intros (w1 & t1 & w2 & w3 & t2 & w4 & w5 & t3 & rest & -> & B1 & B2 & B3
              & B4 & B5 & T1 & T2 & T3 & R).
      eexists _, _, _, _, _. split; [|split; [|split; [|split]]].
      + apply extract_int_iff. exists w1, t1. split; [reflexivity|].
        repeat split; auto. now apply blank_dash_no_digit.
      + apply extract_char_iff. exists w2. split; [reflexivity|]. auto.
      + apply extract_int_iff. exists w3, t2. split; [reflexivity|].
        repeat split; auto. now apply blank_dash_no_digit.
      + apply extract_char_iff. exists w4. split; [reflexivity|]. auto.
      + apply extract_int_iff. exists w5, t3. split; [reflexivity|].
        repeat split; auto. }
  split; [exact Hiff|]. split; [|reflexivity].
  intros s. split.
  - intros E y m d H. apply Hiff in H. congruence.
  - intros H. destruct (parse_date s) as [[[y m] d]|] eqn:E; [|reflexivity].
    apply Hiff in E. now apply H in E.
Qed.

(** ** Decimal text of an [int] *)

Lemma code_chr (z : Z) : 0 <= z < 256 -> code (chr z) = z.
Proof.
  intros H. unfold code, chr. rewrite N_ascii_embedding by lia. lia.
Qed.

Lemma isdigit_digit_char (d : Z) : 0 <= d < 10 -> isdigit (digit_char d) = true.
Proof.
  intros H. unfold isdigit, digit_char. rewrite code_chr by lia.
  apply andb_true_iff. split; apply Z.leb_le; lia.
Qed.

Lemma digit_val_digit_char (d : Z) : 0 <= d < 10 -> digit_val (digit_char d) = d.
Proof.
  intros H. unfold digit_val, digit_char. rewrite code_chr by lia. lia.
Qed.

Lemma nat_digits_spec (fuel : nat) (n : Z) (acc : str) :
  0 <= n < 10 ^ Z.of_nat fuel -> (0 < fuel)%nat ->
  exists ds, nat_digits fuel n acc = ds ++ acc /\ ds <> [] /\ all_digits ds
             /\ forall v, fold_left digits_step ds v
                          = v * 10 ^ Z.of_nat (List.length ds) + n.
Proof.
  revert n acc. induction fuel as [|f IH]; intros n acc Hn Hf; [lia|].
  cbn [nat_digits].
  assert (Hd : 0 <= n mod 10 < 10) by (apply Z.mod_pos_bound; lia).
  destruct (n / 10 =? 0) eqn:E.
  - apply Z.eqb_eq in E. exists [digit_char (n mod 10)].
    repeat split; [discriminate| |].
    + unfold all_digits. simpl. now rewrite isdigit_digit_char.
    + intros v. simpl. unfold digits_step. rewrite digit_val_digit_char by lia.
      rewrite (Z.div_mod n 10) at 2 by lia. rewrite E. lia.
  - apply Z.eqb_neq in E.
    assert (Hq : 0 <= n / 10 < 10 ^ Z.of_nat f).
    { split; [apply Z.div_pos; lia|].
      apply Z.div_lt_upper_bound; [lia|].
      rewrite Nat2Z.inj_succ, Z.pow_succ_r in Hn by lia. lia. }
    assert (Hf' : (0 < f)%nat).
    { destruct f; [|lia]. simpl in Hq. assert (n / 10 = 0) by lia. lia. }
    destruct (IH (n / 10) (digit_char (n mod 10) :: acc) Hq Hf')
      as (ds & E1 & N1 & D1 & V1).
    exists (ds ++ [digit_char (n mod 10)]). repeat split.
    + rewrite E1, <- app_assoc. reflexivity.
    + now destruct ds.
    + unfold all_digits in *. rewrite forallb_app, D1. simpl.
      now rewrite isdigit_digit_char.
    + intros v. rewrite fold_left_app, V1. simpl. unfold digits_step at 1.
      rewrite digit_val_digit_char by lia.
      rewrite length_app, Nat2Z.inj_add. simpl List.length.
      rewrite Z.pow_add_r by lia.
      rewrite (Z.div_mod n 10) at 3 by lia. change (10 ^ Z.of_nat 1) with 10.
      lia.
Qed.

Lemma digits_fuel_enough (n : Z) : 0 <= n -> n < 10 ^ Z.of_nat (digits_fuel n).
Proof.
  intros H. unfold digits_fuel. rewrite Nat2Z.inj_succ.
  rewrite Z2Nat.id by apply Z.log2_nonneg.
  destruct (Z.eq_dec n 0) as [->|N]; [reflexivity|].
  assert (H1 : n < 2 ^ Z.succ (Z.log2 n)) by (apply Z.log2_spec; lia).
  assert (H2 : 2 ^ Z.succ (Z.log2 n) <= 10 ^ Z.succ (Z.log2 n)).
  { apply Z.pow_le_mono_l. lia. }
  lia.
Qed.

(** The text of an [int] is a sign and digits that read back as it. *)
Lemma to_string_spec (n : Z) :
  exists sg ds, to_string n = sg ++ ds /\ (sg = [] \/ sg = [ch_dash])
                /\ ds <> [] /\ all_digits ds
                /\ n = sign_value sg (digits_value ds).
Proof.
  unfold to_string. destruct (n <? 0) eqn:E.
  - apply Z.ltb_lt in E.
    destruct (nat_digits_spec (digits_fuel (- n)) (- n) []) as (ds & E1 & N1 & D1 & V1).
    { split; [lia|]. apply digits_fuel_enough. lia. }
    { unfold digits_fuel. lia. }
    exists [ch_dash], ds. rewrite E1, app_nil_r. repeat split; auto.
    unfold digits_value. fold digits_step. rewrite V1.
    unfold sign_value. simpl. lia.
  - apply Z.ltb_ge in E.
    destruct (nat_digits_spec (digits_fuel n) n []) as (ds & E1 & N1 & D1 & V1).
    { split; [lia|]. now apply digits_fuel_enough. }
    { unfold digits_fuel. lia. }
    exists [], ds. rewrite E1, app_nil_r. repeat split; auto.
    unfold digits_value. fold digits_step. rewrite V1.
    unfold sign_value. simpl. lia.
Qed.

Lemma stoi_to_string (n : Z) : in_int n = true -> stoi (to_string n) = Ok n.
Proof.
  intros Hn. destruct (to_string_spec n) as (sg & ds & E & Hs & N & D & V).
  unfold stoi. rewrite E.
  assert (Hs' : sg = [] \/ sg = [ch_dash] \/ sg = [ch_plus]) by tauto.
  assert (Ht : int_token (sg ++ ds) n).
  { exists sg, ds. repeat split; auto;
      unfold in_int in Hn; apply andb_true_iff in Hn as [I1 I2];
      apply Z.leb_le in I1, I2; assumption. }
  pose proof (int_token_no_space _ [] _ Ht) as Hsp. rewrite app_nil_r in Hsp.
  rewrite <- (app_nil_l (sg ++ ds)) at 1.
  rewrite skipws_app; [|reflexivity|assumption].
  rewrite <- (app_nil_r (sg ++ ds)).
  rewrite scan_int_token; auto; [|exact I]. now rewrite <- V, Hn.
Qed.

Lemma lacks_app (c : ascii) (a b : str) :
  lacks c (a ++ b) = lacks c a && lacks c b.
Proof. apply forallb_app. Qed.

Lemma lacks_In (c : ascii) (s : str) : lacks c s = true <-> ~ In c s.
Proof.
  unfold lacks. rewrite forallb_forall. split.
  - intros H Hin. specialize (H c Hin). now rewrite Ascii.eqb_refl in H.
  - intros H x Hx. apply negb_true_iff, ascii_eqb_neq. intros ->. auto.
Qed.

Lemma numeric_lacks (c : ascii) (s : str) :
  numeric_char c = false -> forallb numeric_char s = true -> lacks c s = true.
Proof.
  intros Hc Hs. apply lacks_In. intros Hin.
  rewrite forallb_forall in Hs. specialize (Hs c Hin). congruence.
Qed.

Lemma isdigit_numeric (ds : str) : all_digits ds -> forallb numeric_char ds = true.
Proof.
  unfold all_digits. rewrite !forallb_forall. intros H c Hc.
  unfold numeric_char. now rewrite H.
Qed.

Lemma to_string_numeric (n : Z) : forallb numeric_char (to_string n) = true.
Proof.
  destruct (to_string_spec n) as (sg & ds & -> & Hs & _ & D & _).
  rewrite forallb_app, (isdigit_numeric ds D).
  destruct Hs as [ -> | -> ]; reflexivity.
Qed.

(** ** Text of a [float] *)

Lemma float_eqb_eq (a b : float) : float_eqb a b = true -> a = b.
Proof.
  destruct a as [s1|s1|s1|s1 m1 e1], b as [s2|s2|s2|s2 m2 e2]; simpl;
    try discriminate; try reflexivity.
  - intros H. apply eqb_prop in H. now subst.
  - intros H. apply eqb_prop in H. now subst.
  - intros H. apply eqb_prop in H. now subst.
  - intros H. apply andb_true_iff in H as [H H3].
    apply andb_true_iff in H as [H1 H2].
    apply eqb_prop in H1. apply Pos.eqb_eq in H2. apply Z.eqb_eq in H3.
    now subst.
Qed.

Lemma float_ok_stof (a : float) : float_ok a = true -> stof (print_float a) = Ok a.
Proof.
  unfold float_ok. destruct (stof (print_float a)) as [b|e]; [|discriminate].
  intros H. apply float_eqb_eq in H. now subst.
Qed.

Lemma nat_digits_numeric (fuel : nat) (n : Z) (acc : str) :
  forallb numeric_char acc = true ->
  forallb numeric_char (nat_digits fuel n acc) = true.
Proof.
  revert n acc. induction fuel as [|f IH]; intros n acc H; simpl; [assumption|].
  assert (Hd : forallb numeric_char (digit_char (n mod 10) :: acc) = true).
  { simpl. rewrite H. unfold numeric_char.
    rewrite isdigit_digit_char; [reflexivity|]. apply Z.mod_pos_bound. lia. }
  destruct (n / 10 =? 0); auto.
Qed.

Lemma forallb_firstn {A} (p : A -> bool) (n : nat) (l : list A) :
  forallb p l = true -> forallb p (firstn n l) = true.
Proof.
  revert n. induction l as [|x l IH]; intros [|n]; simpl; auto.
  intros H. apply andb_true_iff in H as [H1 H2]. rewrite H1. simpl. auto.
Qed.

Lemma forallb_skipn {A} (p : A -> bool) (n : nat) (l : list A) :
  forallb p l = true -> forallb p (skipn n l) = true.
Proof.
  revert n. induction l as [|x l IH]; intros [|n]; simpl; auto.
  intros H. apply andb_true_iff in H as [H1 H2]. auto.
Qed.

Lemma forallb_rev {A} (p : A -> bool) (l : list A) :
  forallb p l = true -> forallb p (rev l) = true.
Proof.
  rewrite !forallb_forall. intros H x Hx. apply H. now apply in_rev.
Qed.

Lemma drop_zeros_numeric (s : str) :
  forallb numeric_char s = true -> forallb numeric_char (drop_zeros s) = true.
Proof.
  induction s as [|c s IH]; simpl; auto.
  intros H. destruct (Ascii.eqb c "0"); [|exact H].
  apply andb_true_iff in H as [_ H]. auto.
Qed.

Lemma with_fraction_numeric (ip fp : str) :
  forallb numeric_char ip = true -> forallb numeric_char fp = true ->
  forallb numeric_char (with_fraction ip fp) = true.
Proof.
  intros H1 H2. unfold with_fraction.
  assert (H3 : forallb numeric_char (strip_zeros fp) = true).
  { unfold strip_zeros. now apply forallb_rev, drop_zeros_numeric, forallb_rev. }
  destruct (strip_zeros fp) as [|c r]; [assumption|].
  rewrite forallb_app, H1. simpl. exact H3.
Qed.

Lemma exponent_digits_numeric (x : Z) :
  forallb numeric_char (exponent_digits x) = true.
Proof.
  unfold exponent_digits. cbn [forallb]. apply andb_true_iff. split.
  - now destruct (x <? 0).
  - destruct (Z.abs x <? 10); cbn [forallb];
      rewrite to_string_numeric; reflexivity.
Qed.

Lemma repeat_zero_numeric (n : nat) :
  forallb numeric_char (repeat "0"%char n) = true.
Proof. induction n; simpl; auto. Qed.

Lemma print_g6_numeric (n d : Z) : forallb numeric_char (print_g6 n d) = true.
Proof.
  unfold print_g6.
  set (x0 := dec_exponent 100 n d (-50)).
  set (q0 := round_half_even _ _).
  set (x := if q0 =? 1000000 then x0 + 1 else x0).
  set (q := if q0 =? 1000000 then 100000 else q0).
  assert (Hds : forallb numeric_char (nat_digits 6 q []) = true)
    by now apply nat_digits_numeric.
  destruct ((-4 <=? x) && (x <? 6)).
  - destruct (0 <=? x).
    + apply with_fraction_numeric; auto using forallb_firstn, forallb_skipn.
    + apply with_fraction_numeric; [reflexivity|].
      now rewrite forallb_app, repeat_zero_numeric.
  - rewrite forallb_app. apply andb_true_iff. split.
    + apply with_fraction_numeric; auto using forallb_firstn, forallb_skipn.
    + cbn [forallb]. now rewrite exponent_digits_numeric.
Qed.

Lemma print_float_numeric (x : float) : forallb numeric_char (print_float x) = true.
Proof.
  destruct x as [s|s|s|s m e]; simpl.
  - now destruct s.
  - now destruct s.
  - now destruct s.
  - destruct (ratio2 (Z.pos m) e) as [n d].
    rewrite forallb_app, print_g6_numeric. now destruct s.
Qed.

Lemma print_float_lacks (c : ascii) (x : float) :
  numeric_char c = false -> lacks c (print_float x) = true.
Proof. intros H. apply numeric_lacks; auto using print_float_numeric. Qed.

Lemma to_string_lacks (c : ascii) (n : Z) :
  numeric_char c = false -> lacks c (to_string n) = true.
Proof. intros H. apply numeric_lacks; auto using to_string_numeric. Qed.

(** ** The text written *)

Lemma joined_app (d : ascii) (a b : list str) :
  joined d (a ++ b) = joined d a ++ joined d b.
Proof. unfold joined. now rewrite map_app, concat_app. Qed.

Lemma save_budgets_joined (m : smap) :
  List.concat (map save_budget m) = joined ch_comma (map budget_part m).
Proof.
  unfold joined. induction m as [|e m IH]; cbn [map List.concat]; [reflexivity|].
  rewrite IH. unfold save_budget, budget_part.
  rewrite <- !app_assoc. reflexivity.
Qed.

Lemma save_transactions_joined (l : list Transaction) :
  List.concat (map save_transaction l) = joined ch_nl (map trans_line l).
Proof.
  unfold joined. induction l as [|t l IH]; cbn [map List.concat]; [reflexivity|].
  rewrite IH. unfold save_transaction, trans_line.
  rewrite <- !app_assoc. reflexivity.
Qed.

Lemma save_user_lines (u : UserProfile) :
  save_user u = unlines (user_lines u).
Proof.
  unfold save_user, user_lines, unlines.
  rewrite save_budgets_joined, save_transactions_joined.
  rewrite !map_app, !concat_app. cbn [map List.concat].
  unfold joined at 2. rewrite !app_nil_r, <- !app_assoc. reflexivity.
Qed.

Lemma saveToFile_lines (r : list UserProfile) :
  saveToFile r = unlines (flat_map user_lines r).
Proof.
  unfold saveToFile. induction r as [|u r IH];
    cbn [map List.concat flat_map]; [reflexivity|].
  rewrite IH, save_user_lines. unfold unlines.
  now rewrite map_app, concat_app.
Qed.

Lemma split_joined (d : ascii) (ls : list str) (rest : str) :
  forallb (lacks d) ls = true ->
  split (joined d ls ++ rest) d = ls ++ split rest d.
Proof.
  induction ls as [|l ls IH]; simpl; [reflexivity|].
  intros H. apply andb_true_iff in H as [H1 H2].
  unfold joined in *. simpl. rewrite <- !app_assoc. simpl.
  rewrite split_cons by assumption. now rewrite IH.
Qed.

(** ** Reading the lines back *)

Lemma getline_cons (d : ascii) (t r : str) :
  lacks d t = true -> getline (t ++ d :: r) d = (Some t, r).
Proof.
  intros H. unfold getline. destruct (t ++ d :: r) as [|c s] eqn:E.
  { now destruct t. }
  rewrite <- E, break_at_app by assumption. reflexivity.
Qed.

Lemma getline_last (d : ascii) (t : str) :
  lacks d t = true ->
  getline t d = (if is_empty t then None else Some t, []).
Proof.
  intros H. unfold getline. destruct t as [|c s]; [reflexivity|].
  rewrite break_at_lacks by assumption. reflexivity.
Qed.

Lemma update_at_last {A} (f : A -> A) (us : list A) (x : A) :
  update_at (List.length us) f (us ++ [x]) = us ++ [f x].
Proof. induction us as [|u us IH]; simpl; [reflexivity|]. now rewrite IH. Qed.

Lemma nth_last {A} (us : list A) (x d : A) : nth (List.length us) (us ++ [x]) d = x.
Proof. induction us as [|u us IH]; simpl; auto. Qed.

Lemma field_ok_lacks (s : str) :
  field_ok s = true -> lacks ch_pipe s = true /\ lacks ch_nl s = true.
Proof. unfold field_ok. intros H. now apply andb_true_iff in H. Qed.

Lemma load_user_line_ok (us : list UserProfile) (cur : option nat) (u p : str) :
  lacks ch_pipe u = true -> lacks ch_pipe p = true ->
  load_line (us, cur) (lit "USER|" ++ u ++ lit "|" ++ p)
  = Ok (us ++ [mkUserProfile u p [] [] 1], Some (List.length us)).
Proof.
  intros Hu Hp. unfold load_line.
  change (starts_with (lit "USER|") (lit "USER|" ++ u ++ lit "|" ++ p)) with true.
  cbv iota. unfold load_user_line. cbn [fst].
  change (lit "USER|" ++ u ++ lit "|" ++ p)
    with (lit "USER" ++ ch_pipe :: (u ++ ch_pipe :: p)).
  rewrite (getline_cons ch_pipe (lit "USER")) by reflexivity.
  rewrite (getline_cons ch_pipe u p Hu).
  rewrite (getline_last ch_pipe p Hp).
  rewrite update_at_last. unfold set_credentials, or_default. simpl.
  now destruct p.
Qed.

Lemma load_next_id_line_ok (us : list UserProfile) (x : UserProfile) (n : Z) :
  in_int n = true ->
  load_line (us ++ [x], Some (List.length us)) (lit "NEXT_ID|" ++ to_string n)
  = Ok (us ++ [set_next_id n x], Some (List.length us)).
Proof.
  intros Hn. unfold load_line.
  change (starts_with (lit "USER|") (lit "NEXT_ID|" ++ to_string n)) with false.
  change (starts_with (lit "NEXT_ID|") (lit "NEXT_ID|" ++ to_string n)) with true.
  cbv iota. simpl andb. cbv iota.
  change (substr_from 8 (lit "NEXT_ID|" ++ to_string n)) with (to_string n).
  rewrite stoi_to_string by assumption. simpl bind.
  unfold on_current. simpl. now rewrite update_at_last.
Qed.

Lemma find_char_app (c : ascii) (a b : str) :
  lacks c a = true -> find_char c (a ++ c :: b) = Some (List.length a).
Proof.
  induction a as [|x a IH]; simpl.
  - now rewrite Ascii.eqb_refl.
  - intros H. apply andb_true_iff in H as [H1 H2].
    apply negb_true_iff in H1. rewrite H1, IH by assumption. reflexivity.
Qed.

Lemma budget_ok_facts (e : str * float) :
  budget_ok e = true ->
  lacks ch_colon (fst e) = true /\ lacks ch_comma (fst e) = true
  /\ lacks ch_nl (fst e) = true /\ float_ok (snd e) = true.
Proof.
  unfold budget_ok, budget_key_ok. intros H.
  apply andb_true_iff in H as [H H4]. apply andb_true_iff in H as [H H3].
  apply andb_true_iff in H as [H1 H2]. auto.
Qed.

Lemma load_budget_part_ok (m : smap) (e : str * float) :
  budget_ok e = true ->
  load_budget_part m (budget_part e) = Ok (map_set (fst e) (snd e) m).
Proof.
  intros H. apply budget_ok_facts in H as (H1 & _ & _ & H4).
  destruct e as [k v]. simpl in *. unfold load_budget_part, budget_part. simpl fst; simpl snd.
  change (k ++ lit ":" ++ print_float v) with (k ++ ch_colon :: print_float v).
  assert (Hne : is_empty (k ++ ch_colon :: print_float v) = false) by now destruct k.
  rewrite Hne, find_char_app by assumption.
  unfold substr_from.
  replace (skipn (S (List.length k)) (k ++ ch_colon :: print_float v))
    with (print_float v).
  2:{ rewrite skipn_app, skipn_all2 by lia.
      replace (S (List.length k) - List.length k)%nat with 1%nat by lia.
      reflexivity. }
  rewrite firstn_app, firstn_all, Nat.sub_diag. simpl firstn. rewrite app_nil_r.
  rewrite float_ok_stof by assumption. reflexivity.
Qed.

Lemma map_sorted_app (a b : smap) :
  map_sorted (a ++ b) = true ->
  forall k v k' v', In (k, v) a -> In (k', v') b -> str_ltb k k' = true.
Proof.
  induction a as [|[k0 v0] a IH]; simpl; [contradiction|].
  intros H k v k' v' Ha Hb. apply andb_true_iff in H as [H1 H2].
  destruct Ha as [E|Ha].
  - injection E as -> ->. rewrite forallb_forall in H1.
    apply (H1 (k', v')). apply in_or_app. now right.
  - eapply IH; eauto.
Qed.

Lemma map_set_after (m : smap) (k : str) (v : float) :
  (forall k0 v0, In (k0, v0) m -> str_ltb k0 k = true) ->
  map_set k v m = m ++ [(k, v)].
Proof.
  unfold map_set. induction m as [|[k0 v0] m IH]; simpl; intros H; [reflexivity|].
  assert (H0 : str_ltb k0 k = true) by (apply (H k0 v0); now left).
  unfold str_ltb in H0. rewrite (str_compare_antisym k0 k).
  destruct (str_compare k0 k); try discriminate. simpl.
  rewrite IH; [reflexivity|]. intros k1 v1 Hin. apply (H k1 v1). now right.
Qed.

Lemma load_budget_parts_ok (rest acc : smap) :
  map_sorted (acc ++ rest) = true -> forallb budget_ok rest = true ->
  load_budget_parts acc (map budget_part rest) = Ok (acc ++ rest).
Proof.
  revert acc. induction rest as [|[k v] rest IH]; intros acc Hs Hb; simpl.
  - now rewrite app_nil_r.
  - apply andb_true_iff in Hb as [Hb1 Hb2].
    rewrite (load_budget_part_ok acc (k, v) Hb1). simpl bind. simpl fst; simpl snd.
    rewrite map_set_after.
    + rewrite IH.
      * now rewrite <- app_assoc.
      * rewrite <- app_assoc. exact Hs.
      * exact Hb2.
    + intros k0 v0 Hin. apply (map_sorted_app acc ((k, v) :: rest) Hs k0 v0 k v Hin).
      now left.
Qed.

Lemma budget_part_lacks (c : ascii) (e : str * float) :
  numeric_char c = false -> Ascii.eqb ch_colon c = false ->
  lacks c (fst e) = true -> lacks c (budget_part e) = true.
Proof.
  intros Hc Hn H. unfold budget_part.
  rewrite !lacks_app, H, print_float_lacks by assumption.
  change (lacks c (lit ":")) with (negb (Ascii.eqb ch_colon c) && true).
  now rewrite Hn.
Qed.

Lemma load_budgets_line_ok (us : list UserProfile) (x : UserProfile) (m : smap) :
  budgetPerCategory x = [] ->
  map_sorted m = true -> forallb budget_ok m = true ->
  load_line (us ++ [x], Some (List.length us))
            (lit "BUDGETS|" ++ joined ch_comma (map budget_part m))
  = Ok (us ++ [set_budgets m x], Some (List.length us)).
Proof.
  intros Hx Hs Hb. unfold load_line.
  set (body := joined ch_comma (map budget_part m)).
  change (starts_with (lit "USER|") (lit "BUDGETS|" ++ body)) with false.
  change (starts_with (lit "NEXT_ID|") (lit "BUDGETS|" ++ body)) with false.
  change (starts_with (lit "BUDGETS|") (lit "BUDGETS|" ++ body)) with true.
  cbv iota. simpl andb. cbv iota.
  change (substr_from 8 (lit "BUDGETS|" ++ body)) with body.
  unfold current_budgets. cbn [fst snd]. rewrite nth_last, Hx.
  subst body. rewrite <- (app_nil_r (joined _ _)), split_joined, split_nil, app_nil_r.
  - rewrite (load_budget_parts_ok m [] Hs Hb). simpl bind.
    unfold on_current. simpl. now rewrite update_at_last.
  - rewrite forallb_forall. intros part Hp. apply in_map_iff in Hp as (e & <- & He).
    rewrite forallb_forall in Hb. apply Hb, budget_ok_facts in He as (_ & H2 & _).
    now apply budget_part_lacks.
Qed.

Lemma transaction_ok_facts (t : Transaction) :
  transaction_ok t = true ->
  field_ok t.(date) = true /\ field_ok t.(category) = true
  /\ field_ok t.(description) = true /\ float_ok t.(amount) = true
  /\ Ascii.eqb t.(type) ch_pipe = false /\ Ascii.eqb t.(type) ch_nl = false
  /\ in_int t.(id) = true.
Proof.
  unfold transaction_ok. intros H.
  apply andb_true_iff in H as [H H7]. apply andb_true_iff in H as [H H6].
  apply andb_true_iff in H as [H H5]. apply andb_true_iff in H as [H H4].
  apply andb_true_iff in H as [H H3]. apply andb_true_iff in H as [H1 H2].
  apply negb_true_iff in H5, H6. auto 10.
Qed.

Lemma split_trans_line (t : Transaction) :
  transaction_ok t = true ->
  split (trans_line t) ch_pipe
  = [lit "TRANS"; to_string t.(id); t.(date); t.(category); t.(description);
     print_float t.(amount); [t.(type)]].
Proof.
  intros H. apply transaction_ok_facts in H as (H1 & H2 & H3 & _ & H5 & _).
  apply field_ok_lacks in H1 as [H1 _], H2 as [H2 _], H3 as [H3 _].
  unfold trans_line.
  change (lit "TRANS|" ++ to_string (id t) ++ lit "|" ++ date t ++ lit "|"
            ++ category t ++ lit "|" ++ description t ++ lit "|"
            ++ print_float (amount t) ++ lit "|" ++ [type t])
    with (lit "TRANS" ++ ch_pipe :: to_string (id t) ++ ch_pipe :: date t
            ++ ch_pipe :: category t ++ ch_pipe :: description t
            ++ ch_pipe :: print_float (amount t) ++ ch_pipe :: [type t]).
  rewrite (split_cons ch_pipe (lit "TRANS")) by reflexivity.
  rewrite (split_cons ch_pipe (to_string (id t))) by now apply to_string_lacks.
  rewrite (split_cons ch_pipe (date t)) by assumption.
  rewrite (split_cons ch_pipe (category t)) by assumption.
  rewrite (split_cons ch_pipe (description t)) by assumption.
  rewrite (split_cons ch_pipe (print_float (amount t))) by now apply print_float_lacks.
  rewrite split_last; [reflexivity| |discriminate].
  simpl. now rewrite H5.
Qed.

Lemma load_trans_line_ok (us : list UserProfile) (x : UserProfile) (t : Transaction) :
  transaction_ok t = true ->
  load_line (us ++ [x], Some (List.length us)) (trans_line t)
  = Ok (us ++ [add_loaded t x], Some (List.length us)).
Proof.
  intros H. unfold load_line.
  rewrite (split_trans_line t H).
  apply transaction_ok_facts in H as (_ & _ & _ & H4 & _ & _ & H7).
  unfold trans_line at 1 2 3 4.
  set (body := to_string (id t) ++ _).
  change (starts_with (lit "USER|") (lit "TRANS|" ++ body)) with false.
  change (starts_with (lit "NEXT_ID|") (lit "TRANS|" ++ body)) with false.
  change (starts_with (lit "BUDGETS|") (lit "TRANS|" ++ body)) with false.
  change (starts_with (lit "TRANS|") (lit "TRANS|" ++ body)) with true.
  cbv iota. simpl andb. cbv iota.
  unfold load_trans_parts. cbn [List.length Nat.eqb nth hd].
  rewrite stoi_to_string, float_ok_stof by assumption. simpl bind.
  unfold on_current. cbn [fst snd]. rewrite update_at_last.
  now destruct t.
Qed.

Lemma load_trans_lines_ok (us : list UserProfile) (l : list Transaction)
    (x : UserProfile) :
  forallb transaction_ok l = true ->
  load_lines (us ++ [x], Some (List.length us)) (map trans_line l)
  = Ok (us ++ [with_transactions x (x.(transactions) ++ l)],
        Some (List.length us)).
Proof.
  revert x. induction l as [|t l IH]; intros x H; cbn [map load_lines].
  - rewrite app_nil_r. now destruct x.
  - simpl in H. apply andb_true_iff in H as [H1 H2].
    rewrite load_trans_line_ok by assumption. simpl bind.
    rewrite IH by assumption. unfold add_loaded, with_transactions. simpl.
    now rewrite <- app_assoc.
Qed.

Lemma load_enduser_line (st : load_state) :
  load_line st (lit "ENDUSER") = Ok (fst st, None).
Proof. reflexivity. Qed.

Lemma profile_ok_facts (u : UserProfile) :
  profile_ok u = true ->
  field_ok u.(username) = true /\ field_ok u.(password) = true
  /\ in_int u.(next_transaction_id) = true
  /\ map_sorted u.(budgetPerCategory) = true
  /\ forallb budget_ok u.(budgetPerCategory) = true
  /\ forallb transaction_ok u.(transactions) = true.
Proof.
  unfold profile_ok. intros H.
  apply andb_true_iff in H as [H H6]. apply andb_true_iff in H as [H H5].
  apply andb_true_iff in H as [H H4]. apply andb_true_iff in H as [H H3].
  apply andb_true_iff in H as [H1 H2]. auto 10.
Qed.

(** The lines of one profile rebuild it at the end of the vector. *)
Lemma load_user_lines_ok (us : list UserProfile) (cur : option nat) (u : UserProfile) :
  profile_ok u = true ->
  load_lines (us, cur) (user_lines u) = Ok (us ++ [u], None).
Proof.
  intros H. apply profile_ok_facts in H as (H1 & H2 & H3 & H4 & H5 & H6).
  apply field_ok_lacks in H1 as [H1 _], H2 as [H2 _].
  unfold user_lines. cbn [app load_lines].
  rewrite load_user_line_ok by assumption. cbn [bind].
  rewrite load_next_id_line_ok by assumption. cbn [bind].
  rewrite load_budgets_line_ok by (assumption || reflexivity). cbn [bind].
  rewrite load_lines_app, load_trans_lines_ok by assumption. cbn [bind load_lines].
  rewrite load_enduser_line. cbn [bind fst].
  unfold with_transactions, set_budgets, set_next_id. simpl.
  now destruct u.
Qed.

Lemma load_registry_lines_ok (r us : list UserProfile) (cur : option nat) :
  registry_ok r = true ->
  exists cur', load_lines (us, cur) (flat_map user_lines r) = Ok (us ++ r, cur').
Proof.
  revert us cur. induction r as [|u r IH]; intros us cur H; cbn [flat_map].
  - exists cur. now rewrite app_nil_r.
  - simpl in H. apply andb_true_iff in H as [H1 H2].
    rewrite load_lines_app, load_user_lines_ok by assumption. cbn [bind].
    destruct (IH (us ++ [u]) None H2) as [cur' E]. exists cur'.
    now rewrite E, <- app_assoc.
Qed.

Lemma trans_line_lacks_nl (t : Transaction) :
  transaction_ok t = true -> lacks ch_nl (trans_line t) = true.
Proof.
  intros H. apply transaction_ok_facts in H as (H1 & H2 & H3 & _ & _ & H6 & _).
  apply field_ok_lacks in H1 as [_ H1], H2 as [_ H2], H3 as [_ H3].
  unfold trans_line.
  rewrite !lacks_app, H1, H2, H3, to_string_lacks, print_float_lacks by reflexivity.
  simpl. now rewrite H6.
Qed.

Lemma joined_lacks (c d : ascii) (ls : list str) :
  Ascii.eqb d c = false -> forallb (lacks c) ls = true ->
  lacks c (joined d ls) = true.
Proof.
  intros Hd. unfold joined. induction ls as [|l ls IH]; simpl; [reflexivity|].
  intros H. apply andb_true_iff in H as [H1 H2].
  rewrite !lacks_app, H1, IH by assumption. simpl. now rewrite Hd.
Qed.

Lemma user_lines_lack_nl (u : UserProfile) :
  profile_ok u = true -> forallb (lacks ch_nl) (user_lines u) = true.
Proof.
  intros H. apply profile_ok_facts in H as (H1 & H2 & _ & _ & H5 & H6).
  apply field_ok_lacks in H1 as [_ H1], H2 as [_ H2].
  unfold user_lines. rewrite !forallb_app. cbn [forallb].
  rewrite !lacks_app, H1, H2, to_string_lacks by reflexivity.
  rewrite joined_lacks; [| reflexivity |].
  - simpl. rewrite andb_true_r. rewrite forallb_forall. intros l Hl.
    apply in_map_iff in Hl as (t & <- & Ht). rewrite forallb_forall in H6.
    now apply trans_line_lacks_nl, H6.
  - rewrite forallb_forall. intros l Hl.
    apply in_map_iff in Hl as (e & <- & He). rewrite forallb_forall in H5.
    apply H5, budget_ok_facts in He as (_ & _ & H3 & _).
    now apply budget_part_lacks.
Qed.

Lemma registry_lines_lack_nl (r : list UserProfile) :
  registry_ok r = true -> forallb (lacks ch_nl) (flat_map user_lines r) = true.
Proof.
  induction r as [|u r IH]; cbn [flat_map]; [reflexivity|].
  intros H. cbn [registry_ok forallb] in H. apply andb_true_iff in H as [H1 H2].
  now rewrite forallb_app, user_lines_lack_nl, IH.
Qed.

(** C1 (amended). A registry whose texts hold none of the separators of
    the file format, whose amounts survive six significant digits, and
    whose integers are [int]s is read back as it was written: the same
    profiles in the same order, each with its credentials, counter,
    budget map and transactions. *)
Theorem load_after_save_restores_registry :
  forall (r old : list UserProfile),
    registry_ok r = true ->
    loadFromFile (Some (saveToFile r)) old = Ok r.
Proof.
  intros r old H. unfold loadFromFile, load_text.
  rewrite saveToFile_lines, <- (app_nil_r (unlines _)).
  rewrite split_unlines by now apply registry_lines_lack_nl.
  rewrite split_nil, app_nil_r.
  destruct (load_registry_lines_ok r [] None H) as [cur' E].
  now rewrite E.
Qed.

(** The theorem at a registry of two profiles, loaded over an old
    registry. *)
Lemma load_after_save_restores_registry_witness :
  loadFromFile (Some (saveToFile [sample_user; fresh_profile (lit "bob") (lit "b")]))
               [sample_user]
  = Ok [sample_user; fresh_profile (lit "bob") (lit "b")].
Proof.
  apply (load_after_save_restores_registry
           [sample_user; fresh_profile (lit "bob") (lit "b")] [sample_user]).
  vm_compute. reflexivity.
Defined.

(** C1, as stated, fails on a description holding the field separator:
    the transaction is written as a line of eight parts, which the
    loader skips. *)
Lemma load_after_save_loses_piped_description :
  loadFromFile (Some (saveToFile [piped_user])) []
  = Ok [with_transactions piped_user []]
  /\ loadFromFile (Some (saveToFile [piped_user])) [] <> Ok [piped_user].
Proof.
  split; [vm_compute; reflexivity|]. vm_compute. discriminate.
Qed.

(** Six significant digits do not hold every amount: 12345.67 is
    written as 12345.7 and read back as another number. *)
Lemma six_digits_lose_cents :
  stof (lit "12345.67") = Ok cents_amount
  /\ print_float cents_amount = lit "12345.7"
  /\ float_ok cents_amount = false.
Proof. repeat split; vm_compute; reflexivity. Qed.

(** ** Budget report *)

Lemma map_get_touch (k k' : str) (m : smap) :
  map_get k (map_update k' (fun v => v) m) = map_get k m.
Proof.
  destruct (str_eqb k k') eqn:E.
  - apply str_eqb_eq in E. subst k'. now rewrite map_get_update_same.
  - apply map_get_update_other. intros ->. now rewrite str_eqb_refl in E.
Qed.

Lemma budget_loop_rows (budgets expenses : smap) :
  fst (budget_loop budgets expenses)
  = map (budget_row_of (fun k => map_get k expenses)) budgets.
Proof.
  revert expenses. induction budgets as [|[cat budget] rest IH]; intros expenses;
    cbn [budget_loop map]; [reflexivity|].
  unfold map_at. specialize (IH (map_update cat (fun v => v) expenses)).
  destruct (budget_loop rest _) as [rows exceeded]. cbn [fst] in *.
  rewrite IH. f_equal. apply map_ext. intros e. unfold budget_row_of.
  now rewrite !map_get_touch.
Qed.

(** The report has one line for each category of the budget map, in the
    map's order; what was spent is the float sum of the expenses of
    that category, and the colour is decided from it. *)
Lemma drawBudgetReport_rows (user : UserProfile) :
  fst (drawBudgetReport user)
  = map (budget_row_of
           (fun k => fsum_from fzero
                       (amounts_for expense_entry k user.(transactions))))
        user.(budgetPerCategory).
Proof.
  unfold drawBudgetReport. rewrite budget_loop_rows.
  apply map_ext. intros e. unfold budget_row_of.
  rewrite calculateExpensesByCategory_accumulate, !map_get_accumulate.
  reflexivity.
Qed.

(** C4. At the threshold the report does not warn: with a budget of 20
    and 18 spent, which is exactly nine tenths, the float quotient is
    below the double 0.9 and the line stays black. *)
Theorem budget_report_misses_warning_at_threshold :
  near_budget_user.(budgetPerCategory) = [(lit "Food", float_of_Z 20)]
  /\ map amount near_budget_user.(transactions) = [float_of_Z 18]
  /\ ratio_eqb (float_ratio (float_of_Z 18)) (9 * fst (float_ratio (float_of_Z 20)),
                                              10 * snd (float_ratio (float_of_Z 20)))
     = true
  /\ budget_color (float_of_Z 18) (float_of_Z 20) = COLOR_BLACK
  /\ drawBudgetReport near_budget_user
     = ([mkBudgetRow (lit "Food") (float_of_Z 20) (float_of_Z 18) COLOR_BLACK],
        false).
Proof. repeat split; vm_compute; reflexivity. Qed.

(** ** Time series *)

Lemma series_rows_from_income (sorted_income : list (str * float)) (expenses : smap) :
  series_rows sorted_income expenses
  = map (fun e => mkSeriesRow (fst e) (snd e) (map_get (fst e) expenses)
                              (fsub (snd e) (map_get (fst e) expenses)))
        sorted_income.
Proof.
  revert expenses. induction sorted_income as [|[key inc] rest IH];
    intros expenses; cbn [series_rows map]; [reflexivity|].
  unfold map_at. cbn [fst snd]. f_equal. rewrite IH. apply map_ext.
  intros e. now rewrite map_get_touch.
Qed.

(** The lines of both summaries come from the entries of the income
    maps alone; each has the expense found under its key (zero when
    there is none) and their float difference as net. *)
Lemma draw_time_series_report_rows (user : UserProfile) :
  let s := series_of user.(transactions) in
  let row (expenses : smap) (e : str * float) :=
    mkSeriesRow (fst e) (snd e) (map_get (fst e) expenses)
                (fsub (snd e) (map_get (fst e) expenses)) in
  draw_time_series_report user
  = (map (row s.(monthly_expense)) (sort s.(monthly_income)),
     map (row s.(yearly_expense)) (sort s.(yearly_income))).
Proof.
  unfold draw_time_series_report. cbv zeta.
  now rewrite !series_rows_from_income.
Qed.

(** C3. A month with expenses and no income is not reported: the
    expense is accumulated under its month and year keys, and neither
    summary has a line for it. *)
Theorem time_series_drops_expense_only_periods :
  map (fun t => (t.(date), t.(type), t.(amount))) expense_only_user.(transactions)
  = [(lit "2024-01-20", "E"%char, float_of_Z 40)]
  /\ monthly_expense (series_of expense_only_user.(transactions))
     = [(lit "2024-01", float_of_Z 40)]
  /\ yearly_expense (series_of expense_only_user.(transactions))
     = [(lit "2024", float_of_Z 40)]
  /\ draw_time_series_report expense_only_user = ([], []).
Proof. repeat split; vm_compute; reflexivity. Qed.

(** ** A [TRANS] line with the wrong number of fields *)











(** Six fields and a ['|'] at the end of the line are six fields: such
    a line is not skipped, it is loaded as a transaction. *)
Lemma trans_line_ending_in_pipe_is_loaded :
  fields_after_tag (lit "TRANS|7|2024-03-01|Food|lunch|5|E|") = 6%nat
  /\ exists users,
       load_text (unlines lines_before
                    ++ lit "TRANS|7|2024-03-01|Food|lunch|5|E|" ++ [ch_nl]
                    ++ text_after) = Ok users
       /\ map (fun u => map id (transactions u)) users = [[1; 7; 2; 3]; []].
Proof.
  split; [reflexivity|]. eexists. split; vm_compute; reflexivity.
Qed.

(** ** Loading a damaged file *)

(** C5. A number that cannot be parsed makes the loader throw: the
    exceptions of [stoi] and [stof] leave [loadFromFile]. *)
Theorem load_throws_on_malformed_number :
  (forall users, loadFromFile (Some bad_next_id_file) users = Throw invalid_argument)
  /\ (forall users, loadFromFile (Some bad_amount_file) users = Throw invalid_argument).
Proof. split; intros users; vm_compute; reflexivity. Qed.

(** ** Texts the date parser accepts *)

(** C10. The parser accepts text after the day, white space around the
    numbers and negative numbers. *)
Theorem parse_date_accepts_more_than_dates :
  parse_date (lit "2024-1-5abc") = Some (2024, 1, 5)
  /\ parse_date (lit " 2024 - 1 -  5") = Some (2024, 1, 5)
  /\ parse_date (lit "-2024--1--5") = Some (-2024, -1, -5).
Proof. repeat split; vm_compute; reflexivity. Qed.

(** ** More on the map *)

Lemma str_ltb_trans (a b c : str) :
  str_ltb a b = true -> str_ltb b c = true -> str_ltb a c = true.
Proof.
  unfold str_ltb. intros H1 H2.
  destruct (str_compare a b) eqn:E1; try discriminate.
  destruct (str_compare b c) eqn:E2; try discriminate.
  now rewrite (str_compare_lt_trans _ _ _ E1 E2).
Qed.

Lemma str_compare_gt_ltb (a b : str) : str_compare a b = Gt -> str_ltb b a = true.
Proof. intros H. unfold str_ltb. now rewrite str_compare_antisym, H. Qed.

Lemma str_ltb_compare (a b : str) : str_ltb a b = true -> str_compare b a = Gt.
Proof.
  unfold str_ltb. intros H. rewrite str_compare_antisym.
  now destruct (str_compare a b).
Qed.

Lemma map_update_keys (k : str) (f : float -> float) (m : smap) (e : str * float) :
  In e (map_update k f m) -> fst e = k \/ In (fst e) (map fst m).
Proof.
  induction m as [|[k' v] r IH]; simpl.
  - intros [<-|[]]. now left.
  - destruct (str_compare k k') eqn:E; simpl.
    + intros [<-|H]; simpl; auto. right. right. now apply in_map.
    + intros [<-|[<-|H]]; simpl; auto. right. right. now apply in_map.
    + intros [<-|H]; simpl; auto. destruct (IH H); auto.
Qed.

Lemma map_sorted_head (k : str) (v : float) (r : smap) :
  map_sorted ((k, v) :: r) = true
  <-> (forall e, In e r -> str_ltb k (fst e) = true) /\ map_sorted r = true.
Proof.
  simpl. rewrite andb_true_iff, forallb_forall. reflexivity.
Qed.

Lemma map_update_sorted (k : str) (f : float -> float) (m : smap) :
  map_sorted m = true -> map_sorted (map_update k f m) = true.
Proof.
  induction m as [|[k' v] r IH]; intros H; [reflexivity|].
  apply map_sorted_head in H as [H1 H2]. cbn [map_update].
  destruct (str_compare k k') eqn:E.
  - apply map_sorted_head. auto.
  - apply map_sorted_head. split.
    + intros e [<-|He]; simpl.
      * unfold str_ltb. now rewrite E.
      * apply (str_ltb_trans k k'); [unfold str_ltb; now rewrite E|auto].
    + apply map_sorted_head. auto.
  - apply map_sorted_head. split; [|auto].
    intros e He. destruct (map_update_keys _ _ _ _ He) as [->|Hin].
    + now apply str_compare_gt_ltb.
    + apply in_map_iff in Hin as (e' & Ee & He'). rewrite <- Ee. auto.
Qed.

Lemma map_find_In (m : smap) (k : str) (v : float) :
  map_sorted m = true -> In (k, v) m -> map_find k m = Some v.
Proof.
  induction m as [|[k' v'] r IH]; intros H Hin; [contradiction|].
  apply map_sorted_head in H as [H1 H2]. cbn [map_find].
  destruct Hin as [E|Hin].
  - injection E as -> ->. now rewrite str_compare_refl.
  - specialize (H1 _ Hin). simpl in H1.
    rewrite (str_ltb_compare _ _ H1). auto.
Qed.

Lemma map_find_Some_In (m : smap) (k : str) (v : float) :
  map_find k m = Some v -> In (k, v) m.
Proof.
  induction m as [|[k' v'] r IH]; simpl; [discriminate|].
  destruct (str_compare k k') eqn:E; try discriminate.
  - apply str_compare_eq in E. subst k'. intros [= ->]. now left.
  - intros H. right. auto.
Qed.

Lemma map_sorted_ascending (m : smap) :
  map_sorted m = true ->
  StronglySorted (fun a b => str_ltb a b = true) (map fst m).
Proof.
  induction m as [|[k v] r IH]; intros H; simpl; [constructor|].
  apply map_sorted_head in H as [H1 H2]. constructor; [auto|].
  apply Forall_forall. intros x Hx. apply in_map_iff in Hx as (e & <- & He). auto.
Qed.

Section AccumulateMore.
Context {A : Type}.
Variable entry : A -> option (str * float).

Lemma accumulate_sorted (l : list A) (m : smap) :
  map_sorted m = true -> map_sorted (accumulate entry l m) = true.
Proof.
  unfold accumulate. revert m. induction l as [|x l IH]; intros m H; simpl; [assumption|].
  apply IH. destruct (entry x) as [[k a]|]; [|assumption].
  now apply map_update_sorted.
Qed.

Lemma map_find_accumulate (k : str) (l : list A) (m : smap) :
  map_find k (accumulate entry l m)
  = match map_find k m, amounts_for entry k l with
    | None, [] => None
    | _, a => Some (fsum_from (map_get k m) a)
    end.
Proof.
  unfold accumulate, fsum_from. revert m.
  induction l as [|x l IH]; intros m; cbn [fold_left amounts_for flat_map].
  - unfold map_get. now destruct (map_find k m).
  - rewrite IH. fold (amounts_for entry k l).
    destruct (entry x) as [[k' a]|]; [|reflexivity].
    destruct (str_eqb k' k) eqn:E.
    + apply str_eqb_eq in E. subst k'. unfold map_add.
      rewrite map_find_update_same, map_get_update_same. cbn [app fold_left].
      destruct (map_find k m); reflexivity.
    + assert (N : k <> k') by (intros ->; now rewrite str_eqb_refl in E).
      unfold map_add. rewrite map_find_update_other, map_get_update_other by assumption.
      reflexivity.
Qed.
End AccumulateMore.

Lemma expense_amounts (k : str) (l : list Transaction) :
  amounts_for expense_entry k l
  = map amount (filter (fun t => is_E t.(type) && str_eqb t.(category) k) l).
Proof.
  unfold amounts_for, expense_entry.
  induction l as [|t l IH]; simpl; [reflexivity|]. rewrite IH.
  destruct (is_E (type t)); simpl; [|reflexivity].
  now destruct (str_eqb (category t) k).
Qed.

(** X1. [calculateExpensesByCategory] has an entry for exactly the
    categories that have an expense; the entry holds the float sum of
    those expenses in ledger order, and the entries are in increasing
    key order. *)
Theorem expenses_by_category_entries :
  forall (l : list Transaction) (k : str),
    let spent := map amount (filter (fun t => is_E t.(type)
                                              && str_eqb t.(category) k) l) in
    map_find k (calculateExpensesByCategory l)
    = match spent with
      | [] => None
      | _ => Some (fsum_from fzero spent)
      end
    /\ map_sorted (calculateExpensesByCategory l) = true.
Proof.
  intros l k spent. rewrite calculateExpensesByCategory_accumulate. split.
  - rewrite map_find_accumulate, expense_amounts. fold spent.
    now destruct spent.
  - now apply accumulate_sorted.
Qed.

(** ** Setting a budget *)

(** X2. [set_budget_ui] with a category, and an amount text that [stof]
    reads, makes that amount the category's budget, replacing an older
    one, and leaves every other category's budget as it was; with an
    empty text or an unreadable amount it changes nothing.  It never
    touches the transactions or the counter, and keeps the budget map
    in key order. *)
Theorem set_budget_sets_one_category :
  forall (user : UserProfile) (c a : str),
    let user' := set_budget_ui user c a in
    user'.(transactions) = user.(transactions)
    /\ user'.(next_transaction_id) = user.(next_transaction_id)
    /\ user'.(username) = user.(username)
    /\ user'.(password) = user.(password)
    /\ (forall v, is_empty c = false -> is_empty a = false -> stof a = Ok v ->
          map_find c user'.(budgetPerCategory) = Some v
          /\ forall k, k <> c -> map_find k user'.(budgetPerCategory)
                                 = map_find k user.(budgetPerCategory))
    /\ ((is_empty c = true \/ is_empty a = true \/ exists e, stof a = Throw e) ->
          user' = user)
    /\ (map_sorted user.(budgetPerCategory) = true ->
          map_sorted user'.(budgetPerCategory) = true).
Proof.
  intros user c a user'. subst user'. unfold set_budget_ui.
  destruct (is_empty c) eqn:Ec.
  { repeat split; auto; intros; discriminate. }
  destruct (is_empty a) eqn:Ea.
  { repeat split; auto; intros; discriminate. }
  destruct (stof a) as [v|e] eqn:Es.
  - cbn [transactions next_transaction_id username password budgetPerCategory].
    repeat split; auto.
    + injection H1 as <-. unfold map_set. now rewrite map_find_update_same.
    + intros k N. unfold map_set. now apply map_find_update_other.
    + intros [H|[H|[e H]]]; discriminate.
    + unfold map_set. apply map_update_sorted.
  - repeat split; auto; intros; discriminate.
Qed.

(** ** The lines of the time series *)

Lemma sort_insert_first (x : str * float) (l : list (str * float)) :
  (forall e, In e l -> str_ltb (fst x) (fst e) = true) -> sort_insert x l = x :: l.
Proof.
  destruct l as [|y r]; [reflexivity|]. intros H. cbn [sort_insert].
  assert (Hy : str_ltb (fst x) (fst y) = true) by (apply H; now left).
  unfold pair_ltb. rewrite Hy. cbn [negb andb].
  unfold str_ltb. rewrite (str_ltb_compare _ _ Hy). reflexivity.
Qed.

Lemma sort_sorted (m : smap) : map_sorted m = true -> sort m = m.
Proof.
  unfold sort. induction m as [|[k v] r IH]; intros H; [reflexivity|].
  apply map_sorted_head in H as [H1 H2]. cbn [fold_right].
  rewrite IH by assumption. now apply sort_insert_first.
Qed.

Lemma series_of_sorted (l : list Transaction) :
  map_sorted (monthly_income (series_of l)) = true
  /\ map_sorted (yearly_income (series_of l)) = true.
Proof.
  unfold series_of.
  destruct (series_of_maps l (mkSeries [] [] [] [])) as (H1 & _ & H3 & _).
  cbv zeta in H1, H3. rewrite H1, H3. split; now apply accumulate_sorted.
Qed.

Lemma income_entry_amounts (key : Z -> Z -> str) (l : list Transaction)
    (k : str) (v : float) :
  In (k, v) (accumulate (series_entry true key) l []) ->
  v = fsum_from fzero (amounts_for (series_entry true key) k l)
  /\ amounts_for (series_entry true key) k l <> [].
Proof.
  intros H. apply map_find_In in H; [|now apply accumulate_sorted].
  rewrite map_find_accumulate in H. cbn [map_find] in H.
  destruct (amounts_for (series_entry true key) k l) eqn:E; [discriminate|].
  injection H as <-. split; [reflexivity|discriminate].
Qed.

Lemma income_entry_present (key : Z -> Z -> str) (l : list Transaction) (k : str) :
  amounts_for (series_entry true key) k l <> [] ->
  exists v, In (k, v) (accumulate (series_entry true key) l []).
Proof.
  intros H.
  destruct (map_find k (accumulate (series_entry true key) l [])) as [v|] eqn:E.
  - exists v. now apply map_find_Some_In.
  - rewrite map_find_accumulate in E. cbn [map_find] in E.
    now destruct (amounts_for (series_entry true key) k l).
Qed.

(** The lines of one summary, for the key function [key]. *)
Lemma summary_lines (key : Z -> Z -> str) (l : list Transaction) :
  let income_map := accumulate (series_entry true key) l [] in
  let expense_map := accumulate (series_entry false key) l [] in
  lines_of_periods key l (series_rows (sort income_map) expense_map).
Proof.
  intros income_map expense_map. unfold lines_of_periods.
  set (rows := series_rows (sort income_map) expense_map).
  assert (Hs : map_sorted income_map = true) by now apply accumulate_sorted.
  assert (Hr : rows = map (fun e => mkSeriesRow (fst e) (snd e)
                                      (map_get (fst e) expense_map)
                                      (fsub (snd e) (map_get (fst e) expense_map)))
                          income_map).
  { subst rows. now rewrite sort_sorted, series_rows_from_income. }
  rewrite Hr. split; [|split].
  - rewrite map_map. cbn [period]. now apply map_sorted_ascending.
  - intros row Hin. apply in_map_iff in Hin as ([k v] & <- & Hin).
    cbn [period income expense net fst snd].
    destruct (income_entry_amounts key l k v Hin) as [Hv Hne].
    repeat split; auto. subst expense_map. now rewrite map_get_accumulate.
  - intros k Hk. destruct (income_entry_present key l k Hk) as [v Hin].
    eexists. split; [apply in_map_iff; exists (k, v); split; [reflexivity|exact Hin]|].
    reflexivity.
Qed.

(** X3. Each summary of [draw_time_series_report] has one line for
    every period in which a dated transaction of kind I falls, and no
    other line; the periods are strictly increasing in string order;
    a line's income and expense are the float sums, in ledger order, of
    the period's kind-I amounts and of its other amounts, and its net
    is their float difference. *)
Theorem time_series_lines :
  forall (user : UserProfile),
    lines_of_periods month_key user.(transactions)
                     (fst (draw_time_series_report user))
    /\ lines_of_periods (fun y _ => year_key y) user.(transactions)
                        (snd (draw_time_series_report user)).
Proof.
  intros user. unfold draw_time_series_report, series_of.
  destruct (series_of_maps user.(transactions) (mkSeries [] [] [] []))
    as (H1 & H2 & H3 & H4).
  cbv zeta in *. cbn [monthly_income monthly_expense yearly_income yearly_expense] in *.
  cbn [fst snd]. rewrite H1, H2, H3, H4. split.
  - apply (summary_lines month_key).
  - apply (summary_lines (fun y _ => year_key y)).
Qed.

(** ** Period keys *)

Lemma to_string_four_digits (y : Z) :
  1000 <= y <= 9999 ->
  to_string y = [digit_char (y / 1000); digit_char (y / 100 mod 10);
                 digit_char (y / 10 mod 10); digit_char (y mod 10)].
Proof.
  intros H. unfold to_string.
  assert (E0 : (y <? 0) = false) by (apply Z.ltb_ge; lia). rewrite E0.
  unfold digits_fuel.
  assert (Hl : 9 <= Z.log2 y).
  { change 9 with (Z.log2 1000). apply Z.log2_le_mono. lia. }
  destruct (Z.to_nat (Z.log2 y)) as [|[|[|n]]] eqn:En; try lia.
  cbn [nat_digits].
  assert (E1 : (y / 10 =? 0) = false) by (apply Z.eqb_neq; Z.div_mod_to_equations; lia).
  assert (E2 : (y / 10 / 10 =? 0) = false) by (apply Z.eqb_neq; Z.div_mod_to_equations; lia).
  assert (E3 : (y / 10 / 10 / 10 =? 0) = false) by (apply Z.eqb_neq; Z.div_mod_to_equations; lia).
  assert (E4 : (y / 10 / 10 / 10 / 10 =? 0) = true) by (apply Z.eqb_eq; Z.div_mod_to_equations; lia).
  rewrite E1, E2, E3, E4. clear E1 E2 E3 E4.
  assert (D2 : y / 10 / 10 = y / 100) by (rewrite Z.div_div by lia; reflexivity).
  assert (D3 : y / 100 / 10 = y / 1000) by (rewrite Z.div_div by lia; reflexivity).
  rewrite D2, D3.
  rewrite (Z.mod_small (y / 1000) 10) by (Z.div_mod_to_equations; lia).
  reflexivity.
Qed.

Lemma padded_two_digits (m : Z) :
  0 <= m <= 99 ->
  (if m <? 10 then lit "0" else []) ++ to_string m
  = [digit_char (m / 10); digit_char (m mod 10)].
Proof.
  intros H. unfold to_string.
  assert (E0 : (m <? 0) = false) by (apply Z.ltb_ge; lia). rewrite E0.
  unfold digits_fuel. destruct (m <? 10) eqn:E.
  - apply Z.ltb_lt in E. cbn [nat_digits].
    assert (E1 : (m / 10 =? 0) = true) by (apply Z.eqb_eq; Z.div_mod_to_equations; lia).
    rewrite E1. apply Z.eqb_eq in E1. rewrite E1. reflexivity.
  - apply Z.ltb_ge in E.
    assert (Hl : 3 <= Z.log2 m).
    { change 3 with (Z.log2 10). apply Z.log2_le_mono. lia. }
    destruct (Z.to_nat (Z.log2 m)) as [|n] eqn:En; try lia.
    cbn [nat_digits app].
    assert (E1 : (m / 10 =? 0) = false) by (apply Z.eqb_neq; Z.div_mod_to_equations; lia).
    assert (E2 : (m / 10 / 10 =? 0) = true) by (apply Z.eqb_eq; Z.div_mod_to_equations; lia).
    rewrite E1, E2.
    rewrite (Z.mod_small (m / 10) 10) by (Z.div_mod_to_equations; lia).
    reflexivity.
Qed.

Lemma str_compare_digits (a b : Z) (s t : str) :
  0 <= a <= 9 -> 0 <= b <= 9 ->
  str_compare (digit_char a :: s) (digit_char b :: t)
  = match a ?= b with Eq => str_compare s t | c => c end.
Proof.
  intros Ha Hb. cbn [str_compare]. unfold digit_char.
  rewrite !code_chr by lia. now rewrite Z.add_compare_mono_l.
Qed.

Lemma str_compare_same_head (c : ascii) (s t : str) :
  str_compare (c :: s) (c :: t) = str_compare s t.
Proof. cbn [str_compare]. now rewrite Z.compare_refl. Qed.

(** X4. For years of four digits and months from 0 to 99, the month
    keys compare as strings the way their (year, month) pairs compare,
    and the year keys the way the years do: the string order of the
    lines of a summary is their order in time. *)
Theorem period_keys_sort_by_date :
  forall (y m y' m' : Z),
    1000 <= y <= 9999 -> 1000 <= y' <= 9999 ->
    0 <= m <= 99 -> 0 <= m' <= 99 ->
    str_compare (month_key y m) (month_key y' m')
    = match y ?= y' with Eq => m ?= m' | c => c end
    /\ str_compare (year_key y) (year_key y') = (y ?= y').
Proof.
  intros y m y' m' Hy Hy' Hm Hm'. unfold month_key, year_key.
  rewrite !padded_two_digits, !to_string_four_digits by assumption.
  cbn [app lit list_ascii_of_string].
  assert (D : forall z, 0 <= z mod 10 <= 9) by (intros z; pose proof (Z.mod_pos_bound z 10); lia).
  assert (Y3 : 0 <= y / 1000 <= 9) by (Z.div_mod_to_equations; lia).
  assert (Y3' : 0 <= y' / 1000 <= 9) by (Z.div_mod_to_equations; lia).
  assert (M1 : 0 <= m / 10 <= 9) by (Z.div_mod_to_equations; lia).
  assert (M1' : 0 <= m' / 10 <= 9) by (Z.div_mod_to_equations; lia).
  rewrite !str_compare_digits, str_compare_same_head, !str_compare_digits by auto.
  cbn [str_compare].
  assert (Ey : y = 1000 * (y / 1000) + 100 * (y / 100 mod 10)
                   + 10 * (y / 10 mod 10) + y mod 10)
    by (Z.div_mod_to_equations; lia).
  assert (Ey' : y' = 1000 * (y' / 1000) + 100 * (y' / 100 mod 10)
                     + 10 * (y' / 10 mod 10) + y' mod 10)
    by (Z.div_mod_to_equations; lia).
  assert (Em : m = 10 * (m / 10) + m mod 10) by (Z.div_mod_to_equations; lia).
  assert (Em' : m' = 10 * (m' / 10) + m' mod 10) by (Z.div_mod_to_equations; lia).
  pose proof (D y) as D0. pose proof (D (y / 10)) as D1. pose proof (D (y / 100)) as D2.
  pose proof (D y') as D0'. pose proof (D (y' / 10)) as D1'. pose proof (D (y' / 100)) as D2'.
  pose proof (D m) as DM. pose proof (D m') as DM'. clear D.
  generalize dependent (y / 1000). generalize dependent (y / 100 mod 10).
  generalize dependent (y / 10 mod 10). generalize dependent (y mod 10).
  generalize dependent (y' / 1000). generalize dependent (y' / 100 mod 10).
  generalize dependent (y' / 10 mod 10). generalize dependent (y' mod 10).
  generalize dependent (m / 10). generalize dependent (m mod 10).
  generalize dependent (m' / 10). generalize dependent (m' mod 10).
  intros. subst y y' m m'. split; compare_cases.
Qed.

Lemma period_keys_sort_by_date_witness :
  str_compare (month_key 2023 12) (month_key 2024 1)
  = match 2023 ?= 2024 with Eq => 12 ?= 1 | c => c end
  /\ str_compare (year_key 2023) (year_key 2024) = (2023 ?= 2024).
Proof.
  apply (period_keys_sort_by_date 2023 12 2024 1); lia.
Defined.

(** ** Dates written by the program *)

Lemma to_string_token (n : Z) : in_int n = true -> int_token (to_string n) n.
Proof.
  intros Hn. destruct (to_string_spec n) as (sg & ds & E & Hs & N & D & V).
  exists sg, ds. unfold in_int in Hn. apply andb_true_iff in Hn as [I1 I2].
  apply Z.leb_le in I1, I2. repeat split; auto. tauto.
Qed.

Lemma to_string_nonneg (m : Z) :
  0 <= m ->
  to_string m <> [] /\ all_digits (to_string m) /\ digits_value (to_string m) = m.
Proof.
  intros H0. unfold to_string.
  assert (E0 : (m <? 0) = false) by (apply Z.ltb_ge; lia). rewrite E0.
  destruct (nat_digits_spec (digits_fuel m) m []) as (ds & E & N & D & V).
  { split; [lia|]. now apply digits_fuel_enough. }
  { unfold digits_fuel. lia. }
  rewrite E, app_nil_r. repeat split; auto.
  unfold digits_value. fold digits_step. rewrite V. lia.
Qed.

Lemma padded_token (m : Z) :
  0 <= m -> in_int m = true ->
  int_token ((if m <? 10 then lit "0" else []) ++ to_string m) m.
Proof.
  intros H0 Hn. destruct (to_string_nonneg m H0) as (N & D & V).
  unfold in_int in Hn. apply andb_true_iff in Hn as [I1 I2].
  apply Z.leb_le in I1, I2.
  exists [], ((if m <? 10 then lit "0" else []) ++ to_string m).
  split; [reflexivity|]. split; [auto|].
  destruct (m <? 10); cbn [lit list_ascii_of_string app].
  - repeat split; auto; try discriminate.
  - repeat split; auto.
Qed.

(** X5. A date written as the month key of a year and a month that is
    not negative, a ['-'] and a day is read back by [parse_date] as
    that year, month and day. *)
Theorem parse_date_reads_written_date :
  forall (y m d : Z),
    in_int y = true -> in_int m = true -> in_int d = true -> 0 <= m ->
    parse_date (month_key y m ++ [ch_dash] ++ to_string d) = Some (y, m, d).
Proof.
  intros y m d Hy Hm Hd H0. apply parse_date_steps. unfold month_key.
  rewrite <- !app_assoc.
  set (mt := (if m <? 10 then lit "0" else []) ++ to_string m).
  exists (lit "-" ++ mt ++ [ch_dash] ++ to_string d),
         (mt ++ [ch_dash] ++ to_string d),
         ([ch_dash] ++ to_string d), (to_string d), [].
  split; [|split; [|split; [|split]]].
  - apply extract_int_iff. exists [], (to_string y).
    repeat split; auto using to_string_token.
    unfold mt. now rewrite <- !app_assoc.
  - reflexivity.
  - apply extract_int_iff. exists [], mt.
    repeat split; auto. now apply padded_token.
  - reflexivity.
  - apply extract_int_iff. exists [], (to_string d).
    repeat split; auto using to_string_token. now rewrite app_nil_r.
Qed.

Lemma parse_date_reads_written_date_witness :
  parse_date (month_key 2024 3 ++ [ch_dash] ++ to_string 9) = Some (2024, 3, 9).
Proof.
  apply (parse_date_reads_written_date 2024 3 9); (reflexivity || lia).
Defined.

(** ** Deleting a transaction *)

Lemma find_if_none {A} (p : A -> bool) (l : list A) :
  find_if p l = None <-> forall x, In x l -> p x = false.
Proof.
  induction l as [|y l IH]; simpl.
  - split; [intros _ x []|reflexivity].
  - destruct (p y) eqn:E.
    + split; [discriminate|]. intros H. specialize (H y (or_introl eq_refl)). congruence.
    + destruct (find_if p l) as [i|]; simpl.
      * split; [discriminate|]. intros H.
        assert (Some i = None) by (apply IH; auto). discriminate.
      * split; [|reflexivity]. intros _ x [<-|Hx]; auto. now apply IH.
Qed.

Lemma find_if_split {A} (p : A -> bool) (l : list A) (i : nat) :
  find_if p l = Some i ->
  exists l1 x l2, l = l1 ++ x :: l2 /\ List.length l1 = i /\ p x = true
                  /\ (forall y, In y l1 -> p y = false)
                  /\ erase_at i l = l1 ++ l2.
Proof.
  revert i. induction l as [|y l IH]; intros i; simpl; [discriminate|].
  destruct (p y) eqn:E.
  - intros [= <-]. exists [], y, l. repeat split; auto. intros z [].
  - destruct (find_if p l) as [k|]; simpl; [|discriminate].
    intros [= <-]. destruct (IH k eq_refl) as (l1 & x & l2 & -> & Hl & Hx & Hn & He).
    exists (y :: l1), x, l2. simpl. rewrite He, Hl. repeat split; auto.
    intros z [<-|Hz]; auto.
Qed.

Lemma delete_cases (user : UserProfile) (id_str : str) :
  let user' := edit_delete_transaction_ui user id_str Delete in
  (user' = user
   /\ (id_str = [] \/ (exists e, stoi id_str = Throw e)
       \/ exists k, stoi id_str = Ok k
                    /\ forall t, In t user.(transactions) -> t.(id) <> k))
  \/ exists k l1 t l2,
       id_str <> [] /\ stoi id_str = Ok k
       /\ user.(transactions) = l1 ++ t :: l2
       /\ t.(id) = k /\ (forall x, In x l1 -> x.(id) <> k)
       /\ user'.(transactions) = l1 ++ l2.
Proof.
  intros user'. subst user'. unfold edit_delete_transaction_ui.
  destruct id_str as [|c s]; cbn [is_empty].
  { left. auto. }
  destruct (stoi (c :: s)) as [k|e] eqn:Es.
  2:{ left. split; auto. right. left. now exists e. }
  destruct (find_if (fun t => id t =? k) (transactions user)) as [it|] eqn:Ef.
  - right. cbn [transactions with_transactions].
    destruct (find_if_split _ _ _ Ef) as (l1 & t & l2 & E & _ & Ht & Hn & He).
    exists k, l1, t, l2. repeat split; auto; try discriminate.
    + now apply Z.eqb_eq.
    + intros x Hx. apply Z.eqb_neq. auto.
  - left. split; auto. right. right. exists k. split; auto.
    intros t Ht. apply Z.eqb_neq. revert t Ht. now apply find_if_none.
Qed.

(** X6. Deleting by an id text removes the first transaction whose id
    is the number read from the text and keeps the others in their
    order; it changes nothing when the text is empty or no number, or
    when no transaction has that id.  The counter, the budgets and the
    credentials are never touched. *)
Theorem delete_removes_first_match :
  forall (user : UserProfile) (id_str : str),
    let user' := edit_delete_transaction_ui user id_str Delete in
    user'.(next_transaction_id) = user.(next_transaction_id)
    /\ user'.(budgetPerCategory) = user.(budgetPerCategory)
    /\ user'.(username) = user.(username)
    /\ user'.(password) = user.(password)
    /\ ((user' = user
         /\ (id_str = [] \/ (exists e, stoi id_str = Throw e)
             \/ exists k, stoi id_str = Ok k
                          /\ forall t, In t user.(transactions) -> t.(id) <> k))
        \/ exists k l1 t l2,
             id_str <> [] /\ stoi id_str = Ok k
             /\ user.(transactions) = l1 ++ t :: l2
             /\ t.(id) = k /\ (forall x, In x l1 -> x.(id) <> k)
             /\ user'.(transactions) = l1 ++ l2).
Proof.
  intros user id_str user'.
  assert (F : user'.(next_transaction_id) = user.(next_transaction_id)
              /\ user'.(budgetPerCategory) = user.(budgetPerCategory)
              /\ user'.(username) = user.(username)
              /\ user'.(password) = user.(password)).
  { subst user'. unfold edit_delete_transaction_ui.
    destruct (is_empty id_str); [auto|].
    destruct (stoi id_str); [|auto].
    destruct (find_if _ _); auto. }
  destruct F as (F1 & F2 & F3 & F4). repeat split; auto.
  apply delete_cases.
Qed.

(** X7. In a store whose ids are pairwise different, a deleted id is
    gone: no transaction has it afterwards, and editing or deleting by
    the same text again finds nothing and changes nothing. *)
Theorem deleted_id_is_not_found :
  forall (user : UserProfile) (id_str : str) (k : Z) (b : button),
    NoDup (map id user.(transactions)) ->
    stoi id_str = Ok k ->
    let user' := edit_delete_transaction_ui user id_str Delete in
    (forall t, In t user'.(transactions) -> t.(id) <> k)
    /\ NoDup (map id user'.(transactions))
    /\ edit_delete_transaction_ui user' id_str b = user'.
Proof.
  intros user id_str k b Hnd Hs user'.
  assert (H : (forall t, In t user'.(transactions) -> t.(id) <> k)
              /\ NoDup (map id user'.(transactions))).
  { pose proof (delete_cases user id_str) as D. cbv zeta in D. fold user' in D.
    destruct D as [(E & C)|(k' & l1 & t & l2 & _ & Hs' & E & Ht & Hn & E')].
    - rewrite E. split; [|assumption].
      destruct C as [->|[[e He]|(k' & Hk & Hn)]].
      + discriminate Hs.
      + congruence.
      + assert (k' = k) by congruence. subst k'. exact Hn.
    - assert (Ek : k' = k) by congruence. rewrite Ek in Ht. rewrite E'.
      rewrite E, map_app in Hnd. cbn [map] in Hnd.
      pose proof (NoDup_remove_1 _ _ _ Hnd) as H1.
      pose proof (NoDup_remove_2 _ _ _ Hnd) as H2.
      split; [|now rewrite map_app].
      intros x Hx Ex. apply H2. rewrite <- map_app, Ht, <- Ex. now apply in_map. }
  destruct H as [H1 H2]. split; [exact H1|]. split; [exact H2|].
  unfold edit_delete_transaction_ui at 1.
  destruct (is_empty id_str); [reflexivity|]. rewrite Hs.
  assert (Ef : find_if (fun t => id t =? k) (transactions user') = None).
  { apply find_if_none. intros x Hx. apply Z.eqb_neq. auto. }
  now rewrite Ef.
Qed.

Lemma deleted_id_is_not_found_witness :
  let user' := edit_delete_transaction_ui sample_user (lit "2") Delete in
  (forall t, In t user'.(transactions) -> t.(id) <> 2)
  /\ NoDup (map id user'.(transactions))
  /\ edit_delete_transaction_ui user' (lit "2") Cancel = user'.
Proof.
  apply (deleted_id_is_not_found sample_user (lit "2") 2 Cancel).
  - vm_compute. repeat constructor; simpl; intuition discriminate.
  - reflexivity.
Defined.

(** ** The list of transactions *)

Lemma draw_transactions_loop_page (h : Z) (f : str) (l : list Transaction) (y : Z) :
  h <= INT_MAX -> 0 <= y -> y <= Z.max 95 (h - 80) ->
  let k := Z.to_nat (Z.max 1 ((h - 80 - y) / 25 + 1)) in
  let shown := filter (passes_filter f) l in
  draw_transactions_loop h f l y
  = (map transaction_text (firstn k shown), Nat.leb k (List.length shown)).
Proof.
  intros Hh. revert y. induction l as [|t rest IH]; intros y Hy Hy' k shown.
  - subst shown. simpl. rewrite firstn_nil. simpl.
    destruct k eqn:E; [|reflexivity]. subst k. lia.
  - cbn [draw_transactions_loop]. subst shown. cbn [filter].
    assert (Ep : negb (is_empty f) && negb (str_eqb (category t) f)
                 = negb (passes_filter f t)).
    { unfold passes_filter. now destruct (is_empty f), (str_eqb _ _). }
    rewrite Ep. destruct (passes_filter f t); cbn [negb].
    + rewrite wrap32_small by (unfold INT_MIN, INT_MAX in *; lia).
      destruct (h - 80 <? y + 25) eqn:Eb.
      * apply Z.ltb_lt in Eb.
        assert (Ek : k = 1%nat).
        { subst k. assert ((h - 80 - y) / 25 + 1 <= 1)
            by (Z.div_mod_to_equations; lia). lia. }
        rewrite Ek. reflexivity.
      * apply Z.ltb_ge in Eb.
        specialize (IH (y + 25) ltac:(lia) ltac:(lia)). cbv zeta in IH.
        rewrite IH.
        assert (Ek : k = S (Z.to_nat (Z.max 1 ((h - 80 - (y + 25)) / 25 + 1)))).
        { subst k. assert ((h - 80 - y) / 25 = (h - 80 - (y + 25)) / 25 + 1)
            by (Z.div_mod_to_equations; lia).
          assert (0 <= (h - 80 - (y + 25)) / 25) by (Z.div_mod_to_equations; lia).
          lia. }
        rewrite Ek. reflexivity.
    + apply IH; assumption.
Qed.

(** X8. In a window of height [h] the list shows the first
    [page_size h] transactions that pass the category filter, in ledger
    order, one line each; the notice that more follow is drawn exactly
    when at least [page_size h] transactions pass, also when none is
    left out. *)
Theorem draw_transactions_shows_first_page :
  forall (h : Z) (l : list Transaction) (categoryFilter : str),
    0 <= h <= INT_MAX ->
    let shown := filter (passes_filter categoryFilter) l in
    draw_transactions h l categoryFilter
    = (map transaction_text (firstn (page_size h) shown),
       Nat.leb (page_size h) (List.length shown)).
Proof.
  intros h l f Hh shown. unfold draw_transactions.
  rewrite draw_transactions_loop_page by lia.
  cbv zeta. fold shown. unfold page_size.
  replace (h - 80 - (60 + 25 + 10)) with (h - 175) by lia. reflexivity.
Qed.

(** The theorem in the window of [main], 600 high, where the page is 18
    lines. *)
Lemma draw_transactions_shows_first_page_witness :
  page_size 600 = 18%nat
  /\ draw_transactions 600 (transactions sample_user) (lit "Food")
     = (map transaction_text
            (firstn (page_size 600)
                    (filter (passes_filter (lit "Food")) (transactions sample_user))),
        Nat.leb (page_size 600)
                (List.length (filter (passes_filter (lit "Food"))
                                     (transactions sample_user)))).
Proof.
  split; [reflexivity|].
  apply (draw_transactions_shows_first_page 600 (transactions sample_user) (lit "Food")).
  unfold INT_MAX. lia.
Defined.

(** ** Amounts with two decimals *)

Lemma round_half_even_near (n d : Z) :
  0 <= n -> 0 < d ->
  0 <= round_half_even n d /\ 2 * Z.abs (round_half_even n d * d - n) <= d.
Proof.
  intros Hn Hd. unfold round_half_even.
  pose proof (Z.div_mod n d ltac:(lia)) as E.
  pose proof (Z.mod_pos_bound n d Hd) as Hr.
  assert (0 <= n / d) by (apply Z.div_pos; lia).
  destruct (Z.compare_spec (2 * (n mod d)) d) as [Ec|Ec|Ec];
    [destruct (Z.even (n / d))| |]; split; nia.
Qed.

Lemma ratio2_positive (m : positive) (e : Z) :
  0 < fst (ratio2 (Zpos m) e) /\ 0 < snd (ratio2 (Zpos m) e).
Proof.
  unfold ratio2. destruct (0 <=? e) eqn:E; cbn [fst snd].
  - apply Z.leb_le in E. split; [|lia].
    apply Z.mul_pos_pos; [lia|]. now apply Z.pow_pos_nonneg.
  - apply Z.leb_gt in E. split; [lia|]. apply Z.pow_pos_nonneg; lia.
Qed.

Lemma all_digits_app (a b : str) :
  all_digits a -> all_digits b -> all_digits (a ++ b).
Proof. unfold all_digits. intros Ha Hb. now rewrite forallb_app, Ha, Hb. Qed.

(** X9. A finite amount other than zero is written as its sign, the
    digits of the whole part, a point and exactly two digits, never with
    an exponent; read as a number of cents, the digits are within half a
    cent of the amount. *)
Theorem format_amount_shows_nearest_cent :
  forall (s : bool) (m : positive) (e : Z),
    let n := fst (ratio2 (Zpos m) e) in
    let d := snd (ratio2 (Zpos m) e) in
    exists whole c1 c2,
      format_amount (F754_finite s m e)
      = sign_text s ++ whole ++ ch_dot :: [c1; c2]
      /\ whole <> []
      /\ all_digits (whole ++ [c1; c2])
      /\ 2 * Z.abs (digits_value (whole ++ [c1; c2]) * d - 100 * n) <= d.
Proof.
  intros s m e n d. unfold format_amount.
  destruct (ratio2_positive m e) as [Hn Hd]. fold n in Hn. fold d in Hd.
  destruct (ratio2 (Z.pos m) e) as [n0 d0] eqn:Er. cbn [fst snd] in n, d.
  subst n d. unfold print_fixed2.
  destruct (round_half_even_near (n0 * 100) d0 ltac:(lia) Hd) as [Hq Hb].
  set (q := round_half_even (n0 * 100) d0) in *.
  assert (0 <= q / 100) by (apply Z.div_pos; lia).
  destruct (to_string_nonneg (q / 100) ltac:(lia)) as (N & D & V).
  exists (to_string (q / 100)), (digit_char (q / 10 mod 10)), (digit_char (q mod 10)).
  split; [reflexivity|]. split; [exact N|]. split.
  - apply all_digits_app; [exact D|]. unfold all_digits. cbn [forallb].
    rewrite !isdigit_digit_char by (apply Z.mod_pos_bound; lia). reflexivity.
  - unfold digits_value in *. rewrite fold_left_app, V. cbn [fold_left].
    rewrite !digit_val_digit_char by (apply Z.mod_pos_bound; lia).
    replace ((q / 100 * 10 + q / 10 mod 10) * 10 + q mod 10) with q.
    + replace (100 * n0) with (n0 * 100) by lia. exact Hb.
    + assert (q / 100 = q / 10 / 10) by (rewrite Z.div_div by lia; reflexivity).
      pose proof (Z.div_mod q 10 ltac:(lia)).
      pose proof (Z.div_mod (q / 10) 10 ltac:(lia)). lia.
Qed.

(** ** Authentication and the session *)

Lemma update_at_length {A} (f : A -> A) (i : nat) (l : list A) :
  List.length (update_at i f l) = List.length l.
Proof.
  revert i. induction l as [|x l IH]; intros [|i]; simpl; auto.
Qed.

Lemma update_at_In {A} (f : A -> A) (i : nat) (l : list A) (x : A) :
  In x (update_at i f l) -> In x l \/ exists y, In y l /\ x = f y.
Proof.
  revert i. induction l as [|y l IH]; intros [|i]; simpl; auto.
  - intros [<-|H]; eauto.
  - intros [<-|H]; auto. destruct (IH _ H) as [H1|(z & H1 & H2)]; eauto.
Qed.

Lemma forallb_update_at {A} (p : A -> bool) (f : A -> A) (i : nat) (l : list A) :
  (forall x, p x = true -> p (f x) = true) ->
  forallb p l = true -> forallb p (update_at i f l) = true.
Proof.
  intros Hf H. apply forallb_forall. intros x Hx.
  rewrite forallb_forall in H.
  destruct (update_at_In _ _ _ _ Hx) as [H1|(y & H1 & ->)]; auto.
Qed.

(** A turn leaves the state as it is but for the user shown, or changes
    the current profile by a menu operation and saves, or registers a
    profile and saves. *)
Lemma main_turn_cases (st : app_state) (t : turn) (o : bool) :
  let st' := fst (main_turn st (t, o)) in
  (g_users st' = g_users st /\ users_txt st' = users_txt st
   /\ (g_current_user st' = g_current_user st
       \/ g_current_user st' = None
       \/ exists i l1 x l2, g_current_user st' = Some i
            /\ g_users st = l1 ++ x :: l2 /\ List.length l1 = i))
  \/ (exists i f, menu_change f /\ g_current_user st = Some i
        /\ st' = save_users o (on_user st i f))
  \/ (exists u p, u <> [] /\ p <> []
        /\ (forall x, In x (g_users st) -> username x <> u)
        /\ st' = mkApp (g_users st ++ [fresh_profile u p])
                       (Some (List.length (g_users st)))
                       (saveToFile_io o (g_users st ++ [fresh_profile u p])
                                      (users_txt st))).
Proof.
  unfold main_turn. destruct (g_current_user st) as [i|] eqn:Ec.
  - destruct t as [a|m]; [left; cbn; auto|].
    destruct m; cbn [fst]; try (left; cbn; auto; fail).
    + right. left. exists i. eexists. split; [apply change_add|]. split; reflexivity.
    + right. left. exists i. eexists. split; [apply change_edit_delete|]. split; reflexivity.
    + right. left. exists i. eexists. split; [apply change_set_budget|]. split; reflexivity.
  - destruct t as [a|m]; [|left; cbn; auto].
    unfold handle_user_authentication. destruct a as [u p|u p|].
    + destruct u as [|c0 u0]; cbn [is_empty]; [left; cbn; auto|].
      destruct p as [|c1 p0]; cbn [is_empty]; [left; cbn; auto|].
      destruct (find_if _ _) as [it|] eqn:Ef; [|left; cbn; auto].
      destruct (str_eqb _ _); [|left; cbn; auto].
      left. cbn. repeat split; auto. right. right.
      destruct (find_if_split _ _ _ Ef) as (l1 & x & l2 & E & Hl & _).
      exists it, l1, x, l2. auto.
    + destruct u as [|c0 u0]; cbn [is_empty]; [left; cbn; auto|].
      destruct p as [|c1 p0]; cbn [is_empty]; [left; cbn; auto|].
      destruct (find_if _ _) as [it|] eqn:Ef; [left; cbn; auto|].
      right. right. exists (c0 :: u0), (c1 :: p0).
      split; [discriminate|]. split; [discriminate|]. split; [|reflexivity].
      intros x Hx E. rewrite find_if_none in Ef. specialize (Ef x Hx).
      cbv beta in Ef. rewrite E, str_eqb_refl in Ef. discriminate.
    + left. cbn. auto.
Qed.

(** What holds at the start and is kept by every turn holds when the
    loop ends; [n] counts the turns taken. *)
Lemma main_loop_keeps (P : nat -> app_state -> Prop) :
  (forall n st, P n st -> P (S n) st) ->
  (forall n st t o, P n st -> P (S n) (fst (main_turn st (t, o)))) ->
  forall passes n st,
    P n st -> P (n + List.length passes)%nat (main_loop st passes).
Proof.
  intros Hm Hs. induction passes as [|[t o] rest IH]; intros n st H;
    cbn [main_loop List.length].
  - now rewrite Nat.add_0_r.
  - specialize (Hs n st t o H). destruct (main_turn st (t, o)) as [st1 go].
    cbn [fst] in Hs.
    replace (n + S (List.length rest))%nat with (S n + List.length rest)%nat by lia.
    destruct go; [now apply IH|].
    clear IH. induction (List.length rest) as [|k IHk].
    + now rewrite Nat.add_0_r.
    + replace (S n + S k)%nat with (S (S n + k)) by lia. now apply Hm.
Qed.

Lemma menu_change_credentials (f : UserProfile -> UserProfile) :
  menu_change f -> forall u, credentials (f u) = credentials u.
Proof.
  intros [d c ds a ty|s b|c a] u; unfold credentials.
  - destruct (add_transaction_ui_cases u d c ds a ty) as [->|(v & k & ->)]; reflexivity.
  - unfold edit_delete_transaction_ui.
    destruct (is_empty s); [reflexivity|]. destruct (stoi s); [|reflexivity].
    destruct (find_if _ _); [|reflexivity]. now destruct b.
  - unfold set_budget_ui.
    destruct (is_empty c); [reflexivity|]. destruct (is_empty a); [reflexivity|].
    now destruct (stof a).
Qed.

(** X10. No turn changes or removes the credentials of a profile: over
    a whole session the list of (username, password) pairs only grows
    at its end, by registrations. *)
Theorem credentials_are_never_changed :
  forall (st : app_state) (passes : list pass),
    exists added,
      map credentials (g_users (main_loop st passes))
      = map credentials (g_users st) ++ added.
Proof.
  intros st passes.
  pose (P := fun (_ : nat) (s : app_state) =>
               exists added, map credentials (g_users s)
                             = map credentials (g_users st) ++ added).
  apply (main_loop_keeps P) with (n := O); subst P; cbv beta.
  - auto.
  - intros _ s t o [added E].
    destruct (main_turn_cases s t o)
      as [(E1 & _)|[(i & f & Hf & _ & E1)|(u & p & _ & _ & _ & E1)]].
    + exists added. now rewrite E1.
    + exists added. rewrite E1. cbn [save_users on_user g_users].
      rewrite update_at_map_id; [exact E|]. now apply menu_change_credentials.
    + exists (added ++ [(u, p)]). rewrite E1. cbn [g_users].
      rewrite map_app, E, <- app_assoc. reflexivity.
  - exists []. now rewrite app_nil_r.
Qed.

Lemma authentication_failure (st : app_state) (a : auth_action) (o : bool) :
  snd (handle_user_authentication st a o) = false ->
  handle_user_authentication st a o = (st, false).
Proof.
  unfold handle_user_authentication. destruct a as [u p|u p|]; [| |reflexivity].
  - destruct (is_empty u); [reflexivity|]. destruct (is_empty p); [reflexivity|].
    destruct (find_if _ _); [|reflexivity].
    destruct (str_eqb _ _); [discriminate|reflexivity].
  - destruct (is_empty u); [reflexivity|]. destruct (is_empty p); [reflexivity|].
    destruct (find_if _ _); [reflexivity|discriminate].
Qed.

(** X11. A login finds the first profile with the username typed and
    succeeds when that profile has the password typed: the profile
    becomes the current one, and nothing else changes.  It fails, and
    changes nothing, when a text is empty, when no profile has the
    username, or when the first one that has it has another password,
    whatever profiles follow. *)
Theorem login_selects_first_profile_named :
  forall (st : app_state) (u p : str) (opens : bool),
    let r := handle_user_authentication st (LoginButton u p) opens in
    (exists l1 x l2,
        u <> [] /\ p <> []
        /\ g_users st = l1 ++ x :: l2
        /\ (forall y, In y l1 -> username y <> u)
        /\ username x = u /\ password x = p
        /\ r = (mkApp (g_users st) (Some (List.length l1)) (users_txt st), true))
    \/ (r = (st, false)
        /\ (u = [] \/ p = []
            \/ (forall x, In x (g_users st) -> username x <> u)
            \/ exists l1 x l2,
                 g_users st = l1 ++ x :: l2
                 /\ (forall y, In y l1 -> username y <> u)
                 /\ username x = u /\ password x <> p)).
Proof.
  intros st u p opens r. subst r. unfold handle_user_authentication.
  destruct u as [|c0 u0]; cbn [is_empty]; [right; auto|].
  destruct p as [|c1 p0]; cbn [is_empty]; [right; auto|].
  set (u := c0 :: u0). set (p := c1 :: p0).
  destruct (find_if _ _) as [it|] eqn:Ef.
  - destruct (find_if_split _ _ _ Ef) as (l1 & x & l2 & E & Hl & Hx & Hn & _).
    apply str_eqb_eq in Hx.
    assert (Hn' : forall y, In y l1 -> username y <> u).
    { intros y Hy Ey. specialize (Hn y Hy). cbv beta in Hn.
      rewrite Ey, str_eqb_refl in Hn. discriminate. }
    assert (En : nth it (g_users st) new_profile = x).
    { rewrite E, <- Hl. apply nth_middle. }
    rewrite En. destruct (str_eqb (password x) p) eqn:Ep.
    + apply str_eqb_eq in Ep. left. exists l1, x, l2. rewrite Hl.
      repeat split; auto; discriminate.
    + right. split; [reflexivity|]. right. right. right.
      exists l1, x, l2. repeat split; auto.
      intros Ep'. rewrite Ep', str_eqb_refl in Ep. discriminate.
  - right. split; [reflexivity|]. right. right. left.
    intros x Hx E. rewrite find_if_none in Ef. specialize (Ef x Hx).
    cbv beta in Ef. rewrite E, str_eqb_refl in Ef. discriminate.
Qed.

(** X12. On the welcome screen whatever is not a successful login or
    registration (a wrong password, an unknown or a taken username, a
    cancelled box, the exit button) ends the loop of [main] with the
    state as it was: what the user does next is never looked at. *)
Theorem failed_authentication_ends_session :
  forall (st : app_state) (a : auth_action) (opens : bool) (rest : list pass),
    g_current_user st = None ->
    snd (handle_user_authentication st a opens) = false ->
    main_loop st ((OnWelcome a, opens) :: rest) = st.
Proof.
  intros st a opens rest Hc Hf. cbn [main_loop]. unfold main_turn. rewrite Hc.
  now rewrite (authentication_failure st a opens Hf).
Qed.

(** The theorem at a wrong password followed by the right one. *)
Lemma failed_authentication_ends_session_witness :
  main_loop (mkApp [sample_user] None None)
            [(OnWelcome (LoginButton (username sample_user) (lit "wrong")), true);
             (OnWelcome (LoginButton (username sample_user) (password sample_user)),
              true)]
  = mkApp [sample_user] None None.
Proof.
  apply (failed_authentication_ends_session
           (mkApp [sample_user] None None)
           (LoginButton (username sample_user) (lit "wrong")) true
           [(OnWelcome (LoginButton (username sample_user) (password sample_user)),
             true)]).
  - reflexivity.
  - vm_compute. reflexivity.
Defined.

(** X13. When users.txt can be opened whenever a pass saves, every
    change of the registry is written to it in the pass that makes it:
    after any passes either the registry and the file are still those
    of the start, or the file holds the registry as [saveToFile] writes
    it. *)
Theorem every_change_is_saved :
  forall (st : app_state) (passes : list pass),
    forallb snd passes = true ->
    let st' := main_loop st passes in
    (g_users st' = g_users st /\ users_txt st' = users_txt st)
    \/ users_txt st' = Some (saveToFile (g_users st')).
Proof.
  intros st passes. revert st.
  assert (Step : forall s t,
            (g_users (fst (main_turn s (t, true))) = g_users s
             /\ users_txt (fst (main_turn s (t, true))) = users_txt s)
            \/ users_txt (fst (main_turn s (t, true)))
               = Some (saveToFile (g_users (fst (main_turn s (t, true)))))).
  { intros s t.
    destruct (main_turn_cases s t true)
      as [(E1 & E2 & _)|[(i & f & _ & _ & E1)|(u & p & _ & _ & _ & E1)]].
    - left. auto.
    - right. rewrite E1. reflexivity.
    - right. rewrite E1. reflexivity. }
  induction passes as [|[t o] rest IH]; intros st Ho; cbn [main_loop].
  - left. auto.
  - cbn [forallb snd] in Ho. apply andb_true_iff in Ho as [-> Ho].
    specialize (Step st t). destruct (main_turn st (t, true)) as [st1 go].
    cbn [fst] in Step. destruct go; [|exact Step].
    specialize (IH st1 Ho). cbv zeta in IH.
    destruct IH as [[E1 E2]|E]; [|now right].
    rewrite E1, E2. exact Step.
Qed.

(** The theorem at a registration and an addition. *)
Lemma every_change_is_saved_witness :
  let passes :=
    writable [OnWelcome (RegisterButton (lit "ann") (lit "pw"));
              OnMenu (AddTransaction (lit "2024-01-20") (lit "Food") (lit "lunch")
                                     (lit "18") (lit "E"))] in
  let st' := main_loop (mkApp [] None None) passes in
  (g_users st' = [] /\ users_txt st' = None)
  \/ users_txt st' = Some (saveToFile (g_users st')).
Proof.
  apply (every_change_is_saved
           (mkApp [] None None)
           (writable [OnWelcome (RegisterButton (lit "ann") (lit "pw"));
                      OnMenu (AddTransaction (lit "2024-01-20") (lit "Food")
                                             (lit "lunch") (lit "18") (lit "E"))])).
  reflexivity.
Defined.

Lemma main_loop_app (st : app_state) (t1 t2 : list pass) :
  main_loop st (t1 ++ t2) = main_loop st t1
  \/ main_loop st (t1 ++ t2) = main_loop (main_loop st t1) t2.
Proof.
  revert st. induction t1 as [|t r IH]; intros st; cbn [app main_loop]; [now right|].
  destruct (main_turn st t) as [st1 go]. destruct go; [apply IH|now left].
Qed.

Lemma menu_turns_keep_user (ms : list (menu_action * bool)) (st : app_state)
    (i : nat) :
  g_current_user st = Some i ->
  forallb (fun m => negb (is_logout (fst m))) ms = true ->
  let st' := main_loop st (map (fun m => (OnMenu (fst m), snd m)) ms) in
  g_current_user st' = Some i
  /\ map credentials (g_users st') = map credentials (g_users st).
Proof.
  revert st. induction ms as [|[m o] ms IH]; intros st Hc Hl;
    cbn [map main_loop fst snd]; [auto|].
  cbn [forallb fst] in Hl. apply andb_true_iff in Hl as [Hm Hl].
  assert (H : forall f, menu_change f ->
            let s := save_users o (on_user st i f) in
            let rest := map (fun m => (OnMenu (fst m), snd m)) ms in
            g_current_user (main_loop s rest) = Some i
            /\ map credentials (g_users (main_loop s rest))
               = map credentials (g_users st)).
  { intros f Hf s rest. destruct (IH s) as [H1 H2]; [exact Hc|exact Hl|].
    split; [exact H1|]. fold rest in H2. rewrite H2. subst s.
    cbn [save_users on_user g_users].
    apply update_at_map_id. now apply menu_change_credentials. }
  unfold main_turn. rewrite Hc.
  destruct m; try discriminate Hm; try (now apply IH); try (now split).
  - apply H. apply change_add.
  - apply H. apply change_edit_delete.
  - apply H. apply change_set_budget.
Qed.

Lemma find_if_map {A B} (g : A -> B) (p : B -> bool) (l : list A) :
  find_if (fun x => p (g x)) l = find_if p (map g l).
Proof. induction l as [|x l IH]; simpl; [reflexivity|]. now rewrite IH. Qed.

Lemma find_if_last {A} (p : A -> bool) (l : list A) (x : A) :
  (forall y, In y l -> p y = false) -> p x = true ->
  find_if p (l ++ [x]) = Some (List.length l).
Proof.
  induction l as [|y l IH]; simpl; intros Hn Hx; [now rewrite Hx|].
  rewrite (Hn y (or_introl eq_refl)), IH; auto.
Qed.

(** X14. Who has registered can log in again: after a registration and
    any use of the menu short of logging out, a logout followed by a
    login with the texts typed at registration comes back to the same
    state, the same profile being the current one, whether or not the
    saves on the way could open users.txt. *)
Theorem registered_user_can_log_in_again :
  forall (st : app_state) (u p : str) (o o1 o2 : bool)
         (ms : list (menu_action * bool)),
    g_current_user st = None ->
    snd (handle_user_authentication st (RegisterButton u p) o) = true ->
    forallb (fun m => negb (is_logout (fst m))) ms = true ->
    let passes := (OnWelcome (RegisterButton u p), o)
                    :: map (fun m => (OnMenu (fst m), snd m)) ms in
    main_loop st (passes ++ [(OnMenu Logout, o1); (OnWelcome (LoginButton u p), o2)])
    = main_loop st passes.
Proof.
  intros st u p o o1 o2 ms Hc Hr Hl passes.
  destruct (main_loop_app st passes
              [(OnMenu Logout, o1); (OnWelcome (LoginButton u p), o2)])
    as [E|E]; [exact E|].
  refine (eq_trans E _). clear E.
  revert Hr. unfold handle_user_authentication.
  destruct u as [|c0 u0]; cbn [is_empty]; [discriminate|].
  destruct p as [|c1 p0]; cbn [is_empty]; [discriminate|].
  set (u := c0 :: u0) in *. set (p := c1 :: p0) in *.
  destruct (find_if _ _) eqn:Ef; [discriminate|]. intros _.
  set (users := g_users st ++ [fresh_profile u p]).
  set (st1 := mkApp users (Some (List.length (g_users st)))
                    (saveToFile_io o users (users_txt st))).
  set (rest := map (fun m => (OnMenu (fst m), snd m)) ms) in *.
  assert (E1 : main_loop st passes = main_loop st1 rest).
  { subst passes. cbn [main_loop]. unfold main_turn. rewrite Hc.
    unfold handle_user_authentication. subst u p. cbn [is_empty].
    rewrite Ef. reflexivity. }
  rewrite E1. clear E1.
  destruct (menu_turns_keep_user ms st1 (List.length (g_users st)) eq_refl Hl)
    as [H1 H2].
  fold rest in H1, H2.
  set (st2 := main_loop st1 rest) in *.
  cbn [main_loop]. unfold main_turn. rewrite H1. cbn [g_current_user].
  unfold handle_user_authentication. cbn [is_empty g_users users_txt].
  assert (Eu : map username (g_users st2) = map username (g_users st) ++ [u]).
  { transitivity (map fst (map credentials (g_users st2))).
    - rewrite map_map. reflexivity.
    - rewrite H2. subst st1 users. cbn [g_users].
      rewrite map_map, map_app. reflexivity. }
  assert (Ef2 : find_if (fun x => str_eqb (username x) u) (g_users st2)
                = Some (List.length (g_users st))).
  { rewrite (find_if_map username (fun n => str_eqb n u)), Eu.
    rewrite <- (length_map username (g_users st)). apply find_if_last.
    - intros y Hy. apply in_map_iff in Hy as (x & <- & Hx).
      rewrite find_if_none in Ef. now apply Ef.
    - apply str_eqb_refl. }
  rewrite Ef2.
  assert (Ep : password (nth (List.length (g_users st)) (g_users st2) new_profile) = p).
  { change (snd (credentials (nth (List.length (g_users st)) (g_users st2) new_profile)) = p).
    rewrite <- (map_nth credentials), H2. subst st1 users. cbn [g_users].
    rewrite map_app. cbn [map]. rewrite <- (length_map credentials (g_users st)).
    rewrite nth_middle. reflexivity. }
  rewrite Ep, str_eqb_refl.
  destruct st2 as [us2 cur2 file2]. cbn [g_current_user g_users users_txt] in *.
  now rewrite H1.
Qed.

(** The theorem at a first registration followed by an added
    transaction, whose save cannot open users.txt, and a budget. *)
Lemma registered_user_can_log_in_again_witness :
  main_loop (mkApp [] None None)
    (((OnWelcome (RegisterButton (lit "ann") (lit "pw")), true)
        :: map (fun m => (OnMenu (fst m), snd m))
               [(AddTransaction (lit "2024-01-20") (lit "Food") (lit "lunch")
                                (lit "18") (lit "E"), false);
                (SetBudget (lit "Food") (lit "20"), true)])
       ++ [(OnMenu Logout, true);
           (OnWelcome (LoginButton (lit "ann") (lit "pw")), true)])
  = main_loop (mkApp [] None None)
      ((OnWelcome (RegisterButton (lit "ann") (lit "pw")), true)
         :: map (fun m => (OnMenu (fst m), snd m))
                [(AddTransaction (lit "2024-01-20") (lit "Food") (lit "lunch")
                                 (lit "18") (lit "E"), false);
                 (SetBudget (lit "Food") (lit "20"), true)]).
Proof.
  apply (registered_user_can_log_in_again
           (mkApp [] None None) (lit "ann") (lit "pw") true true true
           [(AddTransaction (lit "2024-01-20") (lit "Food") (lit "lunch")
                            (lit "18") (lit "E"), false);
            (SetBudget (lit "Food") (lit "20"), true)]);
    reflexivity.
Defined.

Lemma forallb_erase_at {A} (p : A -> bool) (i : nat) (l : list A) :
  forallb p l = true -> forallb p (erase_at i l) = true.
Proof.
  intros H. apply forallb_forall. intros x Hx. rewrite forallb_forall in H.
  apply H. now apply erase_at_In with i.
Qed.

Lemma edit_transaction_entered (nd nc ndesc na nt : str) (t : Transaction) :
  transaction_entered t = true ->
  transaction_entered (edit_transaction nd nc ndesc na nt t) = true.
Proof.
  unfold transaction_entered, edit_transaction.
  cbn [date category description type].
  intros H. apply andb_true_iff in H as [H H4].
  apply andb_true_iff in H as [H H3]. apply andb_true_iff in H as [H1 H2].
  repeat (apply andb_true_iff; split).
  - destruct nd; [exact H1|reflexivity].
  - destruct nc; [exact H2|reflexivity].
  - destruct ndesc; [exact H3|reflexivity].
  - destruct nt as [|x r]; [exact H4|].
    destruct (is_I (toupper x) || is_E (toupper x)) eqn:E; [exact E|exact H4].
Qed.

Lemma menu_change_entered (f : UserProfile -> UserProfile) :
  menu_change f ->
  forall u, profile_entered u = true -> profile_entered (f u) = true.
Proof.
  intros Hf u H. unfold profile_entered in *.
  apply andb_true_iff in H as [H H5]. apply andb_true_iff in H as [H H4].
  apply andb_true_iff in H as [H H3]. apply andb_true_iff in H as [H1 H2].
  destruct Hf as [d c ds a ty|s b|c a].
  - unfold add_transaction_ui.
    destruct (is_empty d) eqn:Ed; [now rewrite H1, H2, H3, H4, H5|].
    destruct (is_empty c) eqn:Ec; [now rewrite H1, H2, H3, H4, H5|].
    destruct (is_empty ds) eqn:Eds; [now rewrite H1, H2, H3, H4, H5|].
    destruct (is_empty a); [now rewrite H1, H2, H3, H4, H5|].
    destruct (stof a) as [v|e]; [|now rewrite H1, H2, H3, H4, H5].
    destruct ty as [|x r]; [now rewrite H1, H2, H3, H4, H5|].
    destruct (negb (is_I (toupper x)) && negb (is_E (toupper x))) eqn:Ek;
      [now rewrite H1, H2, H3, H4, H5|].
    unfold push_transaction.
    cbn [username password transactions budgetPerCategory].
    rewrite H1, H2, H4, H5, forallb_app, H3. cbn [forallb andb].
    unfold transaction_entered. cbn [date category description type].
    rewrite Ed, Ec, Eds. cbn [negb andb].
    destruct (is_I (toupper x)), (is_E (toupper x)); try reflexivity; discriminate.
  - unfold edit_delete_transaction_ui.
    destruct (is_empty s); [now rewrite H1, H2, H3, H4, H5|].
    destruct (stoi s); [|now rewrite H1, H2, H3, H4, H5].
    destruct (find_if _ _) as [it|]; [|now rewrite H1, H2, H3, H4, H5].
    destruct b as [nd nc ndesc na nt| |];
      unfold with_transactions; cbn [username password transactions budgetPerCategory];
      rewrite H1, H2, H4, H5, ?H3.
    + rewrite forallb_update_at; [reflexivity| |exact H3].
      apply edit_transaction_entered.
    + now rewrite forallb_erase_at.
    + reflexivity.
  - unfold set_budget_ui.
    destruct (is_empty c) eqn:Ec; [now rewrite H1, H2, H3, H4, H5|].
    destruct (is_empty a); [now rewrite H1, H2, H3, H4, H5|].
    destruct (stof a) as [v|e]; [|now rewrite H1, H2, H3, H4, H5].
    cbn [username password transactions budgetPerCategory].
    rewrite H1, H2, H3. unfold map_set. rewrite map_update_sorted by exact H5.
    cbn [negb andb]. rewrite andb_true_r.
    apply forallb_forall. intros e He. rewrite forallb_forall in H4.
    destruct (map_update_keys _ _ _ _ He) as [->|Hk]; [now rewrite Ec|].
    apply in_map_iff in Hk as (e' & <- & He'). now apply H4.
Qed.

Lemma main_turn_keeps_entries (st : app_state) (t : turn) (o : bool) :
  NoDup (map username (g_users st))
  /\ forallb profile_entered (g_users st) = true
  /\ (forall i, g_current_user st = Some i -> (i < List.length (g_users st))%nat) ->
  let st' := fst (main_turn st (t, o)) in
  NoDup (map username (g_users st'))
  /\ forallb profile_entered (g_users st') = true
  /\ (forall i, g_current_user st' = Some i -> (i < List.length (g_users st'))%nat).
Proof.
  intros (H1 & H2 & H3) st'. subst st'.
  destruct (main_turn_cases st t o)
    as [(E1 & _ & Ec)|[(i & f & Hf & Hc & E1)|(u & p & Hu & Hp & Hn & E1)]].
  - rewrite E1. split; [exact H1|]. split; [exact H2|].
    intros i Hi. destruct Ec as [Ec|[Ec|(j & l1 & x & l2 & Ec & E & Hl)]].
    + apply H3. congruence.
    + congruence.
    + assert (i = j) by congruence. subst i. rewrite E, length_app, Hl.
      cbn [List.length]. lia.
  - rewrite E1. cbn [save_users on_user g_users g_current_user].
    split; [|split].
    + replace (map username (update_at i f (g_users st))) with (map username (g_users st));
        [exact H1|].
      symmetry. apply update_at_map_id. intros x.
      pose proof (menu_change_credentials f Hf x) as E. now injection E.
    + apply forallb_update_at; [|exact H2]. now apply menu_change_entered.
    + intros j Hj. rewrite update_at_length. now apply H3.
  - rewrite E1. cbn [g_users g_current_user]. split; [|split].
    + rewrite map_app. cbn [map username fresh_profile].
      apply NoDup_app; [exact H1|repeat constructor; intros []|].
      intros a Ha [<-|[]]. apply in_map_iff in Ha as (x & Ex & Hx).
      now apply (Hn x Hx).
    + rewrite forallb_app, H2. cbn [forallb]. unfold profile_entered.
      cbn [username password transactions budgetPerCategory fresh_profile
           forallb map_sorted].
      destruct u; [congruence|]. destruct p; [congruence|]. reflexivity.
    + intros i [= <-]. rewrite length_app. cbn [List.length]. lia.
Qed.

(** X15. What a session is started with it ends with: if the profiles
    loaded have pairwise different, non-empty usernames, non-empty
    passwords, transactions with non-empty date, category and
    description and kind I or E, and non-empty budget categories in key
    order, then [main] returns, and whatever the passes the registry
    still has these properties at the end and the current user is one
    of its profiles; users.txt holds the registry then if it could be
    opened for the save at the end. *)
Theorem session_keeps_entries_well_formed :
  forall (file : option str) (users : list UserProfile) (passes : list pass)
         (opens_at_exit : bool),
    loadFromFile file [] = Ok users ->
    NoDup (map username users) ->
    forallb profile_entered users = true ->
    exists st,
      main file passes opens_at_exit = Ok st
      /\ session_ok st
      /\ (opens_at_exit = true -> users_txt st = Some (saveToFile (g_users st))).
Proof.
  intros file users passes o Hl H1 H2. unfold main. rewrite Hl. cbn [bind].
  eexists. split; [reflexivity|].
  split; [|intros ->; reflexivity]. unfold session_ok.
  cbn [save_users g_users g_current_user].
  pose (P := fun (_ : nat) (s : app_state) =>
               NoDup (map username (g_users s))
               /\ forallb profile_entered (g_users s) = true
               /\ (forall i, g_current_user s = Some i
                             -> (i < List.length (g_users s))%nat)).
  apply (main_loop_keeps P) with (n := O); subst P; cbv beta.
  - auto.
  - intros _ s t o'. apply main_turn_keeps_entries.
  - cbn [g_users g_current_user]. repeat split; auto. discriminate.
Qed.

(** The theorem at the first start, without users.txt, and a session
    with a registration, two additions, an edit and a budget, in which
    users.txt cannot be opened for writing before the end. *)
Lemma session_keeps_entries_well_formed_witness :
  exists st,
    main None
      (map (fun t => (t, false))
         [OnWelcome (RegisterButton (lit "ann") (lit "pw"));
          OnMenu (AddTransaction (lit "2024-01-20") (lit "Food") (lit "lunch")
                                 (lit "18") (lit "e"));
          OnMenu (AddTransaction (lit "") (lit "Food") (lit "tea") (lit "1") (lit "E"));
          OnMenu (EditDelete (lit "1")
                             (Edit (lit "") (lit "Meals") (lit "") (lit "x") (lit "q")));
          OnMenu (SetBudget (lit "Meals") (lit "20"))])
      true
    = Ok st
    /\ session_ok st
    /\ (true = true -> users_txt st = Some (saveToFile (g_users st))).
Proof.
  apply (session_keeps_entries_well_formed None []).
  - reflexivity.
  - constructor.
  - reflexivity.
Defined.

Lemma menu_change_ids (f : UserProfile -> UserProfile) (room : Z) :
  menu_change f -> 0 <= room ->
  forall u,
    ids_ok u /\ next_transaction_id u + (room + 1) <= INT_MAX ->
    ids_ok (f u) /\ next_transaction_id (f u) + room <= INT_MAX.
Proof.
  intros Hf Hr u [(N & H1 & Hb) Hm].
  assert (Same : ids_ok u /\ next_transaction_id u + room <= INT_MAX).
  { split; [exact (conj N (conj H1 Hb))|lia]. }
  destruct Hf as [d c ds a ty|s b|c a].
  - destruct (add_transaction_ui_cases u d c ds a ty) as [->|(v & k & ->)];
      [exact Same|].
    unfold push_transaction, ids_ok.
    cbn [transactions next_transaction_id].
    rewrite wrap32_small by (unfold INT_MIN, INT_MAX in *; lia).
    split; [|lia]. split; [|split; [lia|]].
    + rewrite map_app. cbn [map id].
      apply NoDup_app; [exact N|repeat constructor; intros []|].
      intros x Hx [<-|[]]. apply in_map_iff in Hx as (t & Et & Ht).
      specialize (Hb t Ht). lia.
    + intros t Ht. apply in_app_iff in Ht as [Ht|[<-|[]]].
      * specialize (Hb t Ht). lia.
      * cbn [id]. lia.
  - unfold edit_delete_transaction_ui.
    destruct (is_empty s); [exact Same|]. destruct (stoi s) as [k|e]; [|exact Same].
    destruct (find_if _ _) as [it|] eqn:Ef; [|exact Same].
    destruct b as [nd nc ndesc na nt| |]; [| |exact Same];
      unfold with_transactions, ids_ok; cbn [transactions next_transaction_id];
      (split; [|lia]); (split; [|split; [exact H1|]]).
    + rewrite update_at_map_id; [exact N|reflexivity].
    + intros t Ht.
      destruct (update_at_In _ _ _ _ Ht) as [Ht'|(y & Hy & ->)]; [now apply Hb|].
      cbn [edit_transaction id]. now apply Hb.
    + destruct (find_if_split _ _ _ Ef) as (l1 & x & l2 & E & _ & _ & _ & ->).
      rewrite E, map_app in N. cbn [map] in N. rewrite map_app.
      now apply NoDup_remove_1 in N.
    + intros t Ht. apply Hb. now apply erase_at_In with it.
  - unfold set_budget_ui.
    destruct (is_empty c); [exact Same|]. destruct (is_empty a); [exact Same|].
    destruct (stof a); exact Same.
Qed.

Lemma main_turn_keeps_ids (st : app_state) (t : turn) (o : bool) (room : Z) :
  0 <= room -> room + 1 < INT_MAX ->
  (forall u, In u (g_users st) ->
     ids_ok u /\ next_transaction_id u + (room + 1) <= INT_MAX) ->
  forall u, In u (g_users (fst (main_turn st (t, o)))) ->
    ids_ok u /\ next_transaction_id u + room <= INT_MAX.
Proof.
  intros Hr Hm H u Hu.
  destruct (main_turn_cases st t o)
    as [(E1 & _)|[(i & f & Hf & Hc & E1)|(n & p & _ & _ & _ & E1)]].
  - rewrite E1 in Hu. destruct (H u Hu) as [H1 H2]. split; [exact H1|lia].
  - rewrite E1 in Hu. cbn [save_users on_user g_users] in Hu.
    destruct (update_at_In _ _ _ _ Hu) as [Hu'|(y & Hy & ->)].
    + destruct (H u Hu') as [H1 H2]. split; [exact H1|lia].
    + apply menu_change_ids; auto.
  - rewrite E1 in Hu. cbn [g_users] in Hu.
    apply in_app_iff in Hu as [Hu|[<-|[]]].
    + destruct (H u Hu) as [H1 H2]. split; [exact H1|lia].
    + unfold ids_ok, fresh_profile. cbn [transactions next_transaction_id map].
      split; [|lia]. split; [constructor|]. split; [lia|]. intros x [].
Qed.

(** X16. Ids stay unique over a session: if in every profile loaded the
    ids are pairwise different and lie from 1 up to the counter, and
    the counter is further from the largest [int] than the session has
    turns, then [main] returns and the same holds in every profile at
    the end, whatever was added, edited or deleted, and by whom. *)
Theorem session_keeps_ids_unique :
  forall (file : option str) (users : list UserProfile) (passes : list pass)
         (opens_at_exit : bool),
    loadFromFile file [] = Ok users ->
    Z.of_nat (List.length passes) < INT_MAX ->
    (forall u, In u users ->
       ids_ok u
       /\ next_transaction_id u + Z.of_nat (List.length passes) <= INT_MAX) ->
    exists st, main file passes opens_at_exit = Ok st
               /\ forall u, In u (g_users st) -> ids_ok u.
Proof.
  intros file users passes o Hl Hb H. unfold main. rewrite Hl. cbn [bind].
  eexists. split; [reflexivity|]. cbn [save_users g_users].
  set (L := List.length passes) in *.
  pose (P := fun (n : nat) (s : app_state) =>
               (n <= L)%nat ->
               forall u, In u (g_users s) ->
                 ids_ok u
                 /\ next_transaction_id u + (Z.of_nat L - Z.of_nat n) <= INT_MAX).
  assert (HP : P (0 + L)%nat (main_loop (mkApp users None file) passes)).
  { apply (main_loop_keeps P); subst P; cbv beta.
    - intros n s Hs Hn u Hu. destruct (Hs ltac:(lia) u Hu) as [H1 H2].
      split; [exact H1|lia].
    - intros n s t o' Hs Hn.
      apply main_turn_keeps_ids; [lia|lia|].
      intros u Hu. destruct (Hs ltac:(lia) u Hu) as [H1 H2].
      split; [exact H1|lia].
    - intros _ u Hu. cbn [g_users] in Hu. destruct (H u Hu) as [H1 H2].
      split; [exact H1|lia]. }
  intros u Hu. now apply (HP ltac:(lia) u Hu).
Qed.

(** The theorem at the first start, without users.txt, and a session
    of two users who add, edit and delete. *)
Lemma session_keeps_ids_unique_witness :
  exists st,
    main None
      (writable
         [OnWelcome (RegisterButton (lit "ann") (lit "pw"));
          OnMenu (AddTransaction (lit "2024-01-20") (lit "Food") (lit "lunch")
                                 (lit "18") (lit "e"));
          OnMenu (AddTransaction (lit "2024-01-21") (lit "Food") (lit "tea")
                                 (lit "1") (lit "E"));
          OnMenu (EditDelete (lit "1") Delete);
          OnMenu (AddTransaction (lit "2024-01-22") (lit "Pay") (lit "job")
                                 (lit "100") (lit "I"));
          OnMenu Logout;
          OnWelcome (RegisterButton (lit "bob") (lit "b"));
          OnMenu (AddTransaction (lit "2024-01-22") (lit "Pay") (lit "job")
                                 (lit "100") (lit "I"));
          OnMenu (EditDelete (lit "1")
                             (Edit (lit "") (lit "Wage") (lit "") (lit "") (lit "")))])
      true
    = Ok st /\ forall u, In u (g_users st) -> ids_ok u.
Proof.
  apply (session_keeps_ids_unique None []).
  - reflexivity.
  - unfold INT_MAX. cbn [List.length writable map]. lia.
  - intros u [].
Defined.

(** ** The structure of users.txt *)

Lemma load_line_outside (users : list UserProfile) (line : str) :
  is_user_line line = false -> load_line (users, None) line = Ok (users, None).
Proof.
  unfold is_user_line, load_line. intros ->.
  cbn [has_current snd fst]. rewrite !andb_false_r.
  now destruct (str_eqb line (lit "ENDUSER")).
Qed.

Lemma load_lines_outside (users : list UserProfile) (lines : list str) :
  forallb (fun l => negb (is_user_line l)) lines = true ->
  load_lines (users, None) lines = Ok (users, None).
Proof.
  induction lines as [|l lines IH]; cbn [forallb load_lines]; [reflexivity|].
  intros H. apply andb_true_iff in H as [H1 H2].
  rewrite load_line_outside by now destruct (is_user_line l).
  cbn [bind]. now apply IH.
Qed.

(** X17. What stands before the first [USER|] line of users.txt is
    never parsed: lines of any content there, also [NEXT_ID|],
    [BUDGETS|] and [TRANS|] lines whose numbers cannot be read, are
    skipped without an exception, and the file loads as it does without
    them. *)
Theorem lines_before_first_user_are_ignored :
  forall (lines : list str) (text : str) (old : list UserProfile),
    forallb (lacks ch_nl) lines = true ->
    forallb (fun l => negb (is_user_line l)) lines = true ->
    loadFromFile (Some (unlines lines ++ text)) old
    = loadFromFile (Some text) old.
Proof.
  intros lines text old Hn Hu. unfold loadFromFile, load_text.
  rewrite split_unlines by exact Hn.
  rewrite load_lines_app, load_lines_outside by exact Hu. reflexivity.
Qed.

(** The theorem at three lines, two of them with unreadable numbers,
    before the file of [sample_user]. *)
Lemma lines_before_first_user_are_ignored_witness :
  loadFromFile
    (Some (unlines [lit "NEXT_ID|x"; lit "TRANS|a|2024-01-20|Food|tea|b|E";
                    lit "BUDGETS|Food:much,"]
             ++ saveToFile [sample_user])) []
  = loadFromFile (Some (saveToFile [sample_user])) [].
Proof.
  apply (lines_before_first_user_are_ignored
           [lit "NEXT_ID|x"; lit "TRANS|a|2024-01-20|Food|tea|b|E";
            lit "BUDGETS|Food:much,"]
           (saveToFile [sample_user]) []);
    reflexivity.
Defined.

Lemma on_current_length (st : load_state) (f : UserProfile -> UserProfile) :
  List.length (fst (on_current st f)) = List.length (fst st).
Proof.
  unfold on_current. destruct (snd st); [|reflexivity].
  cbn [fst]. apply update_at_length.
Qed.

Lemma load_line_length (st st' : load_state) (line : str) :
  load_line st line = Ok st' ->
  List.length (fst st')
  = (List.length (fst st) + if is_user_line line then 1 else 0)%nat.
Proof.
  unfold load_line, is_user_line.
  destruct (starts_with (lit "USER|") line).
  { intros [= <-]. unfold load_user_line.
    destruct (getline line ch_pipe) as [t0 ss1].
    destruct (getline ss1 ch_pipe) as [u ss2].
    destruct (getline ss2 ch_pipe) as [p ss3].
    cbn [fst]. rewrite update_at_length, length_app. reflexivity. }
  rewrite Nat.add_0_r.
  destruct (starts_with (lit "NEXT_ID|") line && has_current st).
  { destruct (stoi _); cbn [bind]; [|discriminate].
    intros [= <-]. apply on_current_length. }
  destruct (starts_with (lit "BUDGETS|") line && has_current st).
  { destruct (load_budget_parts _ _); cbn [bind]; [|discriminate].
    intros [= <-]. apply on_current_length. }
  destruct (starts_with (lit "TRANS|") line && has_current st).
  { destruct (load_trans_parts _) as [[t|]|]; cbn [bind]; [| |discriminate].
    - intros [= <-]. apply on_current_length.
    - now intros [= <-]. }
  destruct (str_eqb line (lit "ENDUSER")); now intros [= <-].
Qed.

Lemma load_lines_length (lines : list str) (st st' : load_state) :
  load_lines st lines = Ok st' ->
  List.length (fst st')
  = (List.length (fst st) + List.length (filter is_user_line lines))%nat.
Proof.
  revert st. induction lines as [|l lines IH]; intros st; cbn [load_lines filter].
  - intros [= <-]. cbn [List.length]. lia.
  - destruct (load_line st l) as [st1|e] eqn:E; cbn [bind]; [|discriminate].
    intros H. rewrite (IH _ H), (load_line_length _ _ _ E).
    destruct (is_user_line l); cbn [List.length]; lia.
Qed.

(** X18. A file that loads gives as many profiles as it has lines that
    begin with [USER|]: each such line opens a new profile, whether or
    not the one before was closed by [ENDUSER], and no other line
    adds or removes one. *)
Theorem loaded_profiles_are_the_user_lines :
  forall (text : str) (old users : list UserProfile),
    loadFromFile (Some text) old = Ok users ->
    List.length users = List.length (filter is_user_line (split text ch_nl)).
Proof.
  intros text old users. unfold loadFromFile, load_text.
  destruct (load_lines ([], None) (split text ch_nl)) as [st|e] eqn:E;
    cbn [bind]; [|discriminate].
  intros [= <-]. now rewrite (load_lines_length _ _ _ E).
Qed.

(** The theorem at a file of two profiles where the first is not
    closed. *)
Lemma loaded_profiles_are_the_user_lines_witness :
  List.length [fresh_profile (lit "ann") (lit "pw"); fresh_profile (lit "bob") []]
  = List.length (filter is_user_line
                        (split (unlines [lit "USER|ann|pw"; lit "USER|bob"; lit "ENDUSER"])
                               ch_nl)).
Proof.
  apply (loaded_profiles_are_the_user_lines
           (unlines [lit "USER|ann|pw"; lit "USER|bob"; lit "ENDUSER"]) []).
  reflexivity.
Defined.

(** ** The budget report *)

Lemma budget_loop_exceeded (budgets expenses : smap) :
  snd (budget_loop budgets expenses)
  = existsb (fun row => is_red (row_color row)) (fst (budget_loop budgets expenses)).
Proof.
  revert expenses. induction budgets as [|[cat budget] rest IH]; intros expenses;
    cbn [budget_loop]; [reflexivity|].
  unfold map_at. specialize (IH (map_update cat (fun v => v) expenses)).
  destruct (budget_loop rest _) as [rows exceeded]. cbn [fst snd] in *.
  cbn [existsb row_color]. rewrite IH. f_equal.
  unfold budget_color. destruct (flt budget (map_get cat expenses)); [reflexivity|].
  now destruct (_ && _).
Qed.

(** X19. The budget report has one line for each category that has a
    budget, in the order of the categories, showing the budget and the
    float sum of the category's expenses in ledger order (0 when there
    are none); what is spent in a category without a budget is not
    shown.  The line is red exactly when more is spent than the budget,
    and the warning under the lines is drawn exactly when a line is
    red. *)
Theorem budget_report_lines_and_warning :
  forall (user : UserProfile),
    let spent_on := fun k => fsum_from fzero
                               (amounts_for expense_entry k user.(transactions)) in
    let rows := fst (drawBudgetReport user) in
    map row_category rows = map fst user.(budgetPerCategory)
    /\ map row_budget rows = map snd user.(budgetPerCategory)
    /\ (forall row, In row rows ->
          row_spent row = spent_on (row_category row)
          /\ is_red (row_color row) = flt (row_budget row) (row_spent row))
    /\ snd (drawBudgetReport user)
       = existsb (fun row => is_red (row_color row)) rows.
Proof.
  intros user spent_on rows.
  assert (Ew : snd (drawBudgetReport user)
               = existsb (fun row => is_red (row_color row)) rows)
    by apply budget_loop_exceeded.
  assert (R : rows = map (budget_row_of spent_on) user.(budgetPerCategory))
    by apply drawBudgetReport_rows.
  split; [|split; [|split; [|exact Ew]]]; rewrite R.
  - rewrite map_map. reflexivity.
  - rewrite map_map. reflexivity.
  - intros row Hr. apply in_map_iff in Hr as (e & <- & _).
    unfold budget_row_of. cbn [row_spent row_category row_color row_budget].
    split; [reflexivity|]. unfold budget_color.
    destruct (flt (snd e) (spent_on (fst e))); [reflexivity|].
    now destruct (_ && _).
Qed.

(** ** Closing and starting again *)

(** X20. What [main] saves when it ends is what it loads when it is
    started again: if users.txt could be opened for the save at the
    end, and the registry then holds no text with a separator of the
    file format and no amount that six digits do not reproduce, the
    next run starts from this registry, with nobody logged in. *)
Theorem next_run_starts_from_saved_registry :
  forall (file : option str) (passes passes' : list pass) (opens' : bool)
         (st : app_state),
    main file passes true = Ok st ->
    registry_ok (g_users st) = true ->
    main (users_txt st) passes' opens'
    = Ok (save_users opens'
            (main_loop (mkApp (g_users st) None (users_txt st)) passes')).
Proof.
  intros file passes passes' opens' st Hm Hr.
  assert (Ef : users_txt st = Some (saveToFile (g_users st))).
  { unfold main in Hm. destruct (loadFromFile file []); cbn [bind] in Hm;
      [|discriminate]. injection Hm as <-. reflexivity. }
  unfold main. rewrite Ef at 1. unfold loadFromFile, load_text.
  rewrite saveToFile_lines, <- (app_nil_r (unlines _)).
  rewrite split_unlines by now apply registry_lines_lack_nl.
  rewrite split_nil, app_nil_r.
  destruct (load_registry_lines_ok (g_users st) [] None Hr) as [cur' E].
  rewrite E. reflexivity.
Qed.

(** The theorem at a first session in which ann registers and adds a
    transaction and a budget while users.txt cannot be opened, which it
    can at the end, and a second in which she logs in. *)
Lemma next_run_starts_from_saved_registry_witness :
  exists st,
    main None
      (map (fun t => (t, false))
         [OnWelcome (RegisterButton (lit "ann") (lit "pw"));
          OnMenu (AddTransaction (lit "2024-01-20") (lit "Food") (lit "lunch")
                                 (lit "18.5") (lit "e"));
          OnMenu (SetBudget (lit "Food") (lit "20"))])
      true = Ok st
    /\ main (users_txt st)
            (writable [OnWelcome (LoginButton (lit "ann") (lit "pw"))]) true
       = Ok (save_users true
               (main_loop (mkApp (g_users st) None (users_txt st))
                          (writable [OnWelcome (LoginButton (lit "ann") (lit "pw"))]))).
Proof.
  eexists. split; [reflexivity|].
  apply (next_run_starts_from_saved_registry None
           (map (fun t => (t, false))
              [OnWelcome (RegisterButton (lit "ann") (lit "pw"));
               OnMenu (AddTransaction (lit "2024-01-20") (lit "Food") (lit "lunch")
                                      (lit "18.5") (lit "e"));
               OnMenu (SetBudget (lit "Food") (lit "20"))])).
  - reflexivity.
  - vm_compute. reflexivity.
Defined.

(** ** Text input *)








